(** * Astra: intent classification, knowledge fetchers, visualization data
      shaping, follow-up suggestions and the chat retry policy.

    Shallow embedding of
      - utils/knowledgeGraphService.js (getCarRelationships, getCarFeatures,
        getCarTimeline, getReviewSentiment, determineVisualizationType,
        generateVisualizationData), and
      - EnhancedChatInterface (handleSend, handleRetry, generateSuggestions,
        the typing effect), one call at a time and with calls, answers and
        effect runs in any order.

    JavaScript strings are sequences of UTF-16 code units, numbers are
    rationals extended with NaN and the two infinities, exceptions are
    modelled by an error monad, the Supabase client by the outcome of each
    query, and [Math.random] by a stream of draws threaded through the code.

    The arithmetic of getReviewSentiment is that of IEEE 754 binary64: every
    sum, quotient and product is rounded to the nearest double. The sums of
    the sort comparators (of percentages) and of the review count, and the
    placeholder built from a draw, are left unrounded. *)

From Stdlib Require Import ZArith NArith QArith Qround Qpower Lqa List String Ascii Lia Bool.
From Stdlib Require Import Sorted Permutation.
From Stdlib Require SpecFloat.
From stdpp Require Import gmap.
Import ListNotations.

Set Implicit Arguments.
Local Open Scope N_scope.

(* ===================================================================== *)
(** ** JavaScript values                                                   *)
(* ===================================================================== *)

Module JS.

(** A string is its list of UTF-16 code units. *)
Abbreviation jsstring := (list N).

(** Source literals are ASCII; [lit] gives their code units. *)
Definition lit (s : string) : jsstring :=
  List.map N_of_ascii (list_ascii_of_string s).

(** Numbers: a finite value is a rational; signed zeros are not told
    apart. *)
Inductive jsnum : Type :=
  | Fin (q : Q)
  | NaN
  | PosInf
  | NegInf.

Inductive jsval : Type :=
  | JUndefined
  | JNull
  | JBool (b : bool)
  | JNum (n : jsnum)
  | JStr (s : jsstring)
  | JObject.

Definition is_zero (q : Q) : bool := (Qnum q =? 0)%Z.

(** ToBoolean on numbers: 0 and NaN are falsy. *)
Definition num_truthy (n : jsnum) : bool :=
  match n with
  | Fin q => negb (is_zero q)
  | NaN => false
  | PosInf | NegInf => true
  end.

(** ToBoolean. *)
Definition truthy (v : jsval) : bool :=
  match v with
  | JUndefined | JNull => false
  | JBool b => b
  | JNum n => num_truthy n
  | JStr s => negb (Nat.eqb (List.length s) 0)
  | JObject => true
  end.

(** [a || b] on values (the right operand is already evaluated: use only
    where it has no effect). *)
Definition or_else (a b : jsval) : jsval := if truthy a then a else b.

(** [n || 0] on numbers. *)
Definition num_or_zero (n : jsnum) : jsnum :=
  if num_truthy n then n else Fin 0.

(** [Number.isFinite] *)
Definition is_finite (n : jsnum) : bool :=
  match n with
  | Fin _ => true
  | NaN | PosInf | NegInf => false
  end.

(** [Math.round]: the nearest integer, ties towards +Infinity. The result
    is exact: the nearest integer of a double is a double. *)
Definition Math_round (n : jsnum) : jsnum :=
  match n with
  | Fin q => Fin (inject_Z (Qfloor (q + (1 # 2))%Q))
  | other => other
  end.

(** Addition and subtraction as reducers and sort comparators use them, on
    whole numbers small enough for the sum to be exact. *)
Definition add (a b : jsnum) : jsnum :=
  match a, b with
  | Fin x, Fin y => Fin (x + y)%Q
  | NaN, _ | _, NaN => NaN
  | PosInf, NegInf | NegInf, PosInf => NaN
  | PosInf, _ | _, PosInf => PosInf
  | NegInf, _ | _, NegInf => NegInf
  end.

Definition neg (a : jsnum) : jsnum :=
  match a with
  | Fin x => Fin (- x)%Q
  | NaN => NaN
  | PosInf => NegInf
  | NegInf => PosInf
  end.

(** *** Double precision

    A number is an IEEE 754 binary64 value, and [+], [*] and [/] return the
    exact result rounded to the nearest such value, a tie going to the one
    whose significand is even. *)
Module Double.

(** The power of two [2^e]. *)
Definition pow2 (e : Z) : Q := (2 ^ e)%Q.

(** [floor (log2 q)] for [0 < q]. *)
Definition ilog2 (q : Q) : Z :=
  let k := (Z.log2 (Qnum q) - Z.log2 (Z.pos (Qden q)))%Z in
  if Qle_bool (pow2 k) q then k else (k - 1)%Z.

(** The nearest integer, a tie going to the even one. *)
Definition nearest_even (x : Q) : Z :=
  let f := Qfloor x in
  match (x - inject_Z f ?= 1 # 2)%Q with
  | Lt => f
  | Gt => (f + 1)%Z
  | Eq => if Z.even f then f else (f + 1)%Z
  end.

(** Rounding of [0 < q]. The significand has 53 bits, so the last place of
    a number in [2^k, 2^(k+1)) is worth [2^(k-52)], and never less than
    [2^-1074], the smallest subnormal; a result that reaches [2^1024] is
    [Infinity]. *)
Definition round_pos (q : Q) : jsnum :=
  let e := Z.max (ilog2 q - 52) (-1074) in
  let r := (inject_Z (nearest_even (q / pow2 e)) * pow2 e)%Q in
  if Qle_bool (pow2 1024) r then PosInf else Fin (Qred r).

Definition round (q : Q) : jsnum :=
  match Qnum q with
  | Z0 => Fin 0
  | Z.pos _ => round_pos q
  | Z.neg _ => neg (round_pos (- q))
  end.

Definition negative (q : Q) : bool := (Qnum q <? 0)%Z.

(** [Infinity] or [-Infinity]. *)
Definition infinity (minus : bool) : jsnum :=
  if minus then NegInf else PosInf.

(** [a + b] *)
Definition add (a b : jsnum) : jsnum :=
  match a, b with
  | Fin x, Fin y => round (x + y)
  | NaN, _ | _, NaN => NaN
  | PosInf, NegInf | NegInf, PosInf => NaN
  | PosInf, _ | _, PosInf => PosInf
  | NegInf, _ | _, NegInf => NegInf
  end.

(** [a * b] *)
Definition mul (a b : jsnum) : jsnum :=
  match a, b with
  | Fin x, Fin y => round (x * y)
  | NaN, _ | _, NaN => NaN
  | Fin x, PosInf | PosInf, Fin x =>
      if is_zero x then NaN else infinity (negative x)
  | Fin x, NegInf | NegInf, Fin x =>
      if is_zero x then NaN else infinity (negb (negative x))
  | PosInf, PosInf | NegInf, NegInf => PosInf
  | PosInf, NegInf | NegInf, PosInf => NegInf
  end.

(** [a / b]; a divisor that is zero is taken to be [+0]. *)
Definition div (a b : jsnum) : jsnum :=
  match a, b with
  | Fin x, Fin y =>
      if is_zero y then (if is_zero x then NaN else infinity (negative x))
      else round (x / y)
  | NaN, _ | _, NaN => NaN
  | Fin _, (PosInf | NegInf) => Fin 0
  | PosInf, Fin y => infinity (negative y)
  | NegInf, Fin y => infinity (negb (negative y))
  | (PosInf | NegInf), (PosInf | NegInf) => NaN
  end.

(** The number a non-negative integer of a JSON document is read as: the
    integer itself up to [2^53], the nearest double beyond. *)
Definition of_N (n : N) : jsnum := round (inject_Z (Z.of_N n)).

(** [r] is not negative, and is [q] up to a relative and an absolute error
    of a millionth. *)
Definition close (q r : Q) : Prop :=
  (0 <= r /\ r - q <= q * (1 # 1000000) + (1 # 1000000)
   /\ q - r <= q * (1 # 1000000) + (1 # 1000000))%Q.

(** The value of a number given in the format of the Standard Library's
    specification of IEEE 754 arithmetic. *)
Definition of_spec_float (f : SpecFloat.spec_float) : jsnum :=
  match f with
  | SpecFloat.S754_zero _ => Fin 0
  | SpecFloat.S754_infinity s => infinity s
  | SpecFloat.S754_nan => NaN
  | SpecFloat.S754_finite s m e =>
      Fin (Qred (inject_Z (if s then Z.neg m else Z.pos m) * pow2 e))
  end.

(** The binary64 number of the Standard Library's specification nearest to
    a non-negative integer. *)
Definition to_spec_float (n : N) : SpecFloat.spec_float :=
  SpecFloat.binary_normalize 53 1024 (Z.of_N n) 0 false.

End Double.

Definition sub (a b : jsnum) : jsnum := add a (neg b).

(** The sign test [n < 0] a sort comparator result goes through (a NaN
    result counts as 0). *)
Definition is_negative (n : jsnum) : bool :=
  match n with
  | Fin q => (Qnum q <? 0)%Z
  | NegInf => true
  | NaN | PosInf => false
  end.

(** *** Arrays *)

(** [[...new Set(xs)]]: the distinct elements in order of first
    occurrence. *)
Fixpoint dedupe {A} (eqb : A -> A -> bool) (xs : list A) : list A :=
  match xs with
  | [] => []
  | x :: xs' => x :: List.filter (fun y => negb (eqb x y)) (dedupe eqb xs')
  end.

(** Stable insertion; [before y x] says that [y] sorts strictly before
    [x]. *)
Fixpoint insert_sorted {A} (before : A -> A -> bool) (x : A) (l : list A)
  : list A :=
  match l with
  | [] => [x]
  | y :: l' =>
      if before y x then y :: insert_sorted before x l' else x :: y :: l'
  end.

(** [xs.sort(...)]: the sort is stable, so its result is the one of any
    stable sort. *)
Definition sort_by {A} (before : A -> A -> bool) (xs : list A) : list A :=
  List.fold_right (insert_sorted before) [] xs.

(** [xs.find(p)]; [None] is [undefined]. *)
Definition find {A} (p : A -> bool) (xs : list A) : option A :=
  List.find p xs.

(** *** Strings *)

Fixpoint starts_with (t s : jsstring) : bool :=
  match t, s with
  | [], _ => true
  | _ :: _, [] => false
  | a :: t', b :: s' => (a =? b) && starts_with t' s'
  end.

(** [s.includes(t)]. *)
Fixpoint includes (s t : jsstring) : bool :=
  starts_with t s ||
  match s with
  | [] => false
  | _ :: s' => includes s' t
  end.

(** [a < b] on strings: lexicographic on code units. *)
Fixpoint str_lt (a b : jsstring) : bool :=
  match a, b with
  | _, [] => false
  | [], _ :: _ => true
  | x :: a', y :: b' => (x <? y) || ((x =? y) && str_lt a' b')
  end.

Definition str_eqb (a b : jsstring) : bool :=
  if decide (a = b) then true else false.

(** White space and line terminators, the code units [trim] strips. *)
Definition is_white_space (c : N) : bool :=
  existsb (N.eqb c)
    [9; 10; 11; 12; 13; 32; 160; 5760; 8232; 8233; 8239; 8287; 12288; 65279]
  || ((8192 <=? c) && (c <=? 8202)).

Fixpoint trim_start (s : jsstring) : jsstring :=
  match s with
  | c :: s' => if is_white_space c then trim_start s' else s
  | [] => []
  end.

Definition trim (s : jsstring) : jsstring :=
  rev (trim_start (rev (trim_start s))).

(** Decimal digits of a non-negative integer, least significant first;
    [fuel] bounds the number of digits. *)
Fixpoint digits_rev (fuel : nat) (n : N) : list N :=
  match fuel with
  | O => []
  | S fuel' =>
      if n <? 10 then [n] else (n mod 10) :: digits_rev fuel' (n / 10)
  end.

(** Number.prototype.toString on a non-negative integer (below 10^21,
    where JavaScript switches to exponent notation): a number below 2^k
    has at most k decimal digits. *)
Definition toString (n : N) : jsstring :=
  List.map (fun d => 48 + d) (rev (digits_rev (S (N.to_nat (N.size n))) n)).

(** *** Exceptions *)

Inductive exn : Type :=
  | TypeError
  | StoreError (code : N).

Inductive result (A : Type) : Type :=
  | Ok (a : A)
  | Throw (e : exn).
Arguments Ok {A} a.
Arguments Throw {A} e.

Definition bind {A B} (m : result A) (k : A -> result B) : result B :=
  match m with
  | Ok a => k a
  | Throw e => Throw e
  end.

(** [try { body } catch (error) { handler }]. *)
Definition try_catch {A} (body : result A) (handler : exn -> result A)
  : result A :=
  match body with
  | Ok a => Ok a
  | Throw e => handler e
  end.

(** [xs.map(f)] where [f] may throw: stops at the first exception. *)
Fixpoint map_throwing {A B} (f : A -> result B) (xs : list A)
  : result (list B) :=
  match xs with
  | [] => Ok []
  | x :: xs' =>
      bind (f x) (fun y => bind (map_throwing f xs') (fun ys => Ok (y :: ys)))
  end.

End JS.
Export JS.

(* ===================================================================== *)
(** ** Regular expressions ([RegExp.prototype.test])                       *)
(* ===================================================================== *)

Module Regex.

(** The fragment of the pattern language the classifier uses: characters,
    [.], concatenation, alternation and [*]. [Void] matches nothing and
    only arises while matching. *)
Inductive regex : Type :=
  | Void
  | Eps
  | Chr (c : N)
  | Dot
  | Seq (r1 r2 : regex)
  | Alt (r1 r2 : regex)
  | Star (r : regex).

(** A literal run of characters. *)
Fixpoint chars (s : jsstring) : regex :=
  match s with
  | [] => Eps
  | [c] => Chr c
  | c :: s' => Seq (Chr c) (chars s')
  end.

Definition text (s : string) : regex := chars (lit s).

(** [.] matches any code unit but the line terminators. *)
Definition is_line_terminator (c : N) : bool :=
  existsb (N.eqb c) [10; 13; 8232; 8233].

(** Canonicalize of the [i] flag (no [u] flag): upper-casing, never from a
    code unit above 127 to one below 128. All pattern characters are
    ASCII, so only whether the canonical form of a subject code unit is a
    given ASCII code unit matters; code units above 127 stand for their own
    canonical form here, which is above 127 as well. *)
Definition canonicalize (c : N) : N :=
  if (97 <=? c) && (c <=? 122) then c - 32 else c.

Definition chr_match (p c : N) : bool := canonicalize p =? canonicalize c.

Fixpoint nullable (r : regex) : bool :=
  match r with
  | Void | Chr _ | Dot => false
  | Eps | Star _ => true
  | Seq r1 r2 => nullable r1 && nullable r2
  | Alt r1 r2 => nullable r1 || nullable r2
  end.

(** What is left of [r] to match once the code unit [c] has been read. *)
Fixpoint deriv (c : N) (r : regex) : regex :=
  match r with
  | Void | Eps => Void
  | Chr p => if chr_match p c then Eps else Void
  | Dot => if is_line_terminator c then Void else Eps
  | Seq r1 r2 =>
      if nullable r1 then Alt (Seq (deriv c r1) r2) (deriv c r2)
      else Seq (deriv c r1) r2
  | Alt r1 r2 => Alt (deriv c r1) (deriv c r2)
  | Star r1 => Seq (deriv c r1) (Star r1)
  end.

(** Does [r] match a prefix of [s]? *)
Fixpoint matches_prefix (r : regex) (s : jsstring) : bool :=
  nullable r ||
  match s with
  | [] => false
  | c :: s' => matches_prefix (deriv c r) s'
  end.

(** [pattern.test(s)] for a pattern without anchors, global or sticky
    flags: is there a match starting at some index of [s]? *)
Fixpoint test (r : regex) (s : jsstring) : bool :=
  matches_prefix r s ||
  match s with
  | [] => false
  | _ :: s' => test r s'
  end.

(** The words matched, for reference: [matches r w] when the whole of [w]
    is matched by [r] under the [i] flag. *)
Inductive matches : regex -> jsstring -> Prop :=
  | M_eps : matches Eps []
  | M_chr p c : chr_match p c = true -> matches (Chr p) [c]
  | M_dot c : is_line_terminator c = false -> matches Dot [c]
  | M_seq r1 r2 w1 w2 :
      matches r1 w1 -> matches r2 w2 -> matches (Seq r1 r2) (w1 ++ w2)
  | M_alt_l r1 r2 w : matches r1 w -> matches (Alt r1 r2) w
  | M_alt_r r1 r2 w : matches r2 w -> matches (Alt r1 r2) w
  | M_star_nil r : matches (Star r) []
  | M_star_cons r w1 w2 :
      matches r w1 -> matches (Star r) w2 -> matches (Star r) (w1 ++ w2).

End Regex.
Export Regex.

(* ===================================================================== *)
(** ** utils/knowledgeGraphService.js                                      *)
(* ===================================================================== *)

(** [String.prototype.toLowerCase] is a built-in over Unicode; the
    development is parametric in it and relies on one fact only: the empty
    string is mapped to itself. *)
Class StringBuiltins : Type := {
  toLowerCase : jsstring -> jsstring;
  toLowerCase_empty : toLowerCase [] = []
}.

Module KnowledgeGraph.

Inductive VisualizationType : Type :=
  | comparison
  | trend
  | sentiment
  | relationship.

Definition any : regex := Star Dot.

Fixpoint seqs (rs : list regex) : regex :=
  match rs with
  | [] => Eps
  | [r] => r
  | r :: rs' => Seq r (seqs rs')
  end.

(** The [patterns] object; [Object.entries] lists its keys in insertion
    order. *)
Definition patterns : list (VisualizationType * list regex) :=
  [ (comparison,
      [ (* /compare .* (with|to|against) .*/i *)
        seqs [text "compare "; any; text " ";
              Alt (text "with") (Alt (text "to") (text "against"));
              text " "; any];
        (* /difference between .* and .*/i *)
        seqs [text "difference between "; any; text " and "; any];
        (* /how does .* stack up .*/i *)
        seqs [text "how does "; any; text " stack up "; any];
        (* /versus|vs/i *)
        Alt (text "versus") (text "vs");
        (* /(better|worse) than/i *)
        seqs [Alt (text "better") (text "worse"); text " than"] ]);
    (trend,
      [ (* /evolution of .*/i *)
        seqs [text "evolution of "; any];
        (* /changes over time .*/i *)
        seqs [text "changes over time "; any];
        (* /history of .*/i *)
        seqs [text "history of "; any];
        (* /how has .* changed/i *)
        seqs [text "how has "; any; text " changed"];
        (* /timeline/i *)
        text "timeline";
        (* /development/i *)
        text "development" ]);
    (sentiment,
      [ (* /what do (people|owners|users|customers) think/i *)
        seqs [text "what do ";
              Alt (text "people")
                (Alt (text "owners") (Alt (text "users") (text "customers")));
              text " think"];
        (* /reviews/i *)
        text "reviews";
        (* /sentiment/i *)
        text "sentiment";
        (* /opinion/i *)
        text "opinion";
        (* /like|dislike/i *)
        Alt (text "like") (text "dislike");
        (* /positive|negative/i *)
        Alt (text "positive") (text "negative");
        (* /feedback/i *)
        text "feedback" ]);
    (relationship,
      [ (* /related to/i *)
        text "related to";
        (* /connections between/i *)
        text "connections between";
        (* /relationship with/i *)
        text "relationship with";
        (* /similar (to|models)/i *)
        seqs [text "similar "; Alt (text "to") (text "models")];
        (* /family tree/i *)
        text "family tree";
        (* /predecessors|successors/i *)
        Alt (text "predecessors") (text "successors") ]) ].

Definition featureTerms : list jsstring :=
  List.map lit
    [ "performance"; "safety"; "reliability"; "comfort";
      "fuel economy"; "technology"; "value"; "styling" ]%string.

(** [typePatterns.some(pattern => pattern.test(lowerQuery))]. *)
Definition some_pattern_matches (typePatterns : list regex)
    (lowerQuery : jsstring) : bool :=
  existsb (fun pattern => test pattern lowerQuery) typePatterns.

(** The [for ... of Object.entries(patterns)] loop with its early return. *)
Fixpoint first_matching_type (entries : list (VisualizationType * list regex))
    (lowerQuery : jsstring) : option VisualizationType :=
  match entries with
  | [] => None
  | (type, typePatterns) :: rest =>
      if some_pattern_matches typePatterns lowerQuery then Some type
      else first_matching_type rest lowerQuery
  end.

Section Classifier.
Context `{StringBuiltins}.

(** [determineVisualizationType(query)]; [None] is [null]. *)
Definition determineVisualizationType (query : jsval)
  : option VisualizationType :=
  match query with
  | JStr q =>
      if negb (truthy query) then None
      else
        let lowerQuery := toLowerCase q in
        match first_matching_type patterns lowerQuery with
        | Some type => Some type
        | None =>
            if existsb (fun term => includes lowerQuery term) featureTerms
            then
              if includes lowerQuery (lit "compare")
                 || includes lowerQuery (lit "other")
              then Some comparison
              else if includes lowerQuery (lit "history")
                      || includes lowerQuery (lit "improved")
              then Some trend
              else Some sentiment
            else None
        end
  | _ => None
  end.

End Classifier.

(** A lower-casing to run the classifier with: ASCII letters only. *)
Definition lower_ascii (c : N) : N :=
  if (65 <=? c) && (c <=? 90) then c + 32 else c.

Definition ascii_builtins : StringBuiltins :=
  {| toLowerCase := List.map lower_ascii;
     toLowerCase_empty := eq_refl |}.

(** *** Rows of the store *)

Record TargetCar : Type := {
  tc_id : N;
  tc_manufacturer : jsstring;
  tc_model : jsstring;
  tc_year : N;
  tc_body_type : jsstring
}.

(** A row of [car_relationships] with its joined [target_cars]. *)
Record RelationshipRow : Type := {
  rr_id : N;
  relationship_type : jsstring;
  relationship_strength : jsnum;
  rr_metadata : jsval;
  target_cars : option TargetCar
}.

Record FeatureRow : Type := {
  fr_car_id : N;
  category : jsstring;
  feature_name : jsstring;
  feature_rating : jsval;
  feature_value : jsval
}.

Record TimelineRow : Type := {
  tl_car_id : N;
  year : N;
  event_type : jsstring;
  significance_score : jsval
}.

Record SentimentRow : Type := {
  sr_aspect : jsstring;
  positive_count : N;
  negative_count : N;
  neutral_count : N;
  key_positive_terms : option (list jsstring);
  key_negative_terms : option (list jsstring)
}.

(** What [await supabase.from(...)...] gives: the promise rejects, or it
    resolves to [{ data, error }], each possibly [null]. *)
Inductive outcome (Row : Type) : Type :=
  | Rejected (e : exn)
  | Resolved (data : option (list Row)) (error : option exn).
Arguments Rejected {Row} e.
Arguments Resolved {Row} data error.

(** The client: one read per table, keyed as the code queries it. *)
Record Supabase : Type := {
  car_relationships : N -> outcome RelationshipRow;
  car_features : list N -> outcome FeatureRow;
  car_timeline : N -> outcome TimelineRow;
  review_analysis : N -> outcome SentimentRow
}.

(** [const { data, error } = await ...; if (error) throw error;] then the
    rest of the [try] body on [data]. *)
Definition with_data {Row A} (o : outcome Row)
    (k : option (list Row) -> result A) : result A :=
  match o with
  | Rejected e => Throw e
  | Resolved data error =>
      match error with
      | Some e => Throw e
      | None => k data
      end
  end.

(** Calling an array method on [data]: a TypeError when it is [null]. *)
Definition as_array {Row} (data : option (list Row)) : result (list Row) :=
  match data with
  | Some rows => Ok rows
  | None => Throw TypeError
  end.

(** [`${year} ${manufacturer} ${model}`] *)
Definition display_name (y : N) (manufacturer model : jsstring) : jsstring :=
  toString y ++ lit " " ++ manufacturer ++ lit " " ++ model.

(** *** getCarRelationships *)

Record Related : Type := {
  related_id : N;
  label : jsstring;
  type : jsstring;
  strength : jsnum;
  metadata : jsval
}.

Definition format_relationship (rel : RelationshipRow) : result Related :=
  match target_cars rel with
  | None => Throw TypeError
  | Some target =>
      Ok {| related_id := tc_id target;
            label := display_name (tc_year target) (tc_manufacturer target)
                       (tc_model target);
            type := relationship_type rel;
            strength := relationship_strength rel;
            metadata := rr_metadata rel |}
  end.

Definition getCarRelationships (supabase : Supabase) (carId : N)
  : result (list Related) :=
  try_catch
    (with_data (car_relationships supabase carId) (fun data =>
       bind (as_array data) (fun relationships =>
         map_throwing format_relationship relationships)))
    (fun _ => Ok []).

(** *** getCarFeatures *)

(** car id -> category -> feature name -> rating or value. *)
Abbreviation FeatureTable := (gmap jsstring jsval).
Abbreviation CategoryTable := (gmap jsstring (gmap jsstring jsval)).
Abbreviation Features := (gmap N (gmap jsstring (gmap jsstring jsval))).

(** The [reduce] that fills one category's object. *)
Definition collect_features (feats : list FeatureRow) : FeatureTable :=
  List.fold_left
    (fun acc feat =>
       <[feature_name feat := or_else (feature_rating feat) (feature_value feat)]>
         acc)
    feats ∅.

(** The body of [carIds.forEach], on the object [result[id]]. *)
Definition group_car_features (features : list FeatureRow) (id : N)
  : CategoryTable :=
  let carFeatures := List.filter (fun f => fr_car_id f =? id) features in
  let categories := dedupe str_eqb (List.map category carFeatures) in
  List.fold_left
    (fun entry cat =>
       <[cat := collect_features
                  (List.filter (fun f => str_eqb (category f) cat) carFeatures)]>
         entry)
    categories ∅.

Fixpoint for_each_car (features : option (list FeatureRow)) (carIds : list N)
    (result : Features) : JS.result Features :=
  match carIds with
  | [] => Ok result
  | id :: rest =>
      bind (as_array features) (fun rows =>
        for_each_car features rest (<[id := group_car_features rows id]> result))
  end.

Definition getCarFeatures (supabase : Supabase) (carIds : list N)
  : result Features :=
  try_catch
    (with_data (car_features supabase carIds) (fun features =>
       for_each_car features carIds ∅))
    (fun _ => Ok ∅).

(** *** getCarTimeline *)

(** [return events;] hands [data] back untouched, so a [null] data with no
    error comes back as [null] ([None]). *)
Definition getCarTimeline (supabase : Supabase) (carId : N)
  : result (option (list TimelineRow)) :=
  try_catch
    (with_data (car_timeline supabase carId) (fun events => Ok events))
    (fun _ => Ok (Some [])).

(** *** getReviewSentiment *)

Record KeyTerms : Type := {
  kt_positive : list jsstring;
  kt_negative : list jsstring
}.

Record AspectSentiment : Type := {
  aspect : jsstring;
  positive : jsnum;
  negative : jsnum;
  neutral : jsnum;
  key_terms : KeyTerms
}.

(** [item.positive_count + item.negative_count + item.neutral_count] *)
Definition total_count (item : SentimentRow) : jsnum :=
  Double.add
    (Double.add (Double.of_N (positive_count item))
                (Double.of_N (negative_count item)))
    (Double.of_N (neutral_count item)).

(** [Math.round((count / (positive_count + negative_count + neutral_count))
    * 100) || 0] *)
Definition percentage (count : N) (item : SentimentRow) : jsnum :=
  num_or_zero
    (Math_round
       (Double.mul (Double.div (Double.of_N count) (total_count item))
                   (Fin 100))).

(** [terms || []] *)
Definition or_empty (terms : option (list jsstring)) : list jsstring :=
  match terms with
  | Some l => l
  | None => []
  end.

Definition format_sentiment (item : SentimentRow) : AspectSentiment :=
  {| aspect := sr_aspect item;
     positive := percentage (positive_count item) item;
     negative := percentage (negative_count item) item;
     neutral := percentage (neutral_count item) item;
     key_terms := {| kt_positive := or_empty (key_positive_terms item);
                     kt_negative := or_empty (key_negative_terms item) |} |}.

Definition getReviewSentiment (supabase : Supabase) (carId : N)
  : result (list AspectSentiment) :=
  try_catch
    (with_data (review_analysis supabase carId) (fun data =>
       bind (as_array data) (fun sentiment =>
         Ok (List.map format_sentiment sentiment))))
    (fun _ => Ok []).

(** *** generateVisualizationData *)

(** The vehicle handed to the shaper ([carData]). *)
Record Car : Type := {
  car_id : N;
  car_year : N;
  manufacturer : jsstring;
  model : jsstring
}.

Definition car_name (carData : Car) : jsstring :=
  display_name (car_year carData) (manufacturer carData) (model carData).

Record Entity : Type := {
  entity_id : N;
  entity_name : jsstring;
  color : jsstring
}.

Record Point : Type := {
  point_label : jsstring;
  Safety : jsval;
  Performance : jsval;
  Technology : jsval
}.

Record Series : Type := {
  key : jsstring;
  series_name : jsstring;
  series_color : jsstring
}.

Record PrimaryNode : Type := {
  primary_id : N;
  primary_label : jsstring
}.

Record Node : Type := {
  node_id : N;
  node_label : jsstring;
  node_type : jsstring
}.

Record Link : Type := {
  source : N;
  target : N;
  link_type : jsstring;
  link_strength : jsnum
}.

Inductive Payload : Type :=
  | ComparisonPayload (categories : list jsstring) (entities : list Entity)
      (values : list (list jsval))
  | TrendPayload (timeSeriesData : list Point) (series : list Series)
      (yDomain : N * N)
  | SentimentPayload (aspectData : list AspectSentiment)
  | RelationshipPayload (primaryNode : PrimaryNode) (nodes : list Node)
      (links : list Link)
  | EmptyPayload.

(** Code that may throw and may call [Math.random()]: [random i] is the
    i-th draw, the state is the number of draws made so far. *)
Section Shaping.
Variable supabase : Supabase.
Variable random : nat -> Q.

Definition M (A : Type) : Type := nat -> result A * nat.

Definition ret {A} (a : A) : M A := fun i => (Ok a, i).

Definition throw {A} (e : exn) : M A := fun i => (Throw e, i).

Definition bindM {A B} (m : M A) (k : A -> M B) : M B :=
  fun i =>
    match m i with
    | (Ok a, i') => k a i'
    | (Throw e, i') => (Throw e, i')
    end.

Definition lift {A} (r : result A) : M A := fun i => (r, i).

Definition Math_random : M Q := fun i => (Ok (random i), S i).

Fixpoint mapM {A B} (f : A -> M B) (xs : list A) : M (list B) :=
  match xs with
  | [] => ret []
  | x :: xs' =>
      bindM (f x) (fun y => bindM (mapM f xs') (fun ys => ret (y :: ys)))
  end.

Definition categories : list jsstring :=
  List.map lit ["Performance"; "Comfort"; "Safety"; "Technology"; "Value"]%string.

(** [features[id][cat]?.overall || Math.random() * 2 + 3]: reading [cat]
    off an absent [features[id]] is a TypeError; the draw is made only when
    the left operand is falsy. *)
Definition category_value (features : Features) (id : N) (cat : jsstring)
  : M jsval :=
  match features !! id with
  | None => throw TypeError
  | Some entry =>
      let overall :=
        match entry !! cat with
        | None => JUndefined
        | Some table =>
            match table !! lit "overall" with
            | Some v => v
            | None => JUndefined
            end
        end in
      if truthy overall then ret overall
      else bindM Math_random (fun r => ret (JNum (Fin (r * 2 + 3)%Q)))
  end.

Definition competitor_entity (index : nat) (comp : Related) : Entity :=
  {| entity_id := related_id comp;
     entity_name := label comp;
     color := match index with
              | O => lit "#82ca9d"
              | _ => lit "#ffc658"
              end |}.

(** [xs.map((x, index) => f(index, x))] *)
Fixpoint mapi_from {A B} (i : nat) (f : nat -> A -> B) (xs : list A) : list B :=
  match xs with
  | [] => []
  | x :: xs' => f i x :: mapi_from (S i) f xs'
  end.

Definition shape_comparison (carData : Car) : M Payload :=
  bindM (lift (getCarRelationships supabase (car_id carData)))
    (fun relationships =>
  let competitors :=
    firstn 2 (List.filter (fun rel => str_eqb (type rel) (lit "competitor"))
                relationships) in
  let carIds := car_id carData :: List.map related_id competitors in
  bindM (lift (getCarFeatures supabase carIds)) (fun features =>
  let entities :=
    {| entity_id := car_id carData;
       entity_name := car_name carData;
       color := lit "#8884d8" |}
    :: mapi_from 0 competitor_entity competitors in
  bindM (mapM (category_value features (car_id carData)) categories)
    (fun own =>
  bindM (mapM (fun comp =>
                 mapM (category_value features (related_id comp)) categories)
           competitors)
    (fun others =>
  ret (ComparisonPayload categories entities (own :: others)))))).

(** [yearEvents.find(e => e.event_type === t)?.significance_score || null] *)
Definition series_value (yearEvents : list TimelineRow) (t : jsstring)
  : jsval :=
  or_else
    match find (fun e => str_eqb (event_type e) t) yearEvents with
    | Some e => significance_score e
    | None => JUndefined
    end
    JNull.

Definition year_point (timelineData : list TimelineRow) (y : N) : Point :=
  let yearEvents := List.filter (fun item => year item =? y) timelineData in
  {| point_label := toString y;
     Safety := series_value yearEvents (lit "safety");
     Performance := series_value yearEvents (lit "performance");
     Technology := series_value yearEvents (lit "technology") |}.

(** [[...new Set(timelineData.map(item => item.year))].sort()]: without a
    comparator, [sort] orders the elements by their strings. *)
Definition sorted_years (timelineData : list TimelineRow) : list N :=
  sort_by (fun a b => str_lt (toString a) (toString b))
    (dedupe N.eqb (List.map year timelineData)).

Definition trend_series : list Series :=
  [ {| key := lit "Safety"; series_name := lit "Safety Rating";
       series_color := lit "#8884d8" |};
    {| key := lit "Performance"; series_name := lit "Performance Rating";
       series_color := lit "#82ca9d" |};
    {| key := lit "Technology"; series_name := lit "Technology Rating";
       series_color := lit "#ffc658" |} ].

(** The [trend] payload built from the fetched events. *)
Definition trend_payload (timelineData : list TimelineRow) : Payload :=
  TrendPayload
    (List.map (year_point timelineData) (sorted_years timelineData))
    trend_series
    (0, 5).

Definition shape_trend (carData : Car) : M Payload :=
  bindM (lift (getCarTimeline supabase (car_id carData))) (fun data =>
  bindM (lift (as_array data)) (fun timelineData =>
  ret (trend_payload timelineData))).

(** [(a, b) => (b.positive + b.negative) - (a.positive + a.negative)]:
    negative when [a] goes first. *)
Definition by_mentions (a b : AspectSentiment) : jsnum :=
  sub (add (positive b) (negative b)) (add (positive a) (negative a)).

Definition shape_sentiment (carData : Car) : M Payload :=
  bindM (lift (getReviewSentiment supabase (car_id carData)))
    (fun sentimentData =>
  ret (SentimentPayload
         (firstn 7
            (sort_by (fun a b => is_negative (by_mentions a b)) sentimentData)))).

(** The [relationship] payload built from the fetched relationships. *)
Definition relationship_payload (carData : Car) (allRelationships : list Related)
  : Payload :=
  RelationshipPayload
    {| primary_id := car_id carData; primary_label := car_name carData |}
    ({| node_id := car_id carData;
        node_label := car_name carData;
        node_type := lit "primary" |}
     :: List.map (fun rel => {| node_id := related_id rel;
                                node_label := label rel;
                                node_type := type rel |})
          allRelationships)
    (List.map (fun rel => {| source := car_id carData;
                             target := related_id rel;
                             link_type := type rel;
                             link_strength := strength rel |})
       allRelationships).

Definition shape_relationship (carData : Car) : M Payload :=
  bindM (lift (getCarRelationships supabase (car_id carData)))
    (fun allRelationships =>
  ret (relationship_payload carData allRelationships)).

(** [generateVisualizationData(type, carData)]; a [type] that is none of
    the four strings, [null] included, is [None] here and takes the
    [default] branch. *)
Definition generateVisualizationData (type : option VisualizationType)
    (carData : Car) : M Payload :=
  match type with
  | Some comparison => shape_comparison carData
  | Some trend => shape_trend carData
  | Some sentiment => shape_sentiment carData
  | Some relationship => shape_relationship carData
  | None => ret EmptyPayload
  end.

End Shaping.

End KnowledgeGraph.

(* ===================================================================== *)
(** ** EnhancedChatInterface                                               *)
(* ===================================================================== *)

Module Chat.
Import KnowledgeGraph.

Inductive Sender : Type :=
  | user
  | ai.

Definition sender_eqb (a b : Sender) : bool :=
  match a, b with
  | user, user | ai, ai => true
  | _, _ => false
  end.

(** [data.analysis] of a chat reply; absent fields are [None], and
    [average_rating] is kept as the raw value the truthiness test sees. *)
Record Analysis : Type := {
  category_scores : option (list (jsstring * jsval));
  common_pros : option (list jsstring);
  common_cons : option (list jsstring);
  sentiment_counts : option (list (jsstring * jsnum));
  average_rating : jsval
}.

Record ChatResponse : Type := {
  response : jsstring;
  car_data : option Car;
  analysis : option Analysis;
  primaryIntent : option jsstring   (* data.intent?.primaryIntent *)
}.

(** How the [try] block of [handleSend] ends: [fetch] rejects, the reply is
    not [ok], its body is not JSON, or the reply is parsed. *)
Inductive ChatOutcome : Type :=
  | FetchRejected
  | NotOk (status : N)
  | BadJson
  | Replied (data : ChatResponse).

Inductive Component : Type :=
  | specification (data : Car)
  | category_scores_card (data : list (jsstring * jsval))
  | pros_cons (pros cons : list jsstring)
  | sentiment_card (data : list (jsstring * jsnum))
  | rating (rating : jsval) (reviewCount : jsnum).

(** A chat message; a field the object literal leaves out is [None] (or
    [false] for the two flags, which are only ever tested for truth). *)
Record Message : Type := {
  text : jsstring;
  sender : Sender;
  components : option (list Component);
  suggestions : option (list jsstring);
  error : bool;
  showRetry : bool;
  carName : option jsstring
}.

Record ErrorState : Type := {
  hasError : bool;
  retryCount : N
}.

(** The component's state, with the callbacks handed to [setTimeout] that
    have not run yet (delay in ms, message they append). *)
Record State : Type := {
  messages : list Message;
  input : jsstring;
  loading : bool;
  showSuggestions : bool;
  carData : option Car;
  typingEffect : bool;
  currentTypingText : jsstring;
  fullResponseText : jsstring;
  errorState : ErrorState;
  timers : list (N * Message)
}.

Definition plain_message (t : jsstring) (s : Sender) : Message :=
  {| text := t; sender := s; components := None; suggestions := None;
     error := false; showRetry := false; carName := None |}.

(** *** generateSuggestions *)

Definition generateSuggestions (carData : option Car) (intent : option jsstring)
    (conversationLength : nat) : list jsstring :=
  match carData with
  | None =>
      List.map lit
        [ "What cars do you recommend?";
          "Tell me about SUVs";
          "What are the most fuel-efficient cars?";
          "What should I look for when buying a used car?";
          "What are the safest family vehicles?" ]%string
  | Some carData =>
      let carName := car_name carData in
      if (conversationLength <=? 2)%nat then
        [ lit "What's the fuel economy like for the " ++ carName ++ lit "?";
          lit "Tell me about the engine in the " ++ carName;
          lit "How comfortable is the " ++ carName ++ lit "?";
          lit "What are the safety features in the " ++ carName ++ lit "?";
          lit "Is the " ++ carName ++ lit " reliable?" ]
      else
        let intent_is i :=
          match intent with
          | Some s => str_eqb s (lit i)
          | None => false
          end in
        if intent_is "fuel_economy"%string then
          [ lit "How does the " ++ carName
              ++ lit "'s fuel economy compare to competitors?";
            lit "What's the driving range of the " ++ carName ++ lit "?";
            lit "Does the " ++ carName ++ lit " require premium fuel?";
            lit "Are there any fuel-saving features in the " ++ carName
              ++ lit "?" ]
        else if intent_is "performance"%string then
          [ lit "What's the horsepower of the " ++ carName ++ lit "?";
            lit "How does the " ++ carName
              ++ lit " handle in different conditions?";
            lit "What's the 0-60 time for the " ++ carName ++ lit "?";
            lit "How is the braking performance of the " ++ carName ++ lit "?" ]
        else if intent_is "reliability"%string then
          [ lit "What are common issues with the " ++ carName ++ lit "?";
            lit "How long do " ++ manufacturer carData
              ++ lit " vehicles typically last?";
            lit "What's the warranty coverage for the " ++ carName ++ lit "?";
            lit "Is the " ++ carName ++ lit " expensive to maintain?" ]
        else if intent_is "safety"%string then
          [ lit "What safety ratings does the " ++ carName ++ lit " have?";
            lit "Does the " ++ carName
              ++ lit " have advanced driver assistance?";
            lit "How many airbags does the " ++ carName ++ lit " have?";
            lit "Is the " ++ carName ++ lit " a good family vehicle?" ]
        else
          [ lit "How does the " ++ carName
              ++ lit " compare to similar vehicles?";
            lit "What are owners saying about the " ++ carName ++ lit "?";
            lit "What are the pros and cons of the " ++ carName ++ lit "?";
            lit "Would you recommend the " ++ carName ++ lit "?" ]
  end.

(** *** handleSend: the success path *)

Definition user_messages (ms : list Message) : list Message :=
  List.filter (fun m => sender_eqb (sender m) user) ms.

(** [xs && xs.length > 0] *)
Definition non_empty {A} (xs : option (list A)) : bool :=
  match xs with
  | Some (_ :: _) => true
  | _ => false
  end.

Definition or_nil {A} (xs : option (list A)) : list A :=
  match xs with
  | Some l => l
  | None => []
  end.

(** [data.analysis.sentiment ?
      Object.values(data.analysis.sentiment).reduce((a, b) => a + b, 0) : 0] *)
Definition review_count (a : Analysis) : jsnum :=
  match sentiment_counts a with
  | Some s => List.fold_left add (List.map snd s) (Fin 0)
  | None => Fin 0
  end.

(** The cards pushed onto [aiResponse.components], in order;
    [early] is [messages.length <= 2]. *)
Definition spec_card (data : ChatResponse) (early : bool) : list Component :=
  match car_data data with
  | Some car => if early then [specification car] else []
  | None => []
  end.

Definition scores_card (a : Analysis) : list Component :=
  if non_empty (category_scores a)
  then [category_scores_card (or_nil (category_scores a))] else [].

Definition pros_cons_card (a : Analysis) : list Component :=
  if non_empty (common_pros a) || non_empty (common_cons a)
  then [pros_cons (or_nil (common_pros a)) (or_nil (common_cons a))] else [].

Definition sentiment_component (a : Analysis) : list Component :=
  match sentiment_counts a with
  | Some s => [sentiment_card s]
  | None => []
  end.

Definition rating_card (a : Analysis) : list Component :=
  if truthy (average_rating a)
  then [rating (average_rating a) (review_count a)] else [].

Definition build_components (data : ChatResponse) (early : bool)
  : list Component :=
  match analysis data with
  | Some a =>
      spec_card data early ++ scores_card a ++ pros_cons_card a
        ++ sentiment_component a ++ rating_card a
  | None => spec_card data early
  end.

(** The [aiResponse] object as it is appended: its text is filled in by
    the typing effect later. *)
Definition ai_response (ms : list Message) (data : ChatResponse) : Message :=
  {| text := [];
     sender := ai;
     components := Some (build_components data (length ms <=? 2)%nat);
     suggestions :=
       Some (generateSuggestions (car_data data) (primaryIntent data)
               (length (user_messages ms)));
     error := false;
     showRetry := false;
     carName := None |}.

(** *** handleSend: the [catch] block *)

Definition error_text (newRetryCount : N) : jsstring :=
  if newRetryCount =? 1 then
    lit "I'm having trouble accessing information about this vehicle. Let me try again..."
  else if newRetryCount =? 2 then
    lit "I apologize for the difficulty. My connection to the vehicle database seems unstable right now."
  else
    lit "I'm very sorry, but I'm unable to connect to our automotive database at the moment. I can still chat about general car topics or answer basic questions about this model based on what I already know.".

Definition error_message (newRetryCount : N) (carData : option Car) : Message :=
  {| text := error_text newRetryCount;
     sender := ai;
     components := None;
     suggestions := None;
     error := true;
     showRetry := newRetryCount <? 3;
     carName := option_map car_name carData |}.

Definition fallback_message (car : Car) : Message :=
  {| text := lit "I can still tell you general information about the "
               ++ car_name car
               ++ lit " based on my automotive knowledge. What would you like to know?";
     sender := ai;
     components := None;
     suggestions :=
       Some (List.map lit
               [ "Tell me about this car model";
                 "What's this car known for?";
                 "Common issues with this model";
                 "What should I look for when buying?" ]%string);
     error := false;
     showRetry := false;
     carName := None |}.

(** The timers the [catch] block sets:
    [if (newRetryCount >= 3 && carData) setTimeout(..., 1000)]. *)
Definition fallback_timers (newRetryCount : N) (carData : option Car)
  : list (N * Message) :=
  match carData with
  | Some car => if 3 <=? newRetryCount then [(1000, fallback_message car)] else []
  | None => []
  end.

(** *** handleSend *)

(** [handleSend(messageText)] run to completion against the given outcome
    of the chat request, nothing else happening in between. The values the
    closure reads ([messages], [errorState], [carData]) are those of the
    state the call starts from. (Module [Session] below splits the call at
    [await fetch] and lets other events come in between.) *)
Definition handleSend (st : State) (messageText : jsstring)
    (reply : ChatOutcome) : State :=
  if negb (truthy (JStr (trim messageText))) then st
  else
    let sent := messages st ++ [plain_message messageText user] in
    match reply with
    | Replied data =>
        {| messages := sent ++ [ai_response (messages st) data];
           input := [];
           loading := false;
           showSuggestions := false;
           carData := carData st;
           typingEffect := true;
           currentTypingText := [];
           fullResponseText := response data;
           errorState := {| hasError := false; retryCount := 0 |};
           timers := timers st |}
    | _ =>
        let newRetryCount := retryCount (errorState st) + 1 in
        {| messages := sent ++ [error_message newRetryCount (carData st)];
           input := [];
           loading := false;
           showSuggestions := false;
           carData := carData st;
           typingEffect := typingEffect st;
           currentTypingText := currentTypingText st;
           fullResponseText := fullResponseText st;
           errorState := {| hasError := true; retryCount := newRetryCount |};
           timers := timers st ++ fallback_timers newRetryCount (carData st) |}
    end.

(** The pending [setTimeout] callbacks run, in the order they were set. *)
Definition run_timers (st : State) : State :=
  {| messages := messages st ++ List.map snd (timers st);
     input := input st;
     loading := loading st;
     showSuggestions := showSuggestions st;
     carData := carData st;
     typingEffect := typingEffect st;
     currentTypingText := currentTypingText st;
     fullResponseText := fullResponseText st;
     errorState := errorState st;
     timers := [] |}.

(** [handleRetry()]: sends the last user message again, if there is one. *)
Definition handleRetry (st : State) (reply : ChatOutcome) : State :=
  match rev (user_messages (messages st)) with
  | lastUserMessage :: _ => handleSend st (text lastUserMessage) reply
  | [] => st
  end.

End Chat.

(* ===================================================================== *)
(** ** The stated behaviour, in the words of the specification             *)
(* ===================================================================== *)

Module Spec.
Import KnowledgeGraph Chat.

(** The priority order of the four pattern groups. *)
Definition priority : list VisualizationType :=
  [comparison; trend; sentiment; relationship].

Definition VisualizationType_eqb (a b : VisualizationType) : bool :=
  match a, b with
  | comparison, comparison | trend, trend
  | sentiment, sentiment | relationship, relationship => true
  | _, _ => false
  end.

(** The patterns filed under a group in the [patterns] object. *)
Definition group_patterns (g : VisualizationType) : list regex :=
  match List.find (fun e => VisualizationType_eqb (fst e) g) patterns with
  | Some e => snd e
  | None => []
  end.

(** A query matches a group when one of the group's patterns matches the
    lower-cased query. *)
Definition matches_group `{StringBuiltins} (g : VisualizationType)
    (q : jsstring) : bool :=
  existsb (fun pattern => test pattern (toLowerCase q)) (group_patterns g).

(** [t] occurs in [s]. *)
Definition substring (t s : jsstring) : Prop :=
  exists pre post, s = pre ++ t ++ post.

(** *** Knowledge fetchers *)

(** The query failed: the promise rejected, or it resolved with an
    [error]. *)
Definition failed {Row} (o : outcome Row) : Prop :=
  match o with
  | Rejected _ => True
  | Resolved _ (Some _) => True
  | Resolved _ None => False
  end.

(** A sentiment aggregate with zero total mentions. *)
Definition no_mentions (item : SentimentRow) : Prop :=
  positive_count item = 0 /\ negative_count item = 0 /\ neutral_count item = 0.

(** The three percentages are integers whose sum is at most [bound]. *)
Definition percentages_sum_at_most (bound : Z) (o : AspectSentiment) : Prop :=
  exists a b c : Z,
    positive o = Fin (inject_Z a) /\ negative o = Fin (inject_Z b)
    /\ neutral o = Fin (inject_Z c) /\ (a + b + c <= bound)%Z.

(** *** Trend shaping *)

(** The first event of year [y] and type [t], in the order fetched. *)
Definition first_event (events : list TimelineRow) (y : N) (t : jsstring)
  : option TimelineRow :=
  List.find (fun e => (year e =? y) && str_eqb (event_type e) t) events.

(** What a series cell holds, given the first event of its year and type:
    [null] without such an event, the event's score when that is truthy. *)
Definition cell_of_first (cell : jsval) (first : option TimelineRow) : Prop :=
  match first with
  | None => cell = JNull
  | Some e => truthy (significance_score e) = true -> cell = significance_score e
  end.

(** [a < b] on scores that are finite numbers. *)
Definition score_lt (a b : jsval) : bool :=
  match a, b with
  | JNum (Fin x), JNum (Fin y) =>
      match (x ?= y)%Q with
      | Lt => true
      | _ => false
      end
  | _, _ => false
  end.

(** The highest of the scores, [null] when there is none. *)
Fixpoint highest_score (scores : list jsval) : jsval :=
  match scores with
  | [] => JNull
  | s :: rest =>
      match rest with
      | [] => s
      | _ => if score_lt s (highest_score rest) then highest_score rest else s
      end
  end.

(** The score of the most significant event of year [y] and type [t]. *)
Definition most_significant_score (events : list TimelineRow) (y : N)
    (t : jsstring) : jsval :=
  highest_score
    (List.map significance_score
       (List.filter (fun e => (year e =? y) && str_eqb (event_type e) t) events)).

(** Distinct years in ascending numeric order. *)
Definition ascending_years (events : list TimelineRow) : list N :=
  sort_by N.ltb (dedupe N.eqb (List.map year events)).

(** The time series as the specification words it: per year, the score of
    the most significant event of each series. *)
Definition most_significant_series (events : list TimelineRow) : list Point :=
  List.map
    (fun y => {| point_label := toString y;
                 Safety := most_significant_score events y (lit "safety");
                 Performance := most_significant_score events y (lit "performance");
                 Technology := most_significant_score events y (lit "technology") |})
    (ascending_years events).

(** All years print with the same number of digits. *)
Definition same_width (events : list TimelineRow) : Prop :=
  forall a b, In a events -> In b events ->
    List.length (toString (year a)) = List.length (toString (year b)).

Definition timeSeriesData_of (p : Payload) : list Point :=
  match p with
  | TrendPayload timeSeriesData _ _ => timeSeriesData
  | _ => []
  end.

(** The order a sort leaves between neighbours: the later one does not
    sort strictly before the earlier one. *)
Definition not_after {A} (before : A -> A -> bool) (a b : A) : Prop :=
  before b a = false.

(** *** Comparison shaping *)

(** What a cell of the value matrix holds when shaping succeeds: a truthy
    [overall] entry of the features table, or a placeholder made from a
    draw. *)
Definition rated_or_placeholder (random : nat -> Q) (features : Features)
    (id : N) (cat : jsstring) (v : jsval) : Prop :=
  (truthy v = true
   /\ exists entry table,
        features !! id = Some entry /\ entry !! cat = Some table
        /\ table !! lit "overall" = Some v)
  \/ exists k, v = JNum (Fin (random k * 2 + 3)%Q).

(** *** Chat *)

Definition is_failure (reply : ChatOutcome) : bool :=
  match reply with
  | Replied _ => false
  | _ => true
  end.

(** The three tiers of wording. *)
Definition tier_text (tier : N) : jsstring :=
  match tier with
  | 1 => lit "I'm having trouble accessing information about this vehicle. Let me try again..."
  | 2 => lit "I apologize for the difficulty. My connection to the vehicle database seems unstable right now."
  | _ => lit "I'm very sorry, but I'm unable to connect to our automotive database at the moment. I can still chat about general car topics or answer basic questions about this model based on what I already know."
  end.

(** The retry policy as the specification words it: once the retry count
    has reached 3, the failure appends the error message and then a
    message that offers suggestions. *)
Definition fallback_offered (st : State) (messageText : jsstring)
    (reply : ChatOutcome) : Prop :=
  let st' := run_timers (handleSend st messageText reply) in
  3 <= retryCount (errorState st') ->
  exists err extra,
    messages st' = messages st ++ [plain_message messageText user; err; extra]
    /\ suggestions extra <> None.

Definition is_rating (c : Component) : bool :=
  match c with
  | rating _ _ => true
  | _ => false
  end.

Definition has_rating_card (cs : list Component) : bool := existsb is_rating cs.

End Spec.

(** ** Decimal digits *)

Module Decimal.

(** Value of a digit list, least significant digit first. *)
Fixpoint value_le (ds : list N) : N :=
  match ds with
  | [] => 0
  | d :: ds' => d + 10 * value_le ds'
  end.

(** Value of a digit list, most significant digit first. *)
Definition value_be (ds : list N) : N :=
  List.fold_left (fun acc d => 10 * acc + d) ds 0.

(** The digits [toString] prints. *)
Definition digits (n : N) : list N :=
  rev (digits_rev (S (N.to_nat (N.size n))) n).

End Decimal.

(** ** Sample data *)

Module Samples.
Import KnowledgeGraph Chat.

Definition civic : Car :=
  {| car_id := 7; car_year := 2022; manufacturer := lit "Honda";
     model := lit "Civic" |}.

Definition corolla : TargetCar :=
  {| tc_id := 8; tc_manufacturer := lit "Toyota"; tc_model := lit "Corolla";
     tc_year := 2022; tc_body_type := lit "sedan" |}.

(** Every query fails, each in its own way. *)
Definition failing_store : Supabase :=
  {| car_relationships := fun _ => Rejected (StoreError 503);
     car_features := fun _ => Resolved None (Some (StoreError 42501));
     car_timeline := fun _ => Resolved (Some []) (Some (StoreError 500));
     review_analysis := fun _ => Rejected TypeError |}.

(** Relationships are served, the features query is refused. *)
Definition features_down : Supabase :=
  {| car_relationships := fun _ =>
       Resolved (Some [ {| rr_id := 1; relationship_type := lit "competitor";
                           relationship_strength := Fin (4 # 5);
                           rr_metadata := JNull;
                           target_cars := Some corolla |} ]) None;
     car_features := fun _ => Resolved None (Some (StoreError 503));
     car_timeline := fun _ => Resolved (Some []) None;
     review_analysis := fun _ => Resolved (Some []) None |}.

Definition unreviewed_row : SentimentRow :=
  {| sr_aspect := lit "Comfort"; positive_count := 0; negative_count := 0;
     neutral_count := 0; key_positive_terms := None; key_negative_terms := None |}.

Definition unreviewed_store : Supabase :=
  {| car_relationships := fun _ => Resolved (Some []) None;
     car_features := fun _ => Resolved (Some []) None;
     car_timeline := fun _ => Resolved (Some []) None;
     review_analysis := fun _ => Resolved (Some [unreviewed_row]) None |}.

(** One positive, one negative and six neutral mentions. *)
Definition row_1_1_6 : SentimentRow :=
  {| sr_aspect := lit "Comfort"; positive_count := 1; negative_count := 1;
     neutral_count := 6; key_positive_terms := None; key_negative_terms := None |}.

(** 29 positive mentions out of 200. *)
Definition row_29_0_171 : SentimentRow :=
  {| sr_aspect := lit "Comfort"; positive_count := 29; negative_count := 0;
     neutral_count := 171; key_positive_terms := None;
     key_negative_terms := None |}.

Definition event (y : N) (t : string) (score : Q) : TimelineRow :=
  {| tl_car_id := 7; year := y; event_type := lit t;
     significance_score := JNum (Fin score) |}.

Definition two_safety_events : list TimelineRow :=
  [event 2020 "safety" 2; event 2020 "safety" 4].

Definition model_years : list TimelineRow :=
  [event 2016 "safety" 3; event 2019 "technology" (9 # 2);
   event 2016 "performance" 4; event 2019 "safety" 0].

(** Every draw of [Math.random()] is 0.5. *)
Definition half : nat -> Q := fun _ => (1 # 2)%Q.

(** A session that has seen [failures] failed requests in a row. *)
Definition session (car : option Car) (failures : N) : State :=
  {| messages := []; input := []; loading := false; showSuggestions := true;
     carData := car; typingEffect := false; currentTypingText := [];
     fullResponseText := [];
     errorState := {| hasError := negb (failures =? 0); retryCount := failures |};
     timers := [] |}.

(** The same question failing [n] times in a row, the timers run after
    each failure; the first failure is a send, the later ones retries. *)
Fixpoint failures_in_a_row (n : nat) (st : State) : State :=
  match n with
  | O => st
  | S O => run_timers (handleSend st (lit "Is it reliable?") FetchRejected)
  | S n' => run_timers (handleRetry (failures_in_a_row n' st) FetchRejected)
  end.

(** A reply whose analysis carries an average rating of 0. *)
Definition unrated_analysis : Analysis :=
  {| category_scores := None; common_pros := Some [lit "Quiet cabin"];
     common_cons := None; sentiment_counts := None;
     average_rating := JNum (Fin 0) |}.

Definition unrated_reply : ChatResponse :=
  {| response := lit "It rides well."; car_data := Some civic;
     analysis := Some unrated_analysis; primaryIntent := None |}.

End Samples.

(* ===================================================================== *)
(** ** The chart components that consume the payloads                      *)
(* ===================================================================== *)

Module Charts.
Import KnowledgeGraph.

(** *** ComparisonChart: [formattedData] *)

(** One row of the radar chart: an object with the key [category] and one
    key per entity name. *)
Abbreviation RadarRow := (gmap jsstring jsval).

(** [row[index]]: [undefined] past the end of the array. *)
Definition at_index (row : list jsval) (index : nat) : jsval :=
  nth index row JUndefined.

(** [entities.forEach((entity, entityIndex) =>
      result[entity.name] = data.values[entityIndex][index])]:
    indexing the missing [data.values[entityIndex]] is a TypeError. *)
Fixpoint add_entity_values (entities : list Entity) (values : list (list jsval))
    (entityIndex index : nat) (result : RadarRow) : JS.result RadarRow :=
  match entities with
  | [] => Ok result
  | entity :: rest =>
      match nth_error values entityIndex with
      | None => Throw TypeError
      | Some row =>
          add_entity_values rest values (S entityIndex) index
            (<[entity_name entity := at_index row index]> result)
      end
  end.

(** [xs.map((x, index) => f(index, x))] where [f] may throw. *)
Fixpoint mapi_throwing {A B} (i : nat) (f : nat -> A -> JS.result B)
    (xs : list A) : JS.result (list B) :=
  match xs with
  | [] => Ok []
  | x :: xs' =>
      bind (f i x) (fun y =>
        bind (mapi_throwing (S i) f xs') (fun ys => Ok (y :: ys)))
  end.

(** [data.categories.map((category, index) => { const result = { category };
      ...; return result; })] *)
Definition formattedData (categories : list jsstring) (entities : list Entity)
    (values : list (list jsval)) : JS.result (list RadarRow) :=
  mapi_throwing 0
    (fun index category =>
       add_entity_values entities values 0 index
         {[ lit "category" := JStr category ]})
    categories.

(** What [ComparisonChart({ data, entities })] computes before rendering;
    VisualizationController passes [data.entities] for [entities]. A
    payload without [categories] makes [data.categories.map] a
    TypeError. *)
Definition ComparisonChart (data : Payload) : JS.result (list RadarRow) :=
  match data with
  | ComparisonPayload categories entities values =>
      formattedData categories entities values
  | _ => Throw TypeError
  end.

(** *** RelationshipGraph: the canvas effect *)

(** The fill colour of a related node, by relationship type. *)
Definition node_fill (type : jsstring) : jsstring :=
  if str_eqb type (lit "predecessor") then lit "#60a5fa"
  else if str_eqb type (lit "successor") then lit "#34d399"
  else if str_eqb type (lit "variant") then lit "#a78bfa"
  else if str_eqb type (lit "competitor") then lit "#f59e0b"
  else lit "#6b7280".

(** A related node as drawn: its label and its fill colour. *)
Record Satellite : Type := {
  drawn_label : jsstring;
  drawn_fill : jsstring
}.

(** The [for (let i = 0; i < nodeCount; i++)] loop from index [i] on,
    [remaining] iterations to go; it reads [data.nodes[i + 1]]. *)
Fixpoint draw_from (nodes : list Node) (i remaining : nat)
  : JS.result (list Satellite) :=
  match remaining with
  | O => Ok []
  | S remaining' =>
      match nth_error nodes (S i) with
      | None => Throw TypeError
      | Some nodeData =>
          bind (draw_from nodes (S i) remaining') (fun rest =>
            Ok ({| drawn_label := node_label nodeData;
                   drawn_fill := node_fill (node_type nodeData) |} :: rest))
      end
  end.

(** What the effect draws: nothing ([None]) when the payload has no
    [nodes] or no [links]; otherwise the primary node's label at the
    centre and the related nodes around it. [nodeCount] is
    [data.nodes.length - 1], so an empty node list runs no iteration. *)
Definition RelationshipGraph (data : Payload)
  : JS.result (option (jsstring * list Satellite)) :=
  match data with
  | RelationshipPayload primaryNode nodes links =>
      bind (draw_from nodes 0 (List.length nodes - 1)) (fun satellites =>
        Ok (Some (primary_label primaryNode, satellites)))
  | _ => Ok None
  end.

End Charts.

(* ===================================================================== *)
(** ** EnhancedChatInterface: the request and the typing effect            *)
(* ===================================================================== *)

Module Typing.
Import KnowledgeGraph Chat.

(** The body [handleSend] posts to /api/chat. *)
Record ChatRequest : Type := {
  message : jsstring;
  request_car_id : jsval;
  conversation_history : list jsstring
}.

Definition chat_request (carId : jsval) (st : State) (messageText : jsstring)
  : ChatRequest :=
  {| message := messageText;
     request_car_id := carId;
     conversation_history := List.map text (user_messages (messages st)) |}.

(** [newMessages[newMessages.length - 1].text = fullResponseText]: the
    text of the last message is replaced; there is no last message to
    write to in an empty list. *)
Fixpoint set_last_text (ms : list Message) (t : jsstring)
  : JS.result (list Message) :=
  match ms with
  | [] => Throw TypeError
  | [m] =>
      Ok [ {| text := t; sender := sender m; components := components m;
              suggestions := suggestions m; error := error m;
              showRetry := showRetry m; carName := carName m |} ]
  | m :: ms' => bind (set_last_text ms' t) (fun ms'' => Ok (m :: ms''))
  end.

(** One run of the typing effect together with the timer it sets.
    [step] is the number of characters revealed per timer (3 here; the
    two other chat components of the file use 5 and 1); the second
    component is the text handed to [onSpeakResponse], if any.
    [substring(0, n)] stops at the end of the string. *)
Definition typing_tick (step : nat) (speaks : bool) (st : State)
  : JS.result (State * option jsstring) :=
  if typingEffect st && truthy (JStr (fullResponseText st)) then
    if (List.length (currentTypingText st)
          <? List.length (fullResponseText st))%nat
    then
      Ok ({| messages := messages st;
             input := input st;
             loading := loading st;
             showSuggestions := showSuggestions st;
             carData := carData st;
             typingEffect := typingEffect st;
             currentTypingText :=
               firstn (List.length (currentTypingText st) + step)
                 (fullResponseText st);
             fullResponseText := fullResponseText st;
             errorState := errorState st;
             timers := timers st |}, None)
    else
      bind (set_last_text (messages st) (fullResponseText st))
        (fun newMessages =>
           Ok ({| messages := newMessages;
                  input := input st;
                  loading := loading st;
                  showSuggestions := showSuggestions st;
                  carData := carData st;
                  typingEffect := false;
                  currentTypingText := [];
                  fullResponseText := [];
                  errorState := errorState st;
                  timers := timers st |},
               if speaks then Some (fullResponseText st) else None))
  else Ok (st, None).

(** [n] runs of the effect in a row; the texts spoken are collected. *)
Fixpoint typing_ticks (step : nat) (speaks : bool) (n : nat) (st : State)
  : JS.result (State * list jsstring) :=
  match n with
  | O => Ok (st, [])
  | S n' =>
      bind (typing_tick step speaks st) (fun r =>
        bind (typing_ticks step speaks n' (fst r)) (fun r' =>
          Ok (fst r',
              match snd r with
              | Some t => t :: snd r'
              | None => snd r'
              end)))
  end.

End Typing.

(* ===================================================================== *)
(** ** Vocabulary for the properties of the remaining code                 *)
(* ===================================================================== *)

Module Behaviour.
Import KnowledgeGraph Chat Spec Charts Typing.

(** *** Knowledge fetchers *)

(** A fetched relationship is the formatted form of a store row. *)
Definition formats (row : RelationshipRow) (rel : Related) : Prop :=
  exists target,
    target_cars row = Some target
    /\ related_id rel = tc_id target
    /\ label rel = display_name (tc_year target) (tc_manufacturer target)
                     (tc_model target)
    /\ type rel = relationship_type row
    /\ strength rel = relationship_strength row
    /\ metadata rel = rr_metadata row.

(** The row that decides a feature: the last one of the car, category and
    feature name. *)
Definition deciding_row (rows : list FeatureRow) (id : N) (cat name : jsstring)
  : option FeatureRow :=
  List.find
    (fun f => (fr_car_id f =? id) && str_eqb (category f) cat
              && str_eqb (feature_name f) name)
    (rev rows).

(** [features[id][cat][name]], [None] when a key is missing on the way. *)
Definition feature_at (features : Features) (id : N) (cat name : jsstring)
  : option jsval :=
  match features !! id with
  | Some entry =>
      match entry !! cat with
      | Some table => table !! name
      | None => None
      end
  | None => None
  end.

(** The three percentages of an aspect are the integers [a], [b], [c]. *)
Definition has_percentages (o : AspectSentiment) (a b c : Z) : Prop :=
  positive o = Fin (inject_Z a) /\ negative o = Fin (inject_Z b)
  /\ neutral o = Fin (inject_Z c).

(** *** Shaping and charts *)

(** The figure sentiment shaping ranks by: [positive + negative]. *)
Definition mentioned_share (a : AspectSentiment) : jsnum :=
  add (positive a) (negative a).

(** [a]'s share is not below [b]'s: their difference is not negative. *)
Definition at_least_as_mentioned (a b : AspectSentiment) : Prop :=
  is_negative (sub (mentioned_share a) (mentioned_share b)) = false.

(** A related car as the graph draws it. *)
Definition drawn (rel : Related) : Satellite :=
  {| drawn_label := label rel; drawn_fill := node_fill (type rel) |}.

(** No entity after position [j] bears the name [name]. *)
Definition last_so_named (entities : list Entity) (j : nat) (name : jsstring)
  : Prop :=
  forall j' e', (j < j')%nat -> nth_error entities j' = Some e' ->
    entity_name e' <> name.

(** *** Chat *)

(** Nothing but white space. *)
Definition blank (s : jsstring) : Prop :=
  Forall (fun c => is_white_space c = true) s.

(** The position of a card in a reply. *)
Definition component_rank (c : Component) : nat :=
  match c with
  | specification _ => 0
  | category_scores_card _ => 1
  | pros_cons _ _ => 2
  | sentiment_card _ => 3
  | rating _ _ => 4
  end.

(** Several sends in a row, each run to completion, timers included. *)
Definition send_all (sends : list (jsstring * ChatOutcome)) (st : State)
  : State :=
  List.fold_left (fun st s => run_timers (handleSend st (fst s) (snd s)))
    sends st.

(** The number of failed requests since the last successful one, counting
    on from [count]. *)
Definition failures_since_success (count : N)
    (sends : list (jsstring * ChatOutcome)) : N :=
  List.fold_left (fun n s => if is_failure (snd s) then n + 1 else 0)
    sends count.

(** A message with its text replaced. *)
Definition with_text (m : Message) (t : jsstring) : Message :=
  {| text := t; sender := sender m; components := components m;
     suggestions := suggestions m; error := error m;
     showRetry := showRetry m; carName := carName m |}.

(** The state the typing effect ends in: the reply's text in the last
    message, the effect off and its buffers empty. *)
Definition typed_out (st : State) (earlier : list Message) (m : Message)
  : State :=
  {| messages := earlier ++ [with_text m (fullResponseText st)];
     input := input st;
     loading := loading st;
     showSuggestions := showSuggestions st;
     carData := carData st;
     typingEffect := false;
     currentTypingText := [];
     fullResponseText := [];
     errorState := errorState st;
     timers := timers st |}.

End Behaviour.

(** ** More sample data *)

Module MoreSamples.
Import KnowledgeGraph Chat Charts Typing Samples.

Definition accord : TargetCar :=
  {| tc_id := 9; tc_manufacturer := lit "Honda"; tc_model := lit "Accord";
     tc_year := 2021; tc_body_type := lit "sedan" |}.

Definition relation (n : N) (kind : string) (car : option TargetCar)
  : RelationshipRow :=
  {| rr_id := n; relationship_type := lit kind;
     relationship_strength := Fin (4 # 5); rr_metadata := JNull;
     target_cars := car |}.

Definition feature (car : N) (cat name : string) (rated value : jsval)
  : FeatureRow :=
  {| fr_car_id := car; category := lit cat; feature_name := lit name;
     feature_rating := rated; feature_value := value |}.

Definition feature_rows : list FeatureRow :=
  [ feature 7 "Performance" "overall" (JNum (Fin 3)) JNull;
    feature 8 "Performance" "overall" (JNum (Fin 4)) JNull;
    feature 7 "Comfort" "overall" (JNum (Fin 0)) (JStr (lit "n/a"));
    feature 7 "Performance" "overall" (JNum (Fin (9 # 2))) JNull;
    feature 5 "Value" "overall" (JNum (Fin 5)) JNull ].

Definition mentions (name : string) (p n u : N) : SentimentRow :=
  {| sr_aspect := lit name; positive_count := p; negative_count := n;
     neutral_count := u; key_positive_terms := None;
     key_negative_terms := None |}.

(** Car 7 has a competitor and a predecessor; the rows of every other car
    include one whose target car is gone. *)
Definition stocked_store : Supabase :=
  {| car_relationships := fun carId =>
       if carId =? 7
       then Resolved (Some [ relation 1 "competitor" (Some corolla);
                             relation 2 "predecessor" (Some accord) ]) None
       else Resolved (Some [ relation 3 "competitor" (Some corolla);
                             relation 4 "variant" None ]) None;
     car_features := fun _ => Resolved (Some feature_rows) None;
     car_timeline := fun _ => Resolved (Some model_years) None;
     review_analysis := fun _ =>
       Resolved (Some [ mentions "Comfort" 1 1 6; mentions "Safety" 5 1 0;
                        mentions "Price" 0 0 0 ]) None |}.

Definition radar_entities : list Entity :=
  [ {| entity_id := 7; entity_name := lit "2022 Honda Civic";
       color := lit "#8884d8" |};
    {| entity_id := 8; entity_name := lit "2022 Toyota Corolla";
       color := lit "#82ca9d" |} ].

Definition radar_values : list (list jsval) :=
  [ [JNum (Fin 4); JNum (Fin 3)]; [JNum (Fin 5); JNum (Fin 2)] ].

Definition helpful_reply : ChatResponse :=
  {| response := lit "It is.";
     car_data := Some civic;
     analysis := Some {| category_scores := Some [(lit "comfort", JNum (Fin 4))];
                         common_pros := Some [lit "Quiet cabin"];
                         common_cons := None;
                         sentiment_counts := Some [(lit "positive", Fin 8)];
                         average_rating := JNum (Fin (9 # 2)) |};
     primaryIntent := Some (lit "reliability") |}.

Definition silent_reply : ChatResponse :=
  {| response := []; car_data := None; analysis := None;
     primaryIntent := None |}.

End MoreSamples.

(* ===================================================================== *)
(** ** ChatInterface, the second chat component                            *)
(* ===================================================================== *)

(** Its messages and state are those of EnhancedChatInterface as far as
    [handleSend] reads and writes them ([conversationContext] and the
    [isSystem] and [timestamp] fields of a message are never touched by
    it). *)
Module ChatInterface.
Import KnowledgeGraph Chat Typing.

(** [generateFollowupSuggestions()], which reads the [carData] state. *)
Definition generateFollowupSuggestions (carData : option Car) : list jsstring :=
  match carData with
  | None =>
      List.map lit
        [ "Tell me about this car model";
          "What are the pros and cons?";
          "Common reliability issues";
          "What should I look for when buying?" ]%string
  | Some carData =>
      [ lit "Is the " ++ manufacturer carData ++ lit " " ++ model carData
          ++ lit " good for families?";
        lit "What is the overall rating of the " ++ model carData ++ lit "?";
        lit "Any common problems with the " ++ model carData ++ lit "?";
        lit "How does the " ++ model carData ++ lit " compare to competitors?" ]
  end.

(** [text && text.trim().length > 0] *)
Definition has_text (t : jsstring) : bool :=
  truthy (JStr t) && negb (Nat.eqb (List.length (trim t)) 0).

(** The body posted to /api/chat: the history is every earlier message's
    text, the assistant's included, blank ones dropped. *)
Definition chat_request (carId : jsval) (st : State) (messageText : jsstring)
  : ChatRequest :=
  {| message := messageText;
     request_car_id := carId;
     conversation_history :=
       List.filter has_text (List.map text (messages st)) |}.

(** The cards of a reply: the specification card does not wait for an
    analysis, there is no category-scores card, and the rating card's
    review count is the constant 10. *)
Definition build_components (data : ChatResponse) (early : bool)
  : list Component :=
  spec_card data early
  ++ match analysis data with
     | Some a =>
         pros_cons_card a ++ sentiment_component a
         ++ (if truthy (average_rating a)
             then [rating (average_rating a) (Fin 10)] else [])
     | None => []
     end.

Definition ai_response (st : State) (data : ChatResponse) : Message :=
  {| text := response data;
     sender := ai;
     components :=
       Some (build_components data (List.length (messages st) <=? 2)%nat);
     suggestions := Some (generateFollowupSuggestions (carData st));
     error := false;
     showRetry := false;
     carName := None |}.

(** [handleSend(messageText)] run to completion; its [catch] block only
    logs. *)
Definition handleSend (st : State) (messageText : jsstring)
    (reply : ChatOutcome) : State :=
  if negb (truthy (JStr (trim messageText))) then st
  else
    let sent := messages st ++ [plain_message messageText user] in
    match reply with
    | Replied data =>
        {| messages := sent ++ [ai_response st data];
           input := [];
           loading := false;
           showSuggestions := false;
           carData := carData st;
           typingEffect := true;
           currentTypingText := [];
           fullResponseText := response data;
           errorState := {| hasError := false; retryCount := 0 |};
           timers := timers st |}
    | _ =>
        {| messages := sent;
           input := [];
           loading := false;
           showSuggestions := false;
           carData := carData st;
           typingEffect := typingEffect st;
           currentTypingText := currentTypingText st;
           fullResponseText := fullResponseText st;
           errorState := errorState st;
           timers := timers st |}
    end.

End ChatInterface.

(** ** Vocabulary for comparison shaping without placeholders *)

Module Rated.
Import KnowledgeGraph Behaviour.

(** The cars a comparison is about: the primary car and the first two
    competitors among its relationships. *)
Definition compared_ids (carData : Car) (rels : list Related) : list N :=
  car_id carData
  :: List.map related_id
       (firstn 2 (List.filter (fun rel => str_eqb (type rel) (lit "competitor"))
                    rels)).

(** The [overall] entry of a car's category, as the rows decide it. *)
Definition overall_of (rows : list FeatureRow) (id : N) (cat : jsstring)
  : option jsval :=
  option_map (fun f => or_else (feature_rating f) (feature_value f))
    (deciding_row rows id cat (lit "overall")).

(** An overall rating of [score] on file for each of the cars in each of
    the five categories. *)
Definition rated_rows (ids : list N) (score : Q) : list FeatureRow :=
  flat_map
    (fun id =>
       List.map
         (fun cat => {| fr_car_id := id; category := cat;
                        feature_name := lit "overall";
                        feature_rating := JNum (Fin score);
                        feature_value := JNull |})
         categories)
    ids.

(** The relationships of [stocked_store], every car rated 4 overall. *)
Definition rated_store : Supabase :=
  {| car_relationships := car_relationships MoreSamples.stocked_store;
     car_features := fun _ => Resolved (Some (rated_rows [7; 8] 4)) None;
     car_timeline := car_timeline MoreSamples.stocked_store;
     review_analysis := review_analysis MoreSamples.stocked_store |}.

End Rated.

(** ** Sends, answers and the typing effect in any order *)

Module Session.
Import KnowledgeGraph Chat Typing.

(** What a call of [handleSend] holds on to across [await fetch]: the
    [messages], [errorState] and [carData] of the render it was made in. *)
Record Pending : Type := {
  seen_messages : list Message;
  seen_errorState : ErrorState;
  seen_carData : option Car
}.

(** [handleSend(messageText)] up to [await fetch]: the user's message is
    appended and the request posted, with the history read off the
    [messages] of the render. *)
Definition handleSend_begin (carId : jsval) (st : State)
    (messageText : jsstring) : State * option (ChatRequest * Pending) :=
  if negb (truthy (JStr (trim messageText))) then (st, None)
  else
    ({| messages := messages st ++ [plain_message messageText user];
        input := [];
        loading := true;
        showSuggestions := false;
        carData := carData st;
        typingEffect := typingEffect st;
        currentTypingText := currentTypingText st;
        fullResponseText := fullResponseText st;
        errorState := errorState st;
        timers := timers st |},
     Some (chat_request carId st messageText,
           {| seen_messages := messages st;
              seen_errorState := errorState st;
              seen_carData := carData st |})).

(** [handleSend] from the answer of [fetch] on, in the state the component
    has reached by then: messages are appended to the current list, and
    what is computed from [messages], [errorState] and [carData] uses the
    values the call saw when it was made. *)
Definition handleSend_resume (st : State) (seen : Pending)
    (reply : ChatOutcome) : State :=
  match reply with
  | Replied data =>
      {| messages := messages st ++ [ai_response (seen_messages seen) data];
         input := input st;
         loading := false;
         showSuggestions := showSuggestions st;
         carData := carData st;
         typingEffect := true;
         currentTypingText := [];
         fullResponseText := response data;
         errorState := {| hasError := false; retryCount := 0 |};
         timers := timers st |}
  | _ =>
      let newRetryCount := retryCount (seen_errorState seen) + 1 in
      {| messages :=
           messages st ++ [error_message newRetryCount (seen_carData seen)];
         input := input st;
         loading := false;
         showSuggestions := showSuggestions st;
         carData := carData st;
         typingEffect := typingEffect st;
         currentTypingText := currentTypingText st;
         fullResponseText := fullResponseText st;
         errorState := {| hasError := true; retryCount := newRetryCount |};
         timers :=
           timers st ++ fallback_timers newRetryCount (seen_carData seen) |}
  end.

(** What happens to the component: [handleSend] is called from the input
    field or a suggestion, [handleRetry] is called, the request in flight
    at position [k] is answered, the typing effect runs, the pending
    timers run, the vehicle's data arrives. (The [voiceTranscript]
    listener, which keeps the [handleSend] of the first render, is left
    out.) *)
Inductive Event : Type :=
  | Send (messageText : jsstring)
  | Retry
  | Answer (k : nat) (reply : ChatOutcome)
  | TypingEffect
  | Timeouts
  | CarLoaded (car : Car).

(** The component with the calls of [handleSend] that wait for their
    answer, and the requests posted so far. *)
Record World : Type := {
  state : State;
  in_flight : list Pending;
  posted : list ChatRequest
}.

Definition without {A} (k : nat) (xs : list A) : list A :=
  firstn k xs ++ skipn (S k) xs.

Section Run.
Variable carId : jsval.
Variable typing_step : nat.
Variable speaks : bool.

(** A call of [handleSend]. *)
Definition send (messageText : jsstring) (w : World) : World :=
  match handleSend_begin carId (state w) messageText with
  | (st, Some (request, seen)) =>
      {| state := st;
         in_flight := in_flight w ++ [seen];
         posted := posted w ++ [request] |}
  | (st, None) =>
      {| state := st; in_flight := in_flight w; posted := posted w |}
  end.

Definition step (ev : Event) (w : World) : JS.result World :=
  match ev with
  | Send messageText => Ok (send messageText w)
  | Retry =>
      match rev (user_messages (messages (state w))) with
      | lastUserMessage :: _ => Ok (send (text lastUserMessage) w)
      | [] => Ok w
      end
  | Answer k reply =>
      match nth_error (in_flight w) k with
      | Some seen =>
          Ok {| state := handleSend_resume (state w) seen reply;
                in_flight := without k (in_flight w);
                posted := posted w |}
      | None => Ok w
      end
  | TypingEffect =>
      bind (typing_tick typing_step speaks (state w)) (fun r =>
        Ok {| state := fst r; in_flight := in_flight w; posted := posted w |})
  | Timeouts =>
      Ok {| state := run_timers (state w);
            in_flight := in_flight w;
            posted := posted w |}
  | CarLoaded car =>
      Ok {| state :=
              {| messages := messages (state w);
                 input := input (state w);
                 loading := loading (state w);
                 showSuggestions := showSuggestions (state w);
                 carData := Some car;
                 typingEffect := typingEffect (state w);
                 currentTypingText := currentTypingText (state w);
                 fullResponseText := fullResponseText (state w);
                 errorState := errorState (state w);
                 timers := timers (state w) |};
            in_flight := in_flight w;
            posted := posted w |}
  end.

Fixpoint run (evs : list Event) (w : World) : JS.result World :=
  match evs with
  | [] => Ok w
  | ev :: evs' => bind (step ev w) (run evs')
  end.

(** A reply is being typed: [typingEffect && fullResponseText]. *)
Definition being_typed (st : State) : bool :=
  typingEffect st && truthy (JStr (fullResponseText st)).

(** No message is sent while a reply is being typed. *)
Fixpoint patient (evs : list Event) (w : World) : bool :=
  match evs with
  | [] => true
  | ev :: evs' =>
      match ev with
      | Send _ | Retry => negb (being_typed (state w))
      | _ => true
      end
      && match step ev w with
         | Ok w' => patient evs' w'
         | Throw _ => true
         end
  end.

End Run.

(** The last message is the assistant's. *)
Definition last_from_ai (ms : list Message) : bool :=
  match rev ms with
  | m :: _ => sender_eqb (sender m) ai
  | [] => false
  end.

(** If a reply is being typed, the last message is the assistant's; and
    the messages the pending timers will append are the assistant's, as
    those the [catch] block sets are. *)
Definition settled (st : State) : bool :=
  (negb (being_typed st) || last_from_ai (messages st))
  && forallb (fun t => sender_eqb (sender (snd t)) ai) (timers st).

(** The texts of the user's messages. *)
Definition user_texts (st : State) : list jsstring :=
  List.map text (user_messages (messages st)).

(** The text an event sends when the user's texts so far are [history]:
    the text given, or for a retry the last of [history]; none when that
    text is blank. *)
Definition text_sent (history : list jsstring) (ev : Event)
  : option jsstring :=
  let sent :=
    match ev with
    | Send messageText => Some messageText
    | Retry =>
        match rev history with
        | lastText :: _ => Some lastText
        | [] => None
        end
    | _ => None
    end in
  match sent with
  | Some messageText =>
      if negb (truthy (JStr (trim messageText))) then None
      else Some messageText
  | None => None
  end.

(** The requests in which every text sent carries the texts in [history]
    and those sent before it. *)
Fixpoint requests (carId : jsval) (history : list jsstring)
    (evs : list Event) : list ChatRequest :=
  match evs with
  | [] => []
  | ev :: evs' =>
      match text_sent history ev with
      | Some messageText =>
          {| message := messageText;
             request_car_id := carId;
             conversation_history := history |}
            :: requests carId (history ++ [messageText]) evs'
      | None => requests carId history evs'
      end
  end.

(** The message the component starts with; its first character is a
    waving hand, two code units. *)
Definition welcome : Message :=
  {| text := [55357; 56395]
             ++ lit " Hello! I'm your AI automotive expert. How can I help you explore this vehicle?";
     sender := ai;
     components := None;
     suggestions :=
       Some (List.map lit
               [ "What's the fuel economy like?";
                 "Tell me about the engine specs";
                 "How does it compare to competitors?";
                 "What are the safety features?";
                 "Is this car reliable?" ]%string);
     error := false;
     showRetry := false;
     carName := None |}.

(** The state of the component when it is mounted. *)
Definition mounted : State :=
  {| messages := [welcome]; input := []; loading := false;
     showSuggestions := true; carData := None; typingEffect := false;
     currentTypingText := []; fullResponseText := [];
     errorState := {| hasError := false; retryCount := 0 |};
     timers := [] |}.

Definition opened : World :=
  {| state := mounted; in_flight := []; posted := [] |}.

End Session.

(** ** The percentage, by the Standard Library's IEEE 754 operations *)

Module Reference.
Import KnowledgeGraph.

Definition binary64 (n : N) : SpecFloat.spec_float := Double.to_spec_float n.

(** [(count / total) * 100] *)
Definition percent (count total : N) : jsnum :=
  Double.of_spec_float
    (SpecFloat.SFmul 53 1024
       (SpecFloat.SFdiv 53 1024 (binary64 count) (binary64 total))
       (binary64 100)).

(** [a + b] *)
Definition sum (a b : N) : jsnum :=
  Double.of_spec_float (SpecFloat.SFadd 53 1024 (binary64 a) (binary64 b)).

Definition same_number (a b : jsnum) : bool :=
  match a, b with
  | Fin x, Fin y => Qeq_bool x y && (Qden x =? Qden y)%positive
  | NaN, NaN | PosInf, PosInf | NegInf, NegInf => true
  | _, _ => false
  end.

(** The counts tried: every count below 10, and counts around the largest
    integer and the largest number a double holds. *)
Definition small_counts : list N := List.map N.of_nat (seq 0 10).

Definition large_counts : list N :=
  [ 200; 2^53 + 1; 2^53 + 3; 2^1024 - 2^970 - 1; 2^1024 - 2^970 ].

(** With counts [a] and [b], the quotient times 100 and the sum are what
    the Standard Library's operations give. *)
Definition agree (a b : N) : bool :=
  same_number
    (Double.mul (Double.div (Double.of_N a) (Double.of_N b)) (Fin 100))
    (percent a b)
  && same_number (Double.add (Double.of_N a) (Double.of_N b)) (sum a b).

End Reference.

(* ===================================================================== *)
(** * Properties                                                           *)
(* ===================================================================== *)

Import KnowledgeGraph Chat Spec Decimal Samples.

(** ** The matcher finds exactly the matched substrings *)

Section RegexFacts.

Lemma nullable_matches r : nullable r = true <-> matches r [].
Proof.
  split.
  - induction r; simpl; intros Hn; try discriminate.
    + constructor.
    + apply andb_true_iff in Hn as [H1 H2].
      change (@nil N) with (@nil N ++ []). constructor; auto.
    + apply orb_true_iff in Hn as [H1 | H2].
      * apply M_alt_l; auto.
      * apply M_alt_r; auto.
    + constructor.
  - intros Hm. remember [] as w eqn:Hw.
    induction Hm; simpl; try discriminate; auto.
    + apply app_eq_nil in Hw as [-> ->]. rewrite IHHm1, IHHm2; auto.
    + rewrite IHHm; auto.
    + rewrite IHHm; auto using orb_true_r.
Qed.

Lemma matches_void_inv w : ~ matches Void w.
Proof. intros Hm. inversion Hm. Qed.

Lemma matches_eps_inv w : matches Eps w -> w = [].
Proof. intros Hm. now inversion Hm. Qed.

Lemma matches_seq_inv r1 r2 w :
  matches (Seq r1 r2) w ->
  exists w1 w2, w = w1 ++ w2 /\ matches r1 w1 /\ matches r2 w2.
Proof. intros Hm. inversion Hm; subst. eauto. Qed.

Lemma matches_alt_inv r1 r2 w :
  matches (Alt r1 r2) w -> matches r1 w \/ matches r2 w.
Proof. intros Hm. inversion Hm; subst; auto. Qed.

Lemma matches_cons_seq c r1 r2 w1 w2 :
  matches r1 (c :: w1) -> matches r2 w2 -> matches (Seq r1 r2) (c :: w1 ++ w2).
Proof. intros H1 H2. apply (M_seq H1 H2). Qed.

Lemma deriv_sound c r : forall w, matches (deriv c r) w -> matches r (c :: w).
Proof.
  induction r as [| |p| |r1 IH1 r2 IH2|r1 IH1 r2 IH2|r1 IH1];
    simpl; intros w Hm.
  - now apply matches_void_inv in Hm.
  - now apply matches_void_inv in Hm.
  - destruct (chr_match p c) eqn:E.
    + apply matches_eps_inv in Hm as ->. now constructor.
    + now apply matches_void_inv in Hm.
  - destruct (is_line_terminator c) eqn:E.
    + now apply matches_void_inv in Hm.
    + apply matches_eps_inv in Hm as ->. now constructor.
  - assert (Hseq : matches (Seq (deriv c r1) r2) w -> matches (Seq r1 r2) (c :: w)).
    { intros Hs. apply matches_seq_inv in Hs as (w1 & w2 & -> & H1 & H2).
      apply matches_cons_seq; auto. }
    destruct (nullable r1) eqn:E; [|auto].
    apply matches_alt_inv in Hm as [Hm | Hm]; [auto|].
    apply (@M_seq r1 r2 [] (c :: w)); [now apply nullable_matches | auto].
  - apply matches_alt_inv in Hm as [Hm | Hm]; [apply M_alt_l | apply M_alt_r]; auto.
  - apply matches_seq_inv in Hm as (w1 & w2 & -> & H1 & H2).
    apply (@M_star_cons r1 (c :: w1) w2); auto.
Qed.

Lemma deriv_complete c r s :
  matches r s -> forall v, s = c :: v -> matches (deriv c r) v.
Proof.
  induction 1 as [ | p a Hc | a Hl | r1 r2 w1 w2 H1 IH1 H2 IH2
                 | r1 r2 w0 H1 IH1 | r1 r2 w0 H2 IH2
                 | r0 | r0 w1 w2 H1 IH1 H2 IH2 ];
    intros v Hs; simpl; try discriminate.
  - injection Hs as -> <-. rewrite Hc. constructor.
  - injection Hs as -> <-. rewrite Hl. constructor.
  - destruct w1 as [|a w1'].
    + simpl in Hs. subst w2.
      assert (Hn : nullable r1 = true) by now apply nullable_matches.
      rewrite Hn. apply M_alt_r. now apply IH2.
    + simpl in Hs. injection Hs as -> <-.
      assert (Hd : matches (Seq (deriv c r1) r2) (w1' ++ w2)).
      { constructor; auto. }
      destruct (nullable r1); [now apply M_alt_l | exact Hd].
  - apply M_alt_l. auto.
  - apply M_alt_r. auto.
  - destruct w1 as [|a w1'].
    + simpl in Hs. now apply IH2.
    + simpl in Hs. injection Hs as -> <-.
      constructor; auto.
Qed.

Lemma matches_prefix_spec s : forall r,
  matches_prefix r s = true <-> exists w post, s = w ++ post /\ matches r w.
Proof.
  induction s as [|c s IH]; intros r; simpl.
  - rewrite orb_false_r, nullable_matches. split.
    + intros Hm. exists [], []. auto.
    + intros (w & post & Hs & Hm). symmetry in Hs.
      apply app_eq_nil in Hs as [-> _]. exact Hm.
  - rewrite orb_true_iff, nullable_matches, IH. split.
    + intros [Hm | (w & post & -> & Hm)].
      * exists [], (c :: s). auto.
      * exists (c :: w), post. split; auto. now apply deriv_sound.
    + intros (w & post & Hs & Hm). destruct w as [|a w].
      * now left.
      * right. simpl in Hs. injection Hs as <- ->.
        exists w, post. split; auto. eapply deriv_complete; eauto.
Qed.

(** [test] answers whether some substring of the subject is matched. *)
Lemma test_spec r s :
  test r s = true <-> exists pre w post, s = pre ++ w ++ post /\ matches r w.
Proof.
  induction s as [|c s IH]; cbn [test].
  - rewrite orb_false_r, matches_prefix_spec. split.
    + intros (w & post & Hs & Hm). exists [], w, post. auto.
    + intros (pre & w & post & Hs & Hm). symmetry in Hs.
      apply app_eq_nil in Hs as [-> Hs]. simpl. exists w, post; auto.
  - rewrite orb_true_iff, matches_prefix_spec, IH. split.
    + intros [(w & post & Hs & Hm) | (pre & w & post & -> & Hm)].
      * exists [], w, post. auto.
      * exists (c :: pre), w, post. auto.
    + intros (pre & w & post & Hs & Hm). destruct pre as [|a pre].
      * left. exists w, post. auto.
      * right. simpl in Hs. injection Hs as <- ->. exists pre, w, post. auto.
Qed.

(** Under the [i] flag a subject and its ASCII lower-casing are matched
    alike. *)
Lemma canonicalize_lower c : canonicalize (lower_ascii c) = canonicalize c.
Proof.
  unfold lower_ascii.
  destruct (N.leb_spec 65 c); cbn [andb]; [|reflexivity].
  destruct (N.leb_spec c 90); [|reflexivity].
  unfold canonicalize.
  destruct (N.leb_spec 97 (c + 32)), (N.leb_spec (c + 32) 122),
    (N.leb_spec 97 c), (N.leb_spec c 122); cbn [andb]; lia.
Qed.

Lemma line_terminator_lower c :
  is_line_terminator (lower_ascii c) = is_line_terminator c.
Proof.
  unfold lower_ascii.
  destruct (N.leb_spec 65 c); cbn [andb]; [|reflexivity].
  destruct (N.leb_spec c 90); [|reflexivity].
  unfold is_line_terminator. cbn [existsb].
  repeat match goal with
         | |- context [?a =? ?b] => destruct (N.eqb_spec a b); try lia
         end.
Qed.

Lemma deriv_lower c r : deriv (lower_ascii c) r = deriv c r.
Proof.
  induction r as [| |p| |r1 IH1 r2 IH2|r1 IH1 r2 IH2|r1 IH1]; cbn [deriv];
    try reflexivity.
  - unfold chr_match. now rewrite canonicalize_lower.
  - now rewrite line_terminator_lower.
  - now rewrite IH1, IH2.
  - now rewrite IH1, IH2.
  - now rewrite IH1.
Qed.

Lemma matches_prefix_lower s : forall r,
  matches_prefix r (List.map lower_ascii s) = matches_prefix r s.
Proof.
  induction s as [|c s IH]; intros r; [reflexivity|].
  cbn [List.map matches_prefix]. now rewrite deriv_lower, IH.
Qed.

Lemma test_lower r s : test r (List.map lower_ascii s) = test r s.
Proof.
  induction s as [|c s IH]; [reflexivity|].
  change (List.map lower_ascii (c :: s))
    with (lower_ascii c :: List.map lower_ascii s).
  cbn [test]. rewrite IH. f_equal.
  apply (matches_prefix_lower (c :: s)).
Qed.

End RegexFacts.

(** ** Intent classification *)

Section ClassifierFacts.
Context `{StringBuiltins}.

(** The loop over [Object.entries(patterns)] visits the groups in the
    priority order. *)
Lemma loop_follows_priority lowerQuery :
  first_matching_type patterns lowerQuery
  = List.find (fun g => some_pattern_matches (group_patterns g) lowerQuery)
      priority.
Proof. reflexivity. Qed.

Lemma empty_query_matches_nothing g : matches_group g [] = false.
Proof.
  unfold matches_group. rewrite toLowerCase_empty.
  destruct g; vm_compute; reflexivity.
Qed.

(** The classifier on a non-empty string: the first matching group, else
    the feature-term stage. *)
Lemma classify_string q :
  q <> [] ->
  determineVisualizationType (JStr q)
  = match List.find (fun g => matches_group g q) priority with
    | Some g => Some g
    | None =>
        let lowerQuery := toLowerCase q in
        if existsb (fun term => includes lowerQuery term) featureTerms then
          if includes lowerQuery (lit "compare") || includes lowerQuery (lit "other")
          then Some comparison
          else if includes lowerQuery (lit "history")
                  || includes lowerQuery (lit "improved")
          then Some trend else Some sentiment
        else None
    end.
Proof.
  intros Hq. unfold determineVisualizationType.
  destruct q as [|c q]; [congruence|].
  cbn [truthy List.length Nat.eqb negb].
  rewrite loop_follows_priority. reflexivity.
Qed.

(** Anything but a non-empty string is not classified. *)
Lemma classify_non_string v :
  (forall q, v = JStr q -> q = []) -> determineVisualizationType v = None.
Proof.
  intros Hv. destruct v as [| | | |q|]; try reflexivity.
  rewrite (Hv q eq_refl). reflexivity.
Qed.

(** C1. For every query string the classifier returns the category of the
    first group, in the order comparison, trend, sentiment, relationship,
    one of whose patterns matches the lower-cased query; in particular a
    query matching a comparison pattern and a relationship pattern is
    classified as comparison. *)
Theorem classifier_priority_order (q : jsstring) :
  (forall g,
     List.find (fun g => matches_group g q) priority = Some g ->
     determineVisualizationType (JStr q) = Some g)
  /\ (matches_group comparison q = true ->
      matches_group relationship q = true ->
      determineVisualizationType (JStr q) = Some comparison).
Proof.
  assert (Hfirst : forall g,
     List.find (fun g => matches_group g q) priority = Some g ->
     determineVisualizationType (JStr q) = Some g).
  { intros g Hg. destruct q as [|c q].
    - cbn [List.find priority] in Hg.
      rewrite !empty_query_matches_nothing in Hg. discriminate.
    - rewrite classify_string by discriminate. now rewrite Hg. }
  split; [exact Hfirst|].
  intros Hc _. apply Hfirst. cbn [List.find priority]. now rewrite Hc.
Qed.

End ClassifierFacts.

Lemma classifier_priority_order_witness :
  @determineVisualizationType ascii_builtins
     (JStr (lit "Is it similar to the Accord vs the Camry?")) = Some comparison
  /\ @determineVisualizationType ascii_builtins
     (JStr (lit "What do owners think of its family tree?")) = Some sentiment.
Proof.
  split.
  - apply (proj2 (@classifier_priority_order ascii_builtins _));
      vm_compute; reflexivity.
  - apply (proj1 (@classifier_priority_order ascii_builtins _));
      vm_compute; reflexivity.
Defined.

(** With the ASCII lower-casing, a group matches the lower-cased query
    exactly when it matches the query as typed. *)
Lemma matches_group_any_case g q :
  @matches_group ascii_builtins g q
  = existsb (fun pattern => test pattern q) (group_patterns g).
Proof.
  unfold matches_group. cbn [toLowerCase ascii_builtins].
  induction (group_patterns g) as [|p ps IH]; [reflexivity|].
  cbn [existsb]. now rewrite test_lower, IH.
Qed.

Example classify_compare :
  @determineVisualizationType ascii_builtins
    (JStr (lit "compare Model X to Model Y")) = Some comparison.
Proof. vm_compute. reflexivity. Qed.

Example classify_feature_default :
  @determineVisualizationType ascii_builtins
    (JStr (lit "How is the reliability?")) = Some sentiment.
Proof. vm_compute. reflexivity. Qed.

Example classify_nothing :
  @determineVisualizationType ascii_builtins (JStr (lit "hello there")) = None.
Proof. vm_compute. reflexivity. Qed.

(** ** Knowledge fetchers *)

Section FetcherFacts.
Variable supabase : Supabase.

Lemma with_data_failed {Row A} (o : outcome Row)
    (k : option (list Row) -> result A) (handler : exn -> result A) v :
  failed o -> (forall e, handler e = Ok v) ->
  try_catch (with_data o k) handler = Ok v.
Proof.
  destruct o as [e | data [e|]]; simpl; intros Hf Hh; auto; contradiction.
Qed.

Lemma getCarRelationships_total carId :
  exists rels, getCarRelationships supabase carId = Ok rels.
Proof.
  unfold getCarRelationships, try_catch. destruct (with_data _ _); eauto.
Qed.

(** No fetcher throws, whatever the store answers. *)
Lemma fetchers_never_throw (carId : N) (carIds : list N) :
  (exists v, getCarRelationships supabase carId = Ok v)
  /\ (exists v, getCarFeatures supabase carIds = Ok v)
  /\ (exists v, getCarTimeline supabase carId = Ok v)
  /\ (exists v, getReviewSentiment supabase carId = Ok v).
Proof.
  split; [apply getCarRelationships_total|]. split; [|split].
  - unfold getCarFeatures, try_catch. destruct (with_data _ _); eauto.
  - unfold getCarTimeline, try_catch. destruct (with_data _ _); eauto.
  - unfold getReviewSentiment, try_catch. destruct (with_data _ _); eauto.
Qed.

(** C7. Whenever its query fails (the promise rejects or resolves with an
    error), each of the four fetchers returns normally with the empty
    list, the features fetcher with the empty mapping. *)
Theorem fetchers_fail_closed (carId : N) (carIds : list N) :
  (failed (car_relationships supabase carId) ->
     getCarRelationships supabase carId = Ok [])
  /\ (failed (car_features supabase carIds) ->
     getCarFeatures supabase carIds = Ok ∅)
  /\ (failed (car_timeline supabase carId) ->
     getCarTimeline supabase carId = Ok (Some []))
  /\ (failed (review_analysis supabase carId) ->
     getReviewSentiment supabase carId = Ok []).
Proof.
  repeat split; intros Hf; apply with_data_failed; auto.
Qed.

End FetcherFacts.

Lemma fetchers_fail_closed_witness :
  getCarRelationships failing_store 7 = Ok []
  /\ getCarFeatures failing_store [7; 8] = Ok ∅
  /\ getCarTimeline failing_store 7 = Ok (Some [])
  /\ getReviewSentiment failing_store 7 = Ok [].
Proof.
  destruct (fetchers_fail_closed failing_store 7 [7; 8]) as (H1 & H2 & H3 & H4).
  split; [|split; [|split]]; [apply H1 | apply H2 | apply H3 | apply H4];
    exact I.
Defined.

(** ** Sentiment percentages *)

Section SentimentFacts.

(** *** Rounding to a double *)

(** On small counts and on counts at the limits of the format, the
    quotient, the product and the sum are those of the Standard Library's
    specification of IEEE 754 binary64 arithmetic. *)
Lemma doubles_as_specified :
  forallb (fun a => forallb (Reference.agree a) Reference.small_counts)
    Reference.small_counts = true
  /\ forallb (fun a => forallb (Reference.agree a) Reference.large_counts)
       Reference.large_counts = true.
Proof. split; vm_compute; reflexivity. Qed.

(** 29 mentions out of 200 are 14.5 per cent, but the double nearest to
    29/200 times 100 is 14.499999999999998: the percentage is 14. *)
Example share_below_the_half :
  Double.mul (Double.div (Fin 29) (Fin 200)) (Fin 100)
  = Fin (8162774324609023 # 562949953421312)
  /\ positive (format_sentiment row_29_0_171) = Fin 14
  /\ negative (format_sentiment row_29_0_171) = Fin 0
  /\ neutral (format_sentiment row_29_0_171) = Fin 86.
Proof. repeat split; vm_compute; reflexivity. Qed.

Lemma pow2_pos e : (0 < Double.pow2 e)%Q.
Proof. apply Qpower_0_lt. reflexivity. Qed.

Lemma pow2_add a b :
  (Double.pow2 (a + b) == Double.pow2 a * Double.pow2 b)%Q.
Proof. apply Qpower_plus. discriminate. Qed.

Lemma pow2_inject (n : Z) :
  (0 <= n)%Z -> (Double.pow2 n == inject_Z (2 ^ n))%Q.
Proof.
  intros H. unfold Double.pow2. rewrite (@Zpower_Qpower 2 n H). reflexivity.
Qed.

(** [ilog2 q] is the whole part of the binary logarithm of [q]. *)
Lemma ilog2_le q : (0 < q -> Double.pow2 (Double.ilog2 q) <= q)%Q.
Proof.
  intros Hq. unfold Double.ilog2.
  set (k := (Z.log2 (Qnum q) - Z.log2 (Z.pos (Qden q)))%Z).
  destruct (Qle_bool (Double.pow2 k) q) eqn:E; [now apply Qle_bool_iff|].
  destruct q as [n d]. cbn [Qnum Qden] in k.
  assert (Hn : (0 < n)%Z) by (unfold Qlt in Hq; simpl in Hq; lia).
  set (a := Z.log2 n) in *. set (b := Z.log2 (Z.pos d)) in *.
  destruct (Z.log2_spec n Hn) as [Ha _]. fold a in Ha.
  destruct (Z.log2_spec (Z.pos d) eq_refl) as [_ Hb]. fold b in Hb.
  assert (Ha0 : (0 <= a)%Z) by apply Z.log2_nonneg.
  assert (Hb0 : (0 <= b)%Z) by apply Z.log2_nonneg.
  assert (Hk : (Double.pow2 (k - 1) * Double.pow2 (Z.succ b)
                == Double.pow2 a)%Q).
  { rewrite <- pow2_add.
    replace (k - 1 + Z.succ b)%Z with a by (unfold k; lia). reflexivity. }
  assert (Hd : (inject_Z (Z.pos d) <= Double.pow2 (Z.succ b))%Q).
  { rewrite pow2_inject by lia. rewrite <- Zle_Qle. lia. }
  assert (Hna : (Double.pow2 a <= inject_Z n)%Q).
  { rewrite pow2_inject by lia. rewrite <- Zle_Qle. lia. }
  rewrite (Qmake_Qdiv n d). apply Qle_shift_div_l; [reflexivity|].
  pose proof (pow2_pos (k - 1)) as Hp.
  apply Qle_trans with (Double.pow2 (k - 1) * Double.pow2 (Z.succ b))%Q;
    [|rewrite Hk; exact Hna].
  apply Qmult_le_l; assumption.
Qed.

Lemma ilog2_lt q : (0 < q -> q < Double.pow2 (Double.ilog2 q + 1))%Q.
Proof.
  intros Hq. unfold Double.ilog2.
  set (k := (Z.log2 (Qnum q) - Z.log2 (Z.pos (Qden q)))%Z).
  destruct (Qle_bool (Double.pow2 k) q) eqn:E.
  - destruct q as [n d]. cbn [Qnum Qden] in k.
    assert (Hn : (0 < n)%Z) by (unfold Qlt in Hq; simpl in Hq; lia).
    set (a := Z.log2 n) in *. set (b := Z.log2 (Z.pos d)) in *.
    destruct (Z.log2_spec n Hn) as [_ Ha]. fold a in Ha.
    destruct (Z.log2_spec (Z.pos d) eq_refl) as [Hb _]. fold b in Hb.
    assert (Ha0 : (0 <= a)%Z) by apply Z.log2_nonneg.
    assert (Hb0 : (0 <= b)%Z) by apply Z.log2_nonneg.
    assert (Hk : (Double.pow2 (k + 1) * Double.pow2 b
                  == Double.pow2 (Z.succ a))%Q).
    { rewrite <- pow2_add.
      replace (k + 1 + b)%Z with (Z.succ a) by (unfold k; lia). reflexivity. }
    assert (Hd : (Double.pow2 b <= inject_Z (Z.pos d))%Q).
    { rewrite pow2_inject by lia. rewrite <- Zle_Qle. lia. }
    assert (Hna : (inject_Z n < Double.pow2 (Z.succ a))%Q).
    { rewrite pow2_inject by lia. rewrite <- Zlt_Qlt. lia. }
    rewrite (Qmake_Qdiv n d). apply Qlt_shift_div_r; [reflexivity|].
    pose proof (pow2_pos (k + 1)) as Hp.
    apply Qlt_le_trans with (Double.pow2 (k + 1) * Double.pow2 b)%Q;
      [rewrite Hk; exact Hna|].
    apply Qmult_le_l; assumption.
  - replace (k - 1 + 1)%Z with k by lia.
    apply Qnot_le_lt. intros H. apply Qle_bool_iff in H. congruence.
Qed.

(** Rounding to the nearest integer moves a number by at most a half. *)
Lemma nearest_even_close x :
  (x - (1 # 2) <= inject_Z (Double.nearest_even x) <= x + (1 # 2))%Q.
Proof.
  unfold Double.nearest_even.
  pose proof (Qfloor_le x) as Hlo. pose proof (Qlt_floor x) as Hhi.
  set (f := Qfloor x) in *.
  rewrite inject_Z_plus in Hhi. change (inject_Z 1) with 1%Q in Hhi.
  destruct (x - inject_Z f ?= 1 # 2)%Q eqn:E.
  - apply Qeq_alt in E. destruct (Z.even f).
    + lra.
    + rewrite inject_Z_plus. change (inject_Z 1) with 1%Q. lra.
  - apply Qlt_alt in E. lra.
  - apply Qgt_alt in E. rewrite inject_Z_plus. change (inject_Z 1) with 1%Q.
    lra.
Qed.

Lemma nearest_even_nonneg x : (0 <= x)%Q -> (0 <= Double.nearest_even x)%Z.
Proof.
  intros Hx. unfold Double.nearest_even.
  assert (H0 : (0 <= Qfloor x)%Z).
  { change 0%Z with (Qfloor 0). now apply Qfloor_resp_le. }
  destruct (x - inject_Z (Qfloor x) ?= 1 # 2)%Q; [destruct (Z.even _)| |]; lia.
Qed.

(** The significand rounding picks has 53 bits, or is [2^53], the first
    number of the next binade. *)
Lemma significand_fits q :
  (0 < q)%Q ->
  let e := Z.max (Double.ilog2 q - 52) (-1074) in
  (0 <= Double.nearest_even (q / Double.pow2 e) <= 2 ^ 53)%Z.
Proof.
  intros Hq e.
  pose proof (pow2_pos e) as He.
  pose proof (pow2_pos (Double.ilog2 q - 52)) as Hv.
  assert (Hve : (Double.pow2 (Double.ilog2 q - 52) <= Double.pow2 e)%Q).
  { apply Qpower_le_compat_l; [apply Z.le_max_l | discriminate]. }
  assert (Htop : (Double.pow2 (Double.ilog2 q + 1)
                  == Double.pow2 (Double.ilog2 q - 52) * inject_Z (2 ^ 53))%Q).
  { replace (Double.ilog2 q + 1)%Z with (Double.ilog2 q - 52 + 53)%Z by lia.
    rewrite pow2_add. now rewrite (@pow2_inject 53%Z ltac:(lia)). }
  pose proof (ilog2_lt Hq) as Hlt. rewrite Htop in Hlt.
  assert (Hx : (q / Double.pow2 e < inject_Z (2 ^ 53))%Q).
  { apply Qlt_shift_div_r; [exact He|].
    assert (0 <= inject_Z (2 ^ 53))%Q by discriminate.
    assert (Double.pow2 (Double.ilog2 q - 52) * inject_Z (2 ^ 53)
            <= Double.pow2 e * inject_Z (2 ^ 53))%Q
      by (apply Qmult_le_compat_r; assumption).
    lra. }
  split.
  - apply nearest_even_nonneg. apply Qle_shift_div_l; [exact He|]. lra.
  - pose proof (nearest_even_close (q / Double.pow2 e)) as [_ Hm].
    set (top := (2 ^ 53)%Z) in *.
    assert (Hm' : (Double.nearest_even (q / Double.pow2 e) < top + 1)%Z).
    { rewrite Zlt_Qlt, inject_Z_plus. change (inject_Z 1) with 1%Q. lra. }
    lia.
Qed.

(** What rounding returns for [0 < q]: a number no further from [q] than
    half a unit in the last place, which is at most [q * 2^-53 + 2^-1075];
    or [Infinity], and then [q] is [2^1023] at least. *)
Lemma round_pos_spec q :
  (0 < q)%Q ->
  (exists r, Double.round_pos q = Fin r
             /\ (0 <= r
                 /\ r - q <= q * Double.pow2 (-53) + Double.pow2 (-1075)
                 /\ q - r <= q * Double.pow2 (-53) + Double.pow2 (-1075))%Q)
  \/ (Double.round_pos q = PosInf /\ (Double.pow2 1023 <= q)%Q).
Proof.
  intros Hq. unfold Double.round_pos.
  set (eps := Double.pow2 (-53)). set (eta := Double.pow2 (-1075)).
  set (e := Z.max (Double.ilog2 q - 52) (-1074)).
  set (m := Double.nearest_even (q / Double.pow2 e)).
  pose proof (pow2_pos e) as He.
  pose proof (nearest_even_close (q / Double.pow2 e)) as Hm. fold m in Hm.
  assert (Hx : (q / Double.pow2 e * Double.pow2 e == q)%Q).
  { field. intros H. rewrite H in He. discriminate. }
  assert (Hm0 : (0 <= inject_Z m)%Q).
  { change 0%Q with (inject_Z 0). rewrite <- Zle_Qle.
    apply nearest_even_nonneg. apply Qle_shift_div_l; [exact He|]. lra. }
  assert (Hulp : (Double.pow2 e * (1 # 2) <= q * eps + eta)%Q).
  { pose proof (pow2_pos (-53)) as H53. pose proof (pow2_pos (-1075)) as H75.
    fold eps in H53. fold eta in H75.
    destruct (Z.max_spec (Double.ilog2 q - 52) (-1074)) as [[_ E]|[_ E]];
      fold e in E.
    - rewrite E.
      assert (Double.pow2 (-1074) * (1 # 2) == eta)%Q as -> by reflexivity.
      assert (0 <= q * eps)%Q by (apply Qmult_le_0_compat; lra). lra.
    - assert (Double.pow2 e * (1 # 2)
              == Double.pow2 (Double.ilog2 q) * eps)%Q as ->.
      { rewrite E.
        replace (Double.ilog2 q - 52)%Z with (Double.ilog2 q + -52)%Z by lia.
        rewrite pow2_add. unfold eps.
        assert (Double.pow2 (-52) * (1 # 2) == Double.pow2 (-53))%Q as <-
          by reflexivity.
        ring. }
      pose proof (ilog2_le Hq).
      assert (Double.pow2 (Double.ilog2 q) * eps <= q * eps)%Q
        by (apply Qmult_le_compat_r; lra).
      lra. }
  set (r := (inject_Z m * Double.pow2 e)%Q) in *.
  assert (Hr : (r - q <= Double.pow2 e * (1 # 2)
                /\ q - r <= Double.pow2 e * (1 # 2))%Q).
  { unfold r. set (x := (q / Double.pow2 e)%Q) in *.
    set (u := Double.pow2 e) in *. destruct Hm as [Hm1 Hm2].
    assert (0 <= (x + (1 # 2) - inject_Z m) * u)%Q
      by (apply Qmult_le_0_compat; lra).
    assert (0 <= (inject_Z m - (x - (1 # 2))) * u)%Q
      by (apply Qmult_le_0_compat; lra).
    split; lra. }
  destruct (Qle_bool (Double.pow2 1024) r) eqn:Eo.
  - right. split; [reflexivity|]. apply Qle_bool_iff in Eo.
    assert (Heps : (eps <= 1 # 2)%Q) by (apply Qle_bool_iff; reflexivity).
    assert (Heta : (eta <= 1)%Q) by (apply Qle_bool_iff; reflexivity).
    assert (H24 : (Double.pow2 1024 == 2 * Double.pow2 1023)%Q)
      by reflexivity.
    assert (H1 : (4 <= Double.pow2 1023)%Q)
      by (apply Qle_bool_iff; reflexivity).
    assert (q * eps <= q * (1 # 2))%Q by (apply Qmult_le_l; lra).
    lra.
  - left. exists (Qred r). split; [reflexivity|].
    rewrite !Qred_correct. split; [|lra].
    unfold r. apply Qmult_le_0_compat; lra.
Qed.

(** Every rounding of a number that is not negative is close to it. *)
Lemma round_nonneg q :
  (0 <= q)%Q ->
  (exists r, Double.round q = Fin r /\ Double.close q r)
  \/ (Double.round q = PosInf /\ (Double.pow2 1023 <= q)%Q).
Proof.
  intros Hq. unfold Double.round. destruct q as [[|n|n] d]; cbn [Qnum].
  - left. exists 0%Q. split; [reflexivity|].
    assert (E : (0 # d == 0)%Q) by reflexivity.
    unfold Double.close. rewrite E. lra.
  - assert (Hpos : (0 < Z.pos n # d)%Q) by reflexivity.
    destruct (round_pos_spec Hpos) as [(r & Er & H0 & H1 & H2)|H];
      [left|right; exact H].
    exists r. split; [exact Er|].
    assert (Heps : (Double.pow2 (-53) <= 1 # 1000000)%Q)
      by (apply Qle_bool_iff; reflexivity).
    assert (Heta : (Double.pow2 (-1075) <= 1 # 1000000)%Q)
      by (apply Qle_bool_iff; reflexivity).
    assert ((Z.pos n # d) * Double.pow2 (-53)
            <= (Z.pos n # d) * (1 # 1000000))%Q
      by (apply Qmult_le_l; [exact Hpos | exact Heps]).
    unfold Double.close. lra.
  - exfalso. unfold Qle in Hq. simpl in Hq. lia.
Qed.

(** A count read as a number is 0, at least a half, or [Infinity]. *)
Lemma of_N_cases (n : N) :
  (n = 0 /\ Double.of_N n = Fin 0)
  \/ (0 < n /\ exists a, Double.of_N n = Fin a /\ (1 # 2 <= a)%Q)
  \/ (0 < n /\ Double.of_N n = PosInf).
Proof.
  destruct n as [|p]; [left; split; reflexivity|right].
  unfold Double.of_N.
  assert (H1 : (1 <= inject_Z (Z.of_N (N.pos p)))%Q).
  { change 1%Q with (inject_Z 1). rewrite <- Zle_Qle. lia. }
  destruct (@round_nonneg (inject_Z (Z.of_N (N.pos p))) ltac:(lra))
    as [(r & Er & H0 & Hup & Hlo)|[Er _]].
  - left. split; [reflexivity|]. exists r. split; [exact Er|]. lra.
  - right. split; [reflexivity | exact Er].
Qed.

(** *** The three percentages of a row *)

(** [Math.round(y) || 0] is the integer nearest to [y]. *)
Lemma round_or_zero (y : Q) :
  num_or_zero (Math_round (Fin y)) = Fin (inject_Z (Qfloor (y + (1 # 2)))).
Proof.
  unfold Math_round, num_or_zero, num_truthy, is_zero. cbn [inject_Z Qnum].
  destruct (Z.eqb_spec (Qfloor (y + (1 # 2))) 0) as [->|_]; reflexivity.
Qed.

(** The percentage of a count that is a number, over an infinite total. *)
Lemma percent_of_infinite (d : jsnum) :
  d = PosInf \/ (exists a, d = Fin a) ->
  num_or_zero (Math_round (Double.mul (Double.div d PosInf) (Fin 100)))
  = Fin 0.
Proof. intros [->|[a ->]]; reflexivity. Qed.

(** The sum of two numbers that are not negative. *)
Lemma add_nonneg (x y : jsnum) (a b : Q) :
  x = Fin a -> y = Fin b -> (0 <= a)%Q -> (0 <= b)%Q ->
  (exists s, Double.add x y = Fin s /\ Double.close (a + b) s)
  \/ Double.add x y = PosInf.
Proof.
  intros -> -> Ha Hb. cbn [Double.add].
  destruct (@round_nonneg (a + b)%Q ltac:(lra)) as [H|[H _]];
    [left; exact H | right; exact H].
Qed.

(** The integers nearest to three numbers that are each between 0 and 100
    and together 100, all up to a hundredth. *)
Lemma nearest_to_shares (yp yn yu : Q) :
  (- (1 # 100) <= yp <= 100 + (1 # 100))%Q ->
  (- (1 # 100) <= yn <= 100 + (1 # 100))%Q ->
  (- (1 # 100) <= yu <= 100 + (1 # 100))%Q ->
  (100 - (1 # 100) <= yp + yn + yu <= 100 + (1 # 100))%Q ->
  let kp := Qfloor (yp + (1 # 2)) in
  let kn := Qfloor (yn + (1 # 2)) in
  let ku := Qfloor (yu + (1 # 2)) in
  (0 <= kp <= 100 /\ 0 <= kn <= 100 /\ 0 <= ku <= 100
   /\ 99 <= kp + kn + ku <= 101)%Z.
Proof.
  intros Hp Hn Hu Hs kp kn ku.
  pose proof (Qfloor_le (yp + (1 # 2))) as Lp.
  pose proof (Qlt_floor (yp + (1 # 2))) as Up.
  pose proof (Qfloor_le (yn + (1 # 2))) as Ln.
  pose proof (Qlt_floor (yn + (1 # 2))) as Un.
  pose proof (Qfloor_le (yu + (1 # 2))) as Lu.
  pose proof (Qlt_floor (yu + (1 # 2))) as Uu.
  fold kp in Lp, Up. fold kn in Ln, Un. fold ku in Lu, Uu.
  rewrite inject_Z_plus in Up, Un, Uu.
  change (inject_Z 1) with 1%Q in Up, Un, Uu.
  assert (Bp : (-1 < kp < 101)%Z).
  { split; rewrite Zlt_Qlt;
      [change (inject_Z (-1)) with (-1)%Q
      |change (inject_Z 101) with 101%Q]; lra. }
  assert (Bn : (-1 < kn < 101)%Z).
  { split; rewrite Zlt_Qlt;
      [change (inject_Z (-1)) with (-1)%Q
      |change (inject_Z 101) with 101%Q]; lra. }
  assert (Bu : (-1 < ku < 101)%Z).
  { split; rewrite Zlt_Qlt;
      [change (inject_Z (-1)) with (-1)%Q
      |change (inject_Z 101) with 101%Q]; lra. }
  assert (Bs : (98 < kp + kn + ku < 102)%Z).
  { split; rewrite Zlt_Qlt, !inject_Z_plus;
      [change (inject_Z 98) with 98%Q | change (inject_Z 102) with 102%Q];
      lra. }
  lia.
Qed.

(** The percentage of the share [d] of a total [D] that the code holds as
    [t]: the integer nearest to a number within a thousandth of
    [100 * d / t]. *)
Lemma percent_of_share (d t D : Q) :
  (0 <= d <= D)%Q -> (1 # 2 <= D)%Q ->
  ((1 - (7 # 1000000)) * D <= t <= (1 + (7 # 1000000)) * D)%Q ->
  exists y,
    num_or_zero (Math_round (Double.mul (Double.div (Fin d) (Fin t)) (Fin 100)))
    = Fin (inject_Z (Qfloor (y + (1 # 2))))
    /\ (100 * (d / t) - (1 # 1000) <= y <= 100 * (d / t) + (1 # 1000))%Q.
Proof.
  intros Hd HD Ht.
  assert (Htpos : (0 < t)%Q) by lra.
  assert (Hz : is_zero t = false).
  { unfold is_zero. apply Z.eqb_neq. intros E.
    destruct t as [n den]. cbn [Qnum] in E. subst n.
    unfold Qlt in Htpos. simpl in Htpos. lia. }
  assert (H4 : (1000 <= Double.pow2 1023)%Q)
    by (apply Qle_bool_iff; reflexivity).
  assert (Hq0 : (0 <= d / t)%Q) by (apply Qle_shift_div_l; lra).
  assert (Hq1 : (d / t <= 2)%Q) by (apply Qle_shift_div_r; lra).
  cbn [Double.div]. rewrite Hz.
  destruct (@round_nonneg (d / t)%Q Hq0) as [(x & Ex & H0 & Hup & Hlo)|[_ Hbig]];
    [|lra].
  rewrite Ex. cbn [Double.mul].
  destruct (@round_nonneg (x * 100)%Q ltac:(lra))
    as [(y & Ey & Hy0 & Hyup & Hylo)|[_ Hbig]]; [|lra].
  rewrite Ey. exists y. split; [apply round_or_zero|]. lra.
Qed.

(** The three percentages of a row. Without mentions, or when the total of
    the counts is [Infinity], each is 0. Otherwise they are the integers
    nearest to three numbers from 0 to 100 that add up to 100, all up to a
    hundredth. *)
Lemma percentages_of_row (item : SentimentRow) :
  ((positive_count item + negative_count item + neutral_count item = 0
    \/ total_count item = PosInf)
   /\ percentage (positive_count item) item = Fin 0
   /\ percentage (negative_count item) item = Fin 0
   /\ percentage (neutral_count item) item = Fin 0)
  \/ exists yp yn yu : Q,
       percentage (positive_count item) item
       = Fin (inject_Z (Qfloor (yp + (1 # 2))))
       /\ percentage (negative_count item) item
          = Fin (inject_Z (Qfloor (yn + (1 # 2))))
       /\ percentage (neutral_count item) item
          = Fin (inject_Z (Qfloor (yu + (1 # 2))))
       /\ (- (1 # 100) <= yp <= 100 + (1 # 100))%Q
       /\ (- (1 # 100) <= yn <= 100 + (1 # 100))%Q
       /\ (- (1 # 100) <= yu <= 100 + (1 # 100))%Q
       /\ (100 - (1 # 100) <= yp + yn + yu <= 100 + (1 # 100))%Q.
Proof.
  unfold percentage.
  assert (Hinf : total_count item = PosInf ->
    forall d, d = PosInf \/ (exists a, d = Fin a) ->
      num_or_zero
        (Math_round (Double.mul (Double.div d (total_count item)) (Fin 100)))
      = Fin 0).
  { intros -> d Hd. now apply percent_of_infinite. }
  assert (Hnum : forall n,
    Double.of_N n = PosInf \/ (exists a, Double.of_N n = Fin a)).
  { intros n. destruct (of_N_cases n) as [[_ E]|[(_ & a & E & _)|[_ E]]];
      eauto. }
  assert (Hdeg : total_count item = PosInf ->
    (positive_count item + negative_count item + neutral_count item = 0
     \/ total_count item = PosInf)
    /\ num_or_zero
         (Math_round (Double.mul (Double.div (Double.of_N (positive_count item))
                                             (total_count item)) (Fin 100)))
       = Fin 0
    /\ num_or_zero
         (Math_round (Double.mul (Double.div (Double.of_N (negative_count item))
                                             (total_count item)) (Fin 100)))
       = Fin 0
    /\ num_or_zero
         (Math_round (Double.mul (Double.div (Double.of_N (neutral_count item))
                                             (total_count item)) (Fin 100)))
       = Fin 0).
  { intros E. split; [right; exact E|].
    split; [|split]; apply (Hinf E); apply Hnum. }
  (* the three counts as numbers *)
  assert (Hshape : forall n,
    Double.of_N n = PosInf
    \/ exists a, Double.of_N n = Fin a
                 /\ ((n = 0 /\ a = 0%Q) \/ (0 < n /\ (1 # 2 <= a)%Q))).
  { intros n. destruct (of_N_cases n) as [[Hn E]|[(Hn & a & E & Ha)|[_ E]]].
    - right. exists 0%Q. split; [exact E|]. left. split; [exact Hn|reflexivity].
    - right. exists a. split; [exact E|]. right. split; assumption.
    - left. exact E. }
  destruct (Hshape (positive_count item)) as [Ep|(a & Ep & Ha)].
  { left. apply Hdeg. unfold total_count. rewrite Ep.
    destruct (Hnum (negative_count item)) as [->|[b ->]];
      destruct (Hnum (neutral_count item)) as [->|[c ->]]; reflexivity. }
  destruct (Hshape (negative_count item)) as [En|(b & En & Hb)].
  { left. apply Hdeg. unfold total_count. rewrite Ep, En.
    destruct (Hnum (neutral_count item)) as [->|[c ->]]; reflexivity. }
  assert (Ha0 : (0 <= a)%Q) by (destruct Ha as [[_ ->]|[_ H]]; lra).
  assert (Hb0 : (0 <= b)%Q) by (destruct Hb as [[_ ->]|[_ H]]; lra).
  destruct (add_nonneg Ep En Ha0 Hb0) as [(s & Es & Hs0 & Hsup & Hslo)|Es].
  2:{ left. apply Hdeg. unfold total_count. rewrite Es.
      destruct (Hnum (neutral_count item)) as [->|[c ->]]; reflexivity. }
  destruct (Hshape (neutral_count item)) as [Eu|(c & Eu & Hc)].
  { left. apply Hdeg. unfold total_count. rewrite Es, Eu. reflexivity. }
  assert (Hc0 : (0 <= c)%Q) by (destruct Hc as [[_ ->]|[_ H]]; lra).
  destruct (add_nonneg Es Eu Hs0 Hc0) as [(t & Et & Ht0 & Htup & Htlo)|Et].
  2:{ left. apply Hdeg. exact Et. }
  fold (total_count item) in Et.
  (* no mentions at all *)
  destruct (N.eq_dec
              (positive_count item + negative_count item + neutral_count item)
              0) as [Hzero|Hsome].
  { left. split; [left; exact Hzero|].
    assert (Hp : positive_count item = 0) by lia.
    assert (Hn : negative_count item = 0) by lia.
    assert (Hu : neutral_count item = 0) by lia.
    unfold total_count. rewrite Hp, Hn, Hu. repeat split; reflexivity. }
  right.
  assert (HD : (1 # 2 <= a + b + c)%Q).
  { destruct Ha as [[Hp _]|[_ Ha]]; [|lra].
    destruct Hb as [[Hn _]|[_ Hb]]; [|lra].
    destruct Hc as [[Hu _]|[_ Hc]]; [|lra]. lia. }
  assert (Ht : ((1 - (7 # 1000000)) * (a + b + c) <= t
                <= (1 + (7 # 1000000)) * (a + b + c))%Q) by lra.
  assert (Htpos : (0 < t)%Q) by lra.
  rewrite Ep, En, Eu, Et.
  destruct (@percent_of_share a t (a + b + c)%Q ltac:(lra) HD Ht)
    as (yp & Eyp & Hyp).
  destruct (@percent_of_share b t (a + b + c)%Q ltac:(lra) HD Ht)
    as (yn & Eyn & Hyn).
  destruct (@percent_of_share c t (a + b + c)%Q ltac:(lra) HD Ht)
    as (yu & Eyu & Hyu).
  exists yp, yn, yu. rewrite Eyp, Eyn, Eyu.
  split; [reflexivity|]. split; [reflexivity|]. split; [reflexivity|].
  (* the shares add up to about 1 *)
  assert (Hsum : (a / t + b / t + c / t == (a + b + c) / t)%Q)
    by (unfold Qdiv; ring).
  assert (Hqa : (0 <= a / t)%Q) by (apply Qle_shift_div_l; lra).
  assert (Hqb : (0 <= b / t)%Q) by (apply Qle_shift_div_l; lra).
  assert (Hqc : (0 <= c / t)%Q) by (apply Qle_shift_div_l; lra).
  assert (Hup : ((a + b + c) / t <= 1 + (1 # 100000))%Q)
    by (apply Qle_shift_div_r; lra).
  assert (Hlo : (1 - (1 # 100000) <= (a + b + c) / t)%Q)
    by (apply Qle_shift_div_l; lra).
  repeat split; lra.
Qed.

(** C5, as the code has it. For every sentiment aggregate row the three
    derived percentages are integers whose sum is at most 101: each is
    rounded on its own, half up. *)
Theorem percentages_sum_at_most_101 (item : SentimentRow) :
  percentages_sum_at_most 101 (format_sentiment item).
Proof.
  unfold percentages_sum_at_most, format_sentiment.
  cbn [positive negative neutral].
  destruct (percentages_of_row item)
    as [(_ & -> & -> & ->)
       |(yp & yn & yu & -> & -> & -> & Hp & Hn & Hu & Hs)].
  - exists 0%Z, 0%Z, 0%Z. repeat split. lia.
  - destruct (nearest_to_shares Hp Hn Hu Hs) as (_ & _ & _ & _ & Hsum).
    do 3 eexists. split; [reflexivity|]. split; [reflexivity|].
    split; [reflexivity|]. exact Hsum.
Qed.

(** C5 as stated fails: with 1 positive, 1 negative and 6 neutral mentions
    the percentages are 13, 13 and 75, which sum to 101. *)
Lemma percentages_can_sum_to_101 :
  positive (format_sentiment row_1_1_6) = Fin 13
  /\ negative (format_sentiment row_1_1_6) = Fin 13
  /\ neutral (format_sentiment row_1_1_6) = Fin 75
  /\ ~ percentages_sum_at_most 100 (format_sentiment row_1_1_6).
Proof.
  repeat split; try (vm_compute; reflexivity).
  intros (a & b & c & Ha & Hb & Hc & Hsum).
  vm_compute in Ha, Hb, Hc.
  injection Ha as Ha. injection Hb as Hb. injection Hc as Hc. lia.
Qed.

Lemma zero_counts_percentage item :
  no_mentions item ->
  percentage (positive_count item) item = Fin 0
  /\ percentage (negative_count item) item = Fin 0
  /\ percentage (neutral_count item) item = Fin 0.
Proof.
  intros (Hp & Hn & Hu). unfold percentage, total_count. rewrite Hp, Hn, Hu.
  repeat split; reflexivity.
Qed.

(** C6. When the sentiment query answers with rows, the fetcher returns
    normally, and every row whose three counts are 0 gets a positive and a
    negative percentage of 0: the NaN of 0/0 is replaced by 0. *)
Theorem zero_mentions_give_zero_percentages
    (supabase : Supabase) (carId : N) (rows : list SentimentRow) :
  review_analysis supabase carId = Resolved (Some rows) None ->
  getReviewSentiment supabase carId = Ok (List.map format_sentiment rows)
  /\ Forall (fun item =>
       no_mentions item ->
       positive (format_sentiment item) = Fin 0
       /\ negative (format_sentiment item) = Fin 0)
     rows.
Proof.
  intros Hq. split.
  - unfold getReviewSentiment. rewrite Hq. reflexivity.
  - apply List.Forall_forall. intros item _ Hz.
    destruct (zero_counts_percentage Hz) as (Hp & Hn & _).
    split; [exact Hp | exact Hn].
Qed.

End SentimentFacts.

Lemma zero_mentions_give_zero_percentages_witness :
  getReviewSentiment unreviewed_store 7
  = Ok (List.map format_sentiment [unreviewed_row])
  /\ positive (format_sentiment unreviewed_row) = Fin 0
  /\ negative (format_sentiment unreviewed_row) = Fin 0.
Proof.
  destruct (@zero_mentions_give_zero_percentages unreviewed_store 7
              [unreviewed_row] eq_refl) as [Hok Hall].
  split; [exact Hok|].
  apply (Forall_inv Hall). split; [|split]; reflexivity.
Defined.

(** ** Decimal strings order as numbers *)

Section Digits.
Lemma digits_rev_value fuel : forall n,
  n < 10 ^ N.of_nat fuel ->
  value_le (digits_rev fuel n) = n /\ Forall (fun d => d < 10) (digits_rev fuel n).
Proof.
  induction fuel as [|fuel IH]; intros n Hn.
  - simpl in Hn. assert (n = 0) as -> by lia. simpl. auto.
  - cbn [digits_rev]. destruct (N.ltb_spec n 10) as [Hlt|Hge].
    + simpl. split; [lia|]. repeat constructor. exact Hlt.
    + rewrite Nat2N.inj_succ, N.pow_succ_r' in Hn.
      assert (Hq : n / 10 < 10 ^ N.of_nat fuel).
      { apply N.Div0.div_lt_upper_bound. exact Hn. }
      destruct (IH _ Hq) as [Hv Hd].
      cbn [value_le]. rewrite Hv. split.
      * pose proof (N.div_mod n 10 ltac:(lia)). lia.
      * constructor; [apply N.mod_lt; lia | exact Hd].
Qed.

Lemma enough_fuel n : n < 10 ^ N.of_nat (S (N.to_nat (N.size n))).
Proof.
  rewrite Nat2N.inj_succ, N2Nat.id.
  apply N.lt_le_trans with (2 ^ N.size n).
  - apply N.size_gt.
  - apply N.le_trans with (10 ^ N.size n).
    + apply N.pow_le_mono_l. lia.
    + apply N.pow_le_mono_r; lia.
Qed.

Lemma fold_left_value_be ds : forall acc,
  List.fold_left (fun acc d => 10 * acc + d) ds acc
  = acc * 10 ^ N.of_nat (List.length ds) + value_be ds.
Proof.
  unfold value_be.
  induction ds as [|d ds IH]; intros acc.
  - simpl. lia.
  - cbn [List.fold_left List.length]. rewrite IH, (IH (10 * 0 + d)).
    rewrite Nat2N.inj_succ, N.pow_succ_r'. lia.
Qed.

Lemma value_be_cons d ds :
  value_be (d :: ds) = d * 10 ^ N.of_nat (List.length ds) + value_be ds.
Proof.
  unfold value_be at 1. cbn [List.fold_left]. rewrite fold_left_value_be. lia.
Qed.

Lemma value_be_app ds d : value_be (ds ++ [d]) = 10 * value_be ds + d.
Proof. unfold value_be. rewrite fold_left_app. reflexivity. Qed.

Lemma value_be_rev ds : value_be (rev ds) = value_le ds.
Proof.
  induction ds as [|d ds IH]; [reflexivity|].
  cbn [rev value_le]. rewrite value_be_app, IH. lia.
Qed.

Lemma value_be_bound ds :
  Forall (fun d => d < 10) ds -> value_be ds < 10 ^ N.of_nat (List.length ds).
Proof.
  induction 1 as [|d ds Hd Hds IH].
  - reflexivity.
  - rewrite value_be_cons. cbn [List.length].
    rewrite Nat2N.inj_succ, N.pow_succ_r'.
    set (p := 10 ^ N.of_nat (List.length ds)) in *.
    assert (d * p <= 9 * p) by (apply N.mul_le_mono_r; lia). lia.
Qed.

(** Digit strings of one length compare as the numbers they denote. *)
Lemma str_lt_digits u : forall v,
  List.length u = List.length v ->
  Forall (fun d => d < 10) u -> Forall (fun d => d < 10) v ->
  str_lt u v = (value_be u <? value_be v).
Proof.
  induction u as [|a u IH]; intros [|b v] Hlen Hu Hv; try discriminate.
  - reflexivity.
  - injection Hlen as Hlen. inversion Hu as [|? ? Ha Hu']; subst.
    inversion Hv as [|? ? Hb Hv']; subst.
    cbn [str_lt]. rewrite (IH v Hlen Hu' Hv'), !value_be_cons, <- Hlen.
    pose proof (value_be_bound Hu') as Bu. pose proof (value_be_bound Hv') as Bv.
    rewrite <- Hlen in Bv. set (p := 10 ^ N.of_nat (List.length u)) in *.
    destruct (N.ltb_spec a b) as [Hab|Hab]; cbn [orb].
    + symmetry. apply N.ltb_lt. nia.
    + destruct (N.eqb_spec a b) as [->|Hne]; cbn [andb].
      * destruct (N.ltb_spec (value_be u) (value_be v));
          symmetry; [apply N.ltb_lt | apply N.ltb_ge]; nia.
      * symmetry. apply N.ltb_ge. nia.
Qed.

Lemma str_lt_shift (k : N) u : forall v,
  str_lt (List.map (fun d => k + d) u) (List.map (fun d => k + d) v) = str_lt u v.
Proof.
  induction u as [|a u IH]; intros [|b v]; try reflexivity.
  cbn [List.map str_lt]. rewrite IH.
  f_equal; [|f_equal].
  - destruct (N.ltb_spec (k + a) (k + b)), (N.ltb_spec a b); auto; lia.
  - destruct (N.eqb_spec (k + a) (k + b)), (N.eqb_spec a b); auto; lia.
Qed.

Lemma toString_digits n : toString n = List.map (fun d => 48 + d) (digits n).
Proof. reflexivity. Qed.

Lemma digits_value n : value_be (digits n) = n /\ Forall (fun d => d < 10) (digits n).
Proof.
  unfold digits. destruct (@digits_rev_value _ _ (enough_fuel n)) as [Hv Hd].
  rewrite value_be_rev. split; [exact Hv|].
  apply List.Forall_forall. intros d Hin. apply in_rev in Hin.
  revert d Hin. now apply List.Forall_forall.
Qed.

Lemma toString_order a b :
  List.length (toString a) = List.length (toString b) ->
  str_lt (toString a) (toString b) = (a <? b).
Proof.
  rewrite !toString_digits, !length_map. intros Hlen.
  rewrite str_lt_shift.
  destruct (digits_value a) as [Ha Da]. destruct (digits_value b) as [Hb Db].
  rewrite (str_lt_digits Hlen Da Db), Ha, Hb. reflexivity.
Qed.

End Digits.

(** ** Sorting and removing duplicates *)

Section Arrays.
Context {A : Type}.

Lemma insert_sorted_perm (before : A -> A -> bool) x l :
  Permutation (insert_sorted before x l) (x :: l).
Proof.
  induction l as [|y l IH]; cbn [insert_sorted]; [reflexivity|].
  destruct (before y x); [|reflexivity].
  rewrite IH. apply perm_swap.
Qed.

Lemma sort_by_perm (before : A -> A -> bool) l : Permutation (sort_by before l) l.
Proof.
  unfold sort_by. induction l as [|x l IH]; cbn [List.fold_right]; [reflexivity|].
  rewrite insert_sorted_perm. now constructor.
Qed.

Lemma insert_sorted_sorted (before : A -> A -> bool) x l :
  (forall a b, before a b = true -> before b a = false) ->
  Sorted (not_after before) l ->
  Sorted (not_after before) (insert_sorted before x l).
Proof.
  intros Hasym. induction 1 as [|y l Hs IH Hhd]; cbn [insert_sorted].
  - repeat constructor.
  - destruct (before y x) eqn:E.
    + constructor; [exact IH|].
      destruct Hhd as [|z l Hyz]; cbn [insert_sorted].
      * constructor. now apply Hasym.
      * destruct (before z x); constructor; [exact Hyz | now apply Hasym].
    + constructor; [now constructor|]. constructor. exact E.
Qed.

Lemma sort_by_sorted (before : A -> A -> bool) l :
  (forall a b, before a b = true -> before b a = false) ->
  Sorted (not_after before) (sort_by before l).
Proof.
  intros Hasym. unfold sort_by.
  induction l as [|x l IH]; cbn [List.fold_right]; [constructor|].
  now apply insert_sorted_sorted.
Qed.

End Arrays.

Lemma dedupe_In (l : list N) y : In y (dedupe N.eqb l) <-> In y l.
Proof.
  induction l as [|x l IH]; cbn [dedupe]; [reflexivity|].
  cbn [In]. rewrite filter_In, IH.
  destruct (N.eqb_spec x y) as [->|Hne]; cbn [negb]; intuition congruence.
Qed.

Lemma dedupe_NoDup (l : list N) : List.NoDup (dedupe N.eqb l).
Proof.
  induction l as [|x l IH]; cbn [dedupe]; constructor.
  - rewrite filter_In. intros [_ Hx]. now rewrite N.eqb_refl in Hx.
  - now apply List.NoDup_filter.
Qed.

Lemma str_lt_asym a : forall b, str_lt a b = true -> str_lt b a = false.
Proof.
  induction a as [|x a IH]; intros [|y b]; cbn [str_lt]; try congruence.
  intros H.
  destruct (N.ltb_spec x y), (N.ltb_spec y x), (N.eqb_spec x y), (N.eqb_spec y x);
    cbn [orb andb] in *; try lia; try congruence.
  now apply IH.
Qed.

Lemma sorted_years_In events y :
  In y (sorted_years events) <-> In y (List.map year events).
Proof.
  unfold sorted_years. rewrite <- (dedupe_In (List.map year events) y).
  split; apply Permutation_in; [|symmetry]; apply sort_by_perm.
Qed.

Lemma sorted_years_NoDup events : List.NoDup (sorted_years events).
Proof.
  unfold sorted_years.
  eapply Permutation_NoDup; [symmetry; apply sort_by_perm|]. apply dedupe_NoDup.
Qed.

Lemma sorted_lt_of_not_after (R : N -> N -> Prop) (l : list N) :
  List.NoDup l -> Sorted R l ->
  (forall a b, In a l -> In b l -> R a b -> a <> b -> a < b) ->
  Sorted N.lt l.
Proof.
  intros Hnd Hs. induction Hs as [|a l Hs IH Hhd]; intros Hlt; [constructor|].
  inversion Hnd as [|? ? Hnotin Hnd']; subst.
  constructor.
  - apply IH; [exact Hnd'|]. intros x y Hx Hy. apply Hlt; now right.
  - destruct Hhd as [|b l Hab]; constructor.
    apply Hlt; [now left | right; now left | exact Hab |].
    intros ->. apply Hnotin. now left.
Qed.

Lemma sorted_years_ascending events :
  same_width events -> StronglySorted N.lt (sorted_years events).
Proof.
  intros Hw. apply Sorted_StronglySorted; [exact N.lt_strorder.(StrictOrder_Transitive)|].
  eapply sorted_lt_of_not_after.
  - apply sorted_years_NoDup.
  - unfold sorted_years. apply sort_by_sorted.
    intros a b. apply str_lt_asym.
  - intros a b Ha Hb Hab Hne. unfold not_after in Hab.
    apply sorted_years_In, in_map_iff in Ha as (ea & <- & Hea).
    apply sorted_years_In, in_map_iff in Hb as (eb & <- & Heb).
    rewrite (@toString_order _ _ (Hw eb ea Heb Hea)) in Hab.
    apply N.ltb_ge in Hab. lia.
Qed.

(** ** Trend shaping *)

Lemma find_filter {A} (p q : A -> bool) l :
  List.find p (List.filter q l) = List.find (fun x => q x && p x) l.
Proof.
  induction l as [|x l IH]; [reflexivity|].
  cbn [List.filter List.find]. destruct (q x); cbn [List.find andb]; [|exact IH].
  destruct (p x); [reflexivity | exact IH].
Qed.

Lemma series_value_first events y t :
  cell_of_first
    (series_value (List.filter (fun item => year item =? y) events) t)
    (first_event events y t).
Proof.
  unfold series_value, find, first_event, cell_of_first.
  rewrite find_filter.
  destruct (List.find _ events) as [e|]; [|reflexivity].
  intros Ht. unfold or_else. now rewrite Ht.
Qed.

(** C3, as the code has it. For every list of timeline events, trend
    shaping produces one time-series point per distinct year, labelled with
    the year as a string, in ascending year order when all years print with
    the same number of digits; for each of the series Safety, Performance
    and Technology a point carries null when the year has no event of that
    type, and the score of the first such event, in the order fetched, when
    that score is truthy; yDomain is [0,5]. The single event
    {year 2020, safety, 4.0} gives
    [{label "2020", Safety 4.0, Performance null, Technology null}]. *)
Theorem trend_points_by_year (events : list TimelineRow) :
  let years := sorted_years events in
  trend_payload events
  = TrendPayload (List.map (year_point events) years) trend_series (0, 5)
  /\ List.NoDup years
  /\ (forall y, In y years <-> exists e, In e events /\ year e = y)
  /\ (same_width events -> StronglySorted N.lt years)
  /\ (forall y,
        point_label (year_point events y) = toString y
        /\ cell_of_first (Safety (year_point events y))
             (first_event events y (lit "safety"))
        /\ cell_of_first (Performance (year_point events y))
             (first_event events y (lit "performance"))
        /\ cell_of_first (Technology (year_point events y))
             (first_event events y (lit "technology")))
  /\ timeSeriesData_of (trend_payload [event 2020 "safety" 4])
     = [ {| point_label := lit "2020"; Safety := JNum (Fin 4);
            Performance := JNull; Technology := JNull |} ].
Proof.
  intros years. split; [reflexivity|]. split; [apply sorted_years_NoDup|].
  split; [|split; [apply sorted_years_ascending|split]].
  - intros y. unfold years. rewrite sorted_years_In, in_map_iff.
    split; intros (e & H1 & H2); exists e; auto.
  - intros y. cbn [year_point point_label Safety Performance Technology].
    split; [reflexivity|]. split; [|split]; apply series_value_first.
  - vm_compute. reflexivity.
Qed.

Lemma trend_points_by_year_witness :
  StronglySorted N.lt (sorted_years model_years)
  /\ Safety (year_point model_years 2016) = JNum (Fin 3)
  /\ Performance (year_point model_years 2019) = JNull.
Proof.
  destruct (trend_points_by_year model_years)
    as (_ & _ & _ & Hsorted & Hcells & _).
  split; [|split].
  - apply Hsorted. intros a b Ha Hb.
    repeat (destruct Ha as [<-|Ha]; [|]); try contradiction;
    repeat (destruct Hb as [<-|Hb]; [|]); try contradiction; reflexivity.
  - destruct (Hcells 2016) as (_ & Hs & _). apply Hs. reflexivity.
  - destruct (Hcells 2019) as (_ & _ & Hp & _). exact Hp.
Defined.

(** C3 as stated fails: of two safety events in one year the series
    carries the score of the first, 2, not that of the most significant,
    4. *)
Lemma first_event_not_most_significant :
  timeSeriesData_of (trend_payload two_safety_events)
  = [ {| point_label := lit "2020"; Safety := JNum (Fin 2);
         Performance := JNull; Technology := JNull |} ]
  /\ most_significant_series two_safety_events
     = [ {| point_label := lit "2020"; Safety := JNum (Fin 4);
            Performance := JNull; Technology := JNull |} ]
  /\ timeSeriesData_of (trend_payload two_safety_events)
     <> most_significant_series two_safety_events.
Proof.
  split; [vm_compute; reflexivity|]. split; [vm_compute; reflexivity|].
  vm_compute. intros H. discriminate H.
Qed.

(** ** Comparison shaping *)

(** C2 fails on the code. When the features query fails, [getCarFeatures]
    returns the empty mapping, and comparison shaping then reads a category
    off [features[carData.id]], which is undefined: it throws a TypeError
    where the claim has it return a payload of placeholders. *)
Theorem comparison_throws_without_features
    (supabase : Supabase) (random : nat -> Q) (carData : Car) (i : nat) :
  (forall carIds, failed (car_features supabase carIds)) ->
  (forall carIds, getCarFeatures supabase carIds = Ok ∅)
  /\ generateVisualizationData supabase random (Some comparison) carData i
     = (Throw TypeError, i).
Proof.
  intros Hdown.
  assert (Hfeat : forall carIds, getCarFeatures supabase carIds = Ok ∅).
  { intros carIds. apply with_data_failed; auto. }
  split; [exact Hfeat|].
  cbn [generateVisualizationData]. unfold shape_comparison.
  destruct (getCarRelationships_total supabase (car_id carData)) as [rels Hrels].
  unfold bindM at 1. unfold lift at 1. rewrite Hrels.
  unfold bindM at 1. unfold lift at 1. rewrite Hfeat.
  reflexivity.
Qed.

Lemma comparison_throws_without_features_witness :
  generateVisualizationData features_down half (Some comparison) civic 0%nat
  = (Throw TypeError, 0%nat).
Proof.
  apply (@comparison_throws_without_features features_down half civic 0%nat).
  intros carIds. exact I.
Defined.

Lemma for_each_car_lookup rows : forall carIds acc,
  exists m,
    for_each_car (Some rows) carIds acc = Ok m
    /\ (forall id, In id carIds -> is_Some (m !! id))
    /\ (forall id, is_Some (acc !! id) -> is_Some (m !! id)).
Proof.
  induction carIds as [|id rest IH]; intros acc; cbn [for_each_car as_array bind].
  - exists acc. split; [reflexivity|]. split; [intros ? []|auto].
  - destruct (IH (<[id := group_car_features rows id]> acc)) as (m & Hm & Hin & Hkeep).
    exists m. split; [exact Hm|]. split.
    + intros id' [<-|Hrest]; [|auto].
      apply Hkeep. rewrite lookup_insert_eq. eauto.
    + intros id' Hsome. apply Hkeep.
      destruct (decide (id = id')) as [->|Hne].
      * rewrite lookup_insert_eq. eauto.
      * now rewrite lookup_insert_ne.
Qed.

Lemma category_value_ok random features id cat i :
  is_Some (features !! id) ->
  exists v j,
    category_value random features id cat i = (Ok v, j)
    /\ rated_or_placeholder random features id cat v.
Proof.
  intros [entry Hentry]. unfold category_value, rated_or_placeholder.
  rewrite Hentry.
  destruct (entry !! cat) as [table|] eqn:Hcat;
    [destruct (table !! lit "overall") as [v|] eqn:Hov|].
  - destruct (truthy v) eqn:Ht.
    + exists v, i. split; [reflexivity|]. left. split; [exact Ht|]. eauto.
    + do 2 eexists. split; [reflexivity|]. right. eauto.
  - do 2 eexists. split; [reflexivity|]. right. eauto.
  - do 2 eexists. split; [reflexivity|]. right. eauto.
Qed.

Lemma mapM_ok {A B} (f : A -> M B) (P : A -> B -> Prop) xs :
  (forall x i, In x xs -> exists y j, f x i = (Ok y, j) /\ P x y) ->
  forall i, exists ys j, mapM f xs i = (Ok ys, j) /\ Forall2 P xs ys.
Proof.
  induction xs as [|x xs IH]; intros Hf i; cbn [mapM].
  - exists [], i. split; [reflexivity | constructor].
  - destruct (Hf x i (or_introl eq_refl)) as (y & j & Hy & HP).
    destruct (IH (fun x' i' Hin => Hf x' i' (or_intror Hin)) j) as (ys & k & Hys & HPs).
    exists (y :: ys), k. unfold bindM at 1. rewrite Hy.
    unfold bindM at 1. rewrite Hys. split; [reflexivity | now constructor].
Qed.

Lemma competitor_entity_ids competitors : forall n,
  List.map entity_id (mapi_from n competitor_entity competitors)
  = List.map related_id competitors.
Proof.
  induction competitors as [|c cs IH]; intros n; [reflexivity|].
  cbn [List.map mapi_from competitor_entity entity_id]. f_equal. apply IH.
Qed.

Lemma mapi_from_length {A B} (f : nat -> A -> B) xs : forall n,
  List.length (mapi_from n f xs) = List.length xs.
Proof.
  induction xs as [|x xs IH]; intros n; cbn [mapi_from List.length];
    [reflexivity | now rewrite IH].
Qed.

Lemma competitor_rows (P : N -> list jsval -> Prop) competitors others :
  Forall2 (fun comp row => P (related_id comp) row) competitors others ->
  forall n,
    Forall2 (fun e row => P (entity_id e) row)
      (mapi_from n competitor_entity competitors) others.
Proof.
  induction 1 as [|c row cs rows' Hc Hcs IH]; intros n; cbn [mapi_from];
    constructor; auto.
Qed.

(** With the features query answered, comparison shaping returns a payload
    with one row of five cells per entity. *)
Lemma comparison_shaped_with_features
    (supabase : Supabase) (random : nat -> Q) (carData : Car) (i : nat)
    (rows : list FeatureRow) :
  (forall carIds, car_features supabase carIds = Resolved (Some rows) None) ->
  exists features entities values j,
    getCarFeatures supabase (List.map entity_id entities) = Ok features
    /\ generateVisualizationData supabase random (Some comparison) carData i
       = (Ok (ComparisonPayload categories entities values), j)
    /\ (List.length entities <= 3)%nat
    /\ Forall2 (fun e row =>
                  Forall2 (rated_or_placeholder random features (entity_id e))
                    categories row)
         entities values.
Proof.
  intros Hup.
  cbn [generateVisualizationData]. unfold shape_comparison.
  destruct (getCarRelationships_total supabase (car_id carData)) as [rels Hrels].
  set (competitors := firstn 2 (List.filter
         (fun rel => str_eqb (type rel) (lit "competitor")) rels)).
  set (carIds := car_id carData :: List.map related_id competitors).
  destruct (for_each_car_lookup rows carIds ∅) as (features & Hfor & Hin & _).
  assert (Hfeat : getCarFeatures supabase carIds = Ok features).
  { unfold getCarFeatures. rewrite Hup. cbn [with_data]. rewrite Hfor. reflexivity. }
  assert (Hcell : forall id cat k, In id carIds ->
            exists v j, category_value random features id cat k = (Ok v, j)
                        /\ rated_or_placeholder random features id cat v).
  { intros id cat k Hid. apply category_value_ok. now apply Hin. }
  assert (Hrow : forall id k, In id carIds ->
            exists row j,
              mapM (category_value random features id) categories k = (Ok row, j)
              /\ Forall2 (rated_or_placeholder random features id) categories row).
  { intros id k Hid. apply mapM_ok. intros cat k' _. now apply Hcell. }
  destruct (Hrow (car_id carData) i (or_introl eq_refl))
    as (own & j1 & Hown & Pown).
  assert (Hrows : exists others j2,
            mapM (fun comp => mapM (category_value random features (related_id comp))
                                categories) competitors j1 = (Ok others, j2)
            /\ Forall2 (fun comp row =>
                          Forall2 (rated_or_placeholder random features
                                     (related_id comp)) categories row)
                 competitors others).
  { apply mapM_ok. intros comp k Hcomp. apply Hrow.
    right. apply in_map. exact Hcomp. }
  destruct Hrows as (others & j2 & Hothers & Pothers).
  exists features. do 2 eexists. exists j2. split; [|split; [|split]].
  2:{ unfold bindM at 1. unfold lift at 1. rewrite Hrels.
      fold competitors. fold carIds.
      unfold bindM at 1. unfold lift at 1. rewrite Hfeat.
      unfold bindM at 1. rewrite Hown.
      unfold bindM at 1. rewrite Hothers. reflexivity. }
  - cbn [List.map entity_id]. rewrite competitor_entity_ids. exact Hfeat.
  - cbn [List.length]. rewrite mapi_from_length.
    unfold competitors. rewrite length_firstn. lia.
  - constructor; [exact Pown|].
    apply (@competitor_rows
             (fun id row => Forall2 (rated_or_placeholder random features id)
                              categories row)).
    exact Pothers.
Qed.

(** A placeholder made from a draw in [0,1) lies in [3,5). *)
Lemma placeholder_range (r : Q) :
  (0 <= r)%Q -> (r < 1)%Q -> (3 <= r * 2 + 3)%Q /\ (r * 2 + 3 < 5)%Q.
Proof. intros H0 H1. split; lra. Qed.

(** ** Relationship shaping *)

(** C9. Relationship shaping returns normally; its node list has one node
    more than there are relationships, the primary vehicle's node first,
    its link list has one link per relationship, every link's source is
    the primary vehicle's id, and each link carries the target, type and
    strength of its relationship. *)
Theorem relationship_graph_sizes
    (supabase : Supabase) (random : nat -> Q) (carData : Car) (i : nat) :
  exists allRelationships primaryNode nodes links,
    getCarRelationships supabase (car_id carData) = Ok allRelationships
    /\ generateVisualizationData supabase random (Some relationship) carData i
       = (Ok (RelationshipPayload primaryNode nodes links), i)
    /\ List.length nodes = (1 + List.length allRelationships)%nat
    /\ List.length links = List.length allRelationships
    /\ Forall (fun l => source l = car_id carData) links
    /\ Forall2 (fun l rel => target l = related_id rel
                             /\ link_type l = type rel
                             /\ link_strength l = strength rel)
         links allRelationships
    /\ List.map node_id nodes
       = car_id carData :: List.map related_id allRelationships.
Proof.
  destruct (getCarRelationships supabase (car_id carData)) as [rels|e] eqn:Hrel.
  2:{ unfold getCarRelationships, try_catch in Hrel.
      destruct (with_data _ _); discriminate. }
  exists rels. do 3 eexists.
  split; [reflexivity|]. split.
  { cbn [generateVisualizationData]. unfold shape_relationship, bindM, lift, ret.
    rewrite Hrel. unfold relationship_payload. reflexivity. }
  cbn [List.length List.map]. rewrite !length_map.
  split; [reflexivity|]. split; [reflexivity|]. split; [|split].
  - apply List.Forall_forall. intros l Hl. apply in_map_iff in Hl as (rel & <- & _).
    reflexivity.
  - clear Hrel. induction rels as [|rel rels IH]; cbn [List.map]; constructor; auto.
  - f_equal. rewrite map_map. reflexivity.
Qed.

(** ** Follow-up suggestions *)

Lemma substring_middle (pre t post : jsstring) : substring t (pre ++ t ++ post).
Proof. exists pre, post. reflexivity. Qed.

Lemma substring_end (pre t : jsstring) : substring t (pre ++ t).
Proof. exists pre, []. now rewrite app_nil_r. Qed.

(** C8. For every vehicle and every conversation length of at most 2, the
    suggestion generator returns exactly 5 suggestions, each containing the
    display name "{year} {manufacturer} {model}"; for the 2022 Honda Civic
    that name is "2022 Honda Civic". *)
Theorem early_suggestions_name_the_car
    (car : Car) (intent : option jsstring) (conversationLength : nat) :
  (conversationLength <= 2)%nat ->
  car_name car
  = toString (car_year car) ++ lit " " ++ manufacturer car ++ lit " " ++ model car
  /\ List.length (generateSuggestions (Some car) intent conversationLength) = 5%nat
  /\ Forall (substring (car_name car))
       (generateSuggestions (Some car) intent conversationLength).
Proof.
  intros Hlen. unfold generateSuggestions.
  apply Nat.leb_le in Hlen. rewrite Hlen.
  split; [reflexivity|]. split; [reflexivity|].
  repeat constructor; auto using substring_middle, substring_end.
Qed.

Lemma early_suggestions_name_the_car_witness :
  car_name civic = lit "2022 Honda Civic"
  /\ List.length (generateSuggestions (Some civic) None 1) = 5%nat
  /\ Forall (substring (lit "2022 Honda Civic"))
       (generateSuggestions (Some civic) None 1).
Proof.
  destruct (@early_suggestions_name_the_car civic None 1 ltac:(lia))
    as (Hname & Hlen & Hall).
  split; [|split].
  - rewrite Hname. vm_compute. reflexivity.
  - exact Hlen.
  - exact Hall.
Defined.

(** ** The chat orchestrator *)

Lemma has_rating_card_app (xs ys : list Component) :
  has_rating_card (xs ++ ys) = has_rating_card xs || has_rating_card ys.
Proof. apply existsb_app. Qed.

Lemma spec_card_no_rating data early : has_rating_card (spec_card data early) = false.
Proof. unfold spec_card. destruct (car_data data), early; reflexivity. Qed.

Lemma scores_card_no_rating a : has_rating_card (scores_card a) = false.
Proof. unfold scores_card. destruct (non_empty _); reflexivity. Qed.

Lemma pros_cons_card_no_rating a : has_rating_card (pros_cons_card a) = false.
Proof. unfold pros_cons_card. destruct (_ || _); reflexivity. Qed.

Lemma sentiment_component_no_rating a :
  has_rating_card (sentiment_component a) = false.
Proof. unfold sentiment_component. destruct (sentiment_counts a); reflexivity. Qed.

Lemma rating_card_iff_truthy a :
  has_rating_card (rating_card a) = truthy (average_rating a).
Proof. unfold rating_card. destruct (truthy _); reflexivity. Qed.

(** C10. When a successful reply carries an analysis, the message appended
    for it has a rating card exactly when [analysis.average_rating] is
    truthy; an average rating of 0 attaches none. *)
Theorem rating_card_iff_truthy_rating
    (st : State) (messageText : jsstring) (data : ChatResponse) (a : Analysis) :
  trim messageText <> [] ->
  analysis data = Some a ->
  exists m cs,
    messages (handleSend st messageText (Replied data))
    = messages st ++ [plain_message messageText user; m]
    /\ components m = Some cs
    /\ (has_rating_card cs = true <-> truthy (average_rating a) = true)
    /\ (average_rating a = JNum (Fin 0) -> has_rating_card cs = false).
Proof.
  intros Htext Ha.
  assert (Hcs : has_rating_card (build_components data (List.length (messages st) <=? 2)%nat)
                = truthy (average_rating a)).
  { unfold build_components. rewrite Ha.
    rewrite !has_rating_card_app, spec_card_no_rating, scores_card_no_rating,
      pros_cons_card_no_rating, sentiment_component_no_rating.
    apply rating_card_iff_truthy. }
  exists (ai_response (messages st) data). eexists.
  split; [|split; [reflexivity|split]].
  - unfold handleSend. cbn [truthy].
    destruct (trim messageText) as [|c t] eqn:E; [congruence|].
    cbn [List.length Nat.eqb negb messages]. now rewrite <- app_assoc.
  - now rewrite Hcs.
  - intros H0. rewrite Hcs, H0. reflexivity.
Qed.

Lemma rating_card_iff_truthy_rating_witness :
  exists m cs,
    messages (handleSend (session (Some civic) 0) (lit "Is it any good?")
                (Replied unrated_reply))
    = [plain_message (lit "Is it any good?") user; m]
    /\ components m = Some cs
    /\ has_rating_card cs = false.
Proof.
  destruct (@rating_card_iff_truthy_rating (session (Some civic) 0)
              (lit "Is it any good?") unrated_reply unrated_analysis)
    as (m & cs & Hm & Hcs & _ & Hzero).
  - vm_compute. discriminate.
  - reflexivity.
  - exists m, cs. split; [exact Hm|]. split; [exact Hcs|].
    apply Hzero. reflexivity.
Defined.

Lemma handleSend_failure st messageText reply :
  trim messageText <> [] -> is_failure reply = true ->
  handleSend st messageText reply
  = let newRetryCount := retryCount (errorState st) + 1 in
    {| messages := (messages st ++ [plain_message messageText user])
                     ++ [error_message newRetryCount (carData st)];
       input := [];
       loading := false;
       showSuggestions := false;
       carData := carData st;
       typingEffect := typingEffect st;
       currentTypingText := currentTypingText st;
       fullResponseText := fullResponseText st;
       errorState := {| hasError := true; retryCount := newRetryCount |};
       timers := timers st ++ fallback_timers newRetryCount (carData st) |}.
Proof.
  intros Htext Hfail. unfold handleSend. cbn [truthy].
  destruct (trim messageText) as [|c t]; [congruence|].
  cbn [List.length Nat.eqb negb].
  destruct reply; try reflexivity. discriminate.
Qed.

(** C4, as the code has it. On a failed chat request for a non-blank
    message the orchestrator increments retryCount and appends, after the
    user's message, exactly one error message whose wording is tier 1 when
    the new retryCount is 1, tier 2 when it is 2 and tier 3 from 3 on, with
    the retry affordance exactly when the new retryCount is below 3; the
    timer then appends the message offering fallback questions about the
    vehicle when the new retryCount is at least 3 and the vehicle's data
    is loaded, and nothing when it is not loaded. *)
Theorem failure_policy (st : State) (messageText : jsstring) (reply : ChatOutcome) :
  trim messageText <> [] ->
  is_failure reply = true ->
  let n := retryCount (errorState st) + 1 in
  let st' := handleSend st messageText reply in
  retryCount (errorState st') = n
  /\ (exists m,
        messages st' = messages st ++ [plain_message messageText user; m]
        /\ sender m = ai /\ error m = true
        /\ text m = tier_text (N.min n 3)
        /\ showRetry m = (n <? 3))
  /\ messages (run_timers st')
     = messages st' ++ List.map snd (timers st)
         ++ match carData st with
            | Some car => if 3 <=? n then [fallback_message car] else []
            | None => []
            end
  /\ (forall car, suggestions (fallback_message car) <> None
                  /\ substring (car_name car) (text (fallback_message car))).
Proof.
  intros Htext Hfail n st'. subst st'.
  rewrite (@handleSend_failure st messageText reply Htext Hfail).
  fold n. cbv zeta.
  cbn [errorState retryCount messages timers].
  split; [reflexivity|]. split; [|split].
  - exists (error_message n (carData st)). rewrite <- app_assoc.
    split; [reflexivity|]. cbn [error_message sender error text showRetry].
    split; [reflexivity|]. split; [reflexivity|]. split; [|reflexivity].
    unfold error_text.
    destruct (N.eqb_spec n 1) as [->|H1]; [reflexivity|].
    destruct (N.eqb_spec n 2) as [->|H2]; [reflexivity|].
    assert (N.min n 3 = 3) as -> by lia. reflexivity.
  - unfold run_timers. cbn [messages timers]. rewrite map_app.
    f_equal. f_equal. unfold fallback_timers.
    destruct (carData st); [destruct (3 <=? n)|]; reflexivity.
  - intros car. split; [discriminate|].
    cbn [fallback_message text].
    exists (lit "I can still tell you general information about the "),
      (lit " based on my automotive knowledge. What would you like to know?").
    reflexivity.
Qed.

Lemma failure_policy_witness :
  let st' := handleSend (session (Some civic) 2) (lit "Is it reliable?") (NotOk 500) in
  retryCount (errorState st') = 3
  /\ List.length (messages st') = 2%nat
  /\ messages (run_timers st') = messages st' ++ [fallback_message civic].
Proof.
  destruct (@failure_policy (session (Some civic) 2) (lit "Is it reliable?")
              (NotOk 500)) as (Hcount & (m & Hm & _) & Hrun & _).
  - vm_compute. discriminate.
  - reflexivity.
  - split; [exact Hcount|]. split; [rewrite Hm; reflexivity | exact Hrun].
Defined.

(** C4 as stated fails: with no vehicle loaded, the third failure appends
    the error message and no message offering fallback questions. *)
Lemma no_fallback_without_car :
  ~ fallback_offered (session None 2) (lit "Is it reliable?") FetchRejected.
Proof.
  unfold fallback_offered. intros Hclaim.
  destruct Hclaim as (err & extra & Hmsgs & _).
  - vm_compute. discriminate.
  - vm_compute in Hmsgs. discriminate.
Qed.

(** ** Retrying *)

Lemma user_messages_app xs ys :
  user_messages (xs ++ ys) = user_messages xs ++ user_messages ys.
Proof. apply List.filter_app. Qed.

(** After a failed send, [handleRetry] sends the same text again. *)
Lemma retry_resends_the_failed_message st messageText reply next :
  trim messageText <> [] -> is_failure reply = true ->
  handleRetry (handleSend st messageText reply) next
  = handleSend (handleSend st messageText reply) messageText next.
Proof.
  intros Htext Hfail. unfold handleRetry.
  rewrite (@handleSend_failure st messageText reply Htext Hfail).
  cbn [messages]. rewrite !user_messages_app. cbn [user_messages List.filter].
  cbn [plain_message error_message sender sender_eqb app].
  rewrite app_nil_r, rev_app_distr. reflexivity.
Qed.

(** Three failures in a row give the three tiers of wording and then the
    fallback questions; a fourth failure repeats the third tier. *)
Example four_failures_in_a_row :
  List.map text (messages (failures_in_a_row 4 (session (Some civic) 0)))
  = [ lit "Is it reliable?"; tier_text 1;
      lit "Is it reliable?"; tier_text 2;
      lit "Is it reliable?"; tier_text 3; text (fallback_message civic);
      lit "Is it reliable?"; tier_text 3; text (fallback_message civic) ]
  /\ List.map showRetry (messages (failures_in_a_row 4 (session (Some civic) 0)))
     = [ false; true; false; true; false; false; false; false; false; false ]
  /\ retryCount (errorState (failures_in_a_row 4 (session (Some civic) 0))) = 4.
Proof. vm_compute. repeat split. Qed.

(* ===================================================================== *)
(** * Further properties of the code                                       *)
(* ===================================================================== *)

Import Charts Typing Behaviour MoreSamples.

(** ** More on the classifier *)

Section StringFacts.

Lemma starts_with_spec t : forall s,
  starts_with t s = true <-> exists post, s = t ++ post.
Proof.
  induction t as [|a t IH]; intros s; cbn [starts_with].
  - split; [intros _; exists s; reflexivity | reflexivity].
  - destruct s as [|b s].
    + split; [discriminate | intros (post & Hs); discriminate].
    + rewrite andb_true_iff, N.eqb_eq, IH. split.
      * intros (-> & post & ->). exists post. reflexivity.
      * intros (post & Hs). injection Hs as -> ->. eauto.
Qed.

(** [s.includes(t)] holds exactly when [t] occurs in [s]. *)
Lemma includes_spec s t : includes s t = true <-> substring t s.
Proof.
  unfold substring. induction s as [|c s IH]; cbn [includes].
  - rewrite orb_false_r, starts_with_spec. split.
    + intros (post & Hs). exists [], post. exact Hs.
    + intros (pre & post & Hs). symmetry in Hs.
      apply app_eq_nil in Hs as [-> Hs]. exists post. now rewrite Hs.
  - rewrite orb_true_iff, starts_with_spec, IH. split.
    + intros [(post & Hs) | (pre & post & ->)].
      * exists [], post. exact Hs.
      * exists (c :: pre), post. reflexivity.
    + intros (pre & post & Hs). destruct pre as [|a pre].
      * left. exists post. exact Hs.
      * right. injection Hs as <- ->. eauto.
Qed.

Lemma chr_match_refl c : chr_match c c = true.
Proof. unfold chr_match. apply N.eqb_refl. Qed.

Lemma matches_chars t : matches (chars t) t.
Proof.
  induction t as [|c t IH]; cbn [chars]; [constructor|].
  destruct t as [|d t].
  - constructor. apply chr_match_refl.
  - apply (@M_seq (Chr c) (chars (d :: t)) [c] (d :: t)); [|exact IH].
    constructor. apply chr_match_refl.
Qed.

(** A pattern that is plain text matches every subject the text occurs
    in. *)
Lemma test_chars s t : includes s t = true -> test (chars t) s = true.
Proof.
  intros Hin. apply includes_spec in Hin as (pre & post & ->).
  apply test_spec. exists pre, t, post. split; [reflexivity | apply matches_chars].
Qed.

End StringFacts.

Section ClassifierMore.
Context `{StringBuiltins}.

Lemma comparison_first q :
  matches_group comparison q = true ->
  determineVisualizationType (JStr q) = Some comparison.
Proof.
  intros Hc. destruct q as [|c q].
  - now rewrite empty_query_matches_nothing in Hc.
  - rewrite classify_string by discriminate.
    cbn [List.find priority]. now rewrite Hc.
Qed.

(** A query mentioning "vs" anywhere, inside a word too, is a comparison. *)
Theorem vs_anywhere_is_comparison (q : jsstring) :
  includes (toLowerCase q) (lit "vs") = true ->
  determineVisualizationType (JStr q) = Some comparison.
Proof.
  intros Hvs. apply comparison_first. unfold matches_group.
  apply existsb_exists. exists (Alt (Regex.text "versus") (Regex.text "vs")).
  split.
  - cbn. auto 10.
  - apply test_spec. apply includes_spec in Hvs as (pre & post & Hq).
    exists pre, (lit "vs"), post. split; [exact Hq|].
    apply M_alt_r. apply (matches_chars (lit "vs")).
Qed.

(** The feature-term stage never answers [relationship]. *)
Theorem relationship_only_by_pattern (v : jsval) :
  determineVisualizationType v = Some relationship ->
  exists q, v = JStr q
    /\ matches_group relationship q = true
    /\ matches_group comparison q = false
    /\ matches_group trend q = false
    /\ matches_group sentiment q = false.
Proof.
  intros Hr. destruct v as [| | | |q|]; try discriminate.
  exists q. split; [reflexivity|].
  destruct q as [|c q]; [discriminate|].
  rewrite classify_string in Hr by discriminate.
  cbn [List.find priority] in Hr.
  destruct (matches_group comparison (c :: q)); [discriminate|].
  destruct (matches_group trend (c :: q)); [discriminate|].
  destruct (matches_group sentiment (c :: q)); [discriminate|].
  destruct (matches_group relationship (c :: q)); [auto|].
  cbv zeta in Hr.
  destruct (existsb _ featureTerms); [|discriminate].
  destruct (_ || _); [discriminate|].
  destruct (_ || _); discriminate.
Qed.

(** The classifier answers [null] exactly for what is not a non-empty
    string, and for strings that match no pattern and contain no feature
    term. *)
Theorem classifier_null_iff (v : jsval) :
  determineVisualizationType v = None
  <-> forall q, v = JStr q ->
        q = []
        \/ (List.find (fun g => matches_group g q) priority = None
            /\ existsb (fun term => includes (toLowerCase q) term) featureTerms
               = false).
Proof.
  split.
  - intros Hnone q ->. destruct q as [|c q]; [now left|right].
    rewrite classify_string in Hnone by discriminate.
    destruct (List.find _ priority); [discriminate|]. split; [reflexivity|].
    cbv zeta in Hnone.
    destruct (existsb _ featureTerms); [|reflexivity].
    destruct (_ || _); [discriminate|].
    destruct (_ || _); discriminate.
  - intros Hv. destruct v as [| | | |q|]; try reflexivity.
    destruct (Hv q eq_refl) as [->|[Hfind Hterm]]; [reflexivity|].
    destruct q as [|c q]; [reflexivity|].
    rewrite classify_string by discriminate.
    rewrite Hfind. cbv zeta. now rewrite Hterm.
Qed.

End ClassifierMore.

Lemma vs_anywhere_is_comparison_witness :
  @determineVisualizationType ascii_builtins (JStr (lit "Tell me about SUVs"))
  = Some comparison.
Proof.
  apply (@vs_anywhere_is_comparison ascii_builtins). vm_compute. reflexivity.
Defined.

Lemma relationship_only_by_pattern_witness :
  exists q, JStr (lit "Which models are related to it?") = JStr q
    /\ @matches_group ascii_builtins relationship q = true
    /\ @matches_group ascii_builtins comparison q = false
    /\ @matches_group ascii_builtins trend q = false
    /\ @matches_group ascii_builtins sentiment q = false.
Proof.
  apply (@relationship_only_by_pattern ascii_builtins). vm_compute. reflexivity.
Defined.

Lemma classifier_null_iff_witness :
  @determineVisualizationType ascii_builtins (JStr (lit "Good morning")) = None.
Proof.
  apply (@classifier_null_iff ascii_builtins). intros q Hq.
  injection Hq as <-. right. vm_compute. split; reflexivity.
Defined.

(** ** More on the fetchers *)

Section RelationshipFetch.
Variable supabase : Supabase.

Lemma map_throwing_ok rows :
  Forall (fun row => target_cars row <> None) rows ->
  exists rels, map_throwing format_relationship rows = Ok rels
               /\ Forall2 formats rows rels.
Proof.
  induction 1 as [|row rows Hrow Hrows (rels & Hrels & Hall)].
  - exists []. split; [reflexivity | constructor].
  - cbn [map_throwing]. unfold format_relationship at 1.
    destruct (target_cars row) as [target|] eqn:Ht; [|congruence].
    cbn [bind]. rewrite Hrels. cbn [bind].
    eexists. split; [reflexivity|]. constructor; [|exact Hall].
    exists target. cbn. auto 10.
Qed.

Lemma map_throwing_throws rows :
  Exists (fun row => target_cars row = None) rows ->
  exists e, map_throwing format_relationship rows = Throw e.
Proof.
  induction 1 as [row rows Hrow | row rows Hrows (e & He)];
    cbn [map_throwing]; unfold format_relationship at 1.
  - rewrite Hrow. cbn [bind]. eauto.
  - destruct (target_cars row); cbn [bind]; [|eauto].
    rewrite He. cbn [bind]. eauto.
Qed.

(** The relationships of a car are fetched all or none: one entry per
    row, in order, when every row comes with its target car; the empty
    list as soon as one row comes without. *)
Theorem relationships_all_or_none (carId : N) (rows : list RelationshipRow) :
  car_relationships supabase carId = Resolved (Some rows) None ->
  (Forall (fun row => target_cars row <> None) rows ->
     exists rels, getCarRelationships supabase carId = Ok rels
                  /\ Forall2 formats rows rels)
  /\ (Exists (fun row => target_cars row = None) rows ->
     getCarRelationships supabase carId = Ok []).
Proof.
  intros Hq. unfold getCarRelationships. rewrite Hq.
  cbn [with_data as_array bind]. split.
  - intros Hall. destruct (map_throwing_ok Hall) as (rels & -> & Hf).
    exists rels. split; [reflexivity | exact Hf].
  - intros Hex. destruct (map_throwing_throws Hex) as (e & ->). reflexivity.
Qed.

End RelationshipFetch.

Section FeatureFetch.

Lemma find_app {A} (p : A -> bool) l1 l2 :
  List.find p (l1 ++ l2)
  = match List.find p l1 with
    | Some x => Some x
    | None => List.find p l2
    end.
Proof.
  induction l1 as [|x l1 IH]; [reflexivity|].
  cbn [app List.find]. destruct (p x); [reflexivity | exact IH].
Qed.

Lemma find_ext {A} (p q : A -> bool) l :
  (forall x, p x = q x) -> List.find p l = List.find q l.
Proof.
  intros Hpq. induction l as [|x l IH]; [reflexivity|].
  cbn [List.find]. now rewrite Hpq, IH.
Qed.

Lemma str_eqb_eq a b : str_eqb a b = true <-> a = b.
Proof. unfold str_eqb. destruct (decide (a = b)); split; congruence. Qed.

Lemma collect_features_lookup feats name : forall acc : gmap jsstring jsval,
  List.fold_left
    (fun acc feat =>
       <[feature_name feat := or_else (feature_rating feat) (feature_value feat)]>
         acc)
    feats acc !! name
  = match List.find (fun f => str_eqb (feature_name f) name) (rev feats) with
    | Some f => Some (or_else (feature_rating f) (feature_value f))
    | None => acc !! name
    end.
Proof.
  induction feats as [|f feats IH]; intros acc; [reflexivity|].
  cbn [List.fold_left rev]. rewrite IH, find_app.
  destruct (List.find _ (rev feats)); [reflexivity|].
  cbn [List.find]. destruct (str_eqb (feature_name f) name) eqn:E.
  - apply str_eqb_eq in E as ->. now rewrite lookup_insert_eq.
  - rewrite lookup_insert_ne; [reflexivity|].
    intros Heq. apply not_true_iff_false in E. apply E. now apply str_eqb_eq.
Qed.

Lemma filter_rev {A} (p : A -> bool) l :
  List.filter p (rev l) = rev (List.filter p l).
Proof.
  induction l as [|x l IH]; [reflexivity|].
  cbn [rev List.filter]. rewrite List.filter_app, IH. cbn [List.filter].
  destruct (p x); [reflexivity | now rewrite app_nil_r].
Qed.

Lemma group_lookup rows id cats : forall (acc : CategoryTable) cat,
  List.fold_left
    (fun entry c =>
       <[c := collect_features
                (List.filter (fun f => str_eqb (category f) c)
                   (List.filter (fun f => fr_car_id f =? id) rows))]> entry)
    cats acc !! cat
  = if existsb (str_eqb cat) cats
    then Some (collect_features
                 (List.filter (fun f => str_eqb (category f) cat)
                    (List.filter (fun f => fr_car_id f =? id) rows)))
    else acc !! cat.
Proof.
  induction cats as [|c cats IH]; intros acc cat; [reflexivity|].
  cbn [List.fold_left existsb]. rewrite IH.
  destruct (existsb (str_eqb cat) cats); [now rewrite orb_true_r|].
  rewrite orb_false_r. destruct (str_eqb cat c) eqn:E.
  - apply str_eqb_eq in E as ->. now rewrite lookup_insert_eq.
  - rewrite lookup_insert_ne; [reflexivity|].
    intros ->. apply not_true_iff_false in E. apply E. now apply str_eqb_eq.
Qed.

Lemma existsb_filter_other cat x ys :
  str_eqb cat x = false ->
  existsb (str_eqb cat) (List.filter (fun y => negb (str_eqb x y)) ys)
  = existsb (str_eqb cat) ys.
Proof.
  intros E. induction ys as [|y ys IH]; [reflexivity|].
  cbn [List.filter existsb].
  destruct (str_eqb x y) eqn:Exy; cbn [negb existsb].
  - apply str_eqb_eq in Exy as <-. now rewrite E.
  - now rewrite IH.
Qed.

Lemma existsb_dedupe cat l :
  existsb (str_eqb cat) (dedupe str_eqb l) = existsb (str_eqb cat) l.
Proof.
  induction l as [|x l IH]; [reflexivity|].
  cbn [dedupe existsb]. rewrite <- IH.
  destruct (str_eqb cat x) eqn:E; [reflexivity|]. cbn [orb].
  now apply existsb_filter_other.
Qed.

(** A feature of a requested car, read off the grouped table. *)
Lemma group_car_features_at rows id cat name :
  match group_car_features rows id !! cat with
  | Some table => table !! name
  | None => None
  end
  = option_map (fun f => or_else (feature_rating f) (feature_value f))
      (deciding_row rows id cat name).
Proof.
  unfold group_car_features. rewrite group_lookup, existsb_dedupe, lookup_empty.
  unfold deciding_row.
  set (carFeatures := List.filter (fun f => fr_car_id f =? id) rows).
  assert (Hfind :
    List.find (fun f => str_eqb (feature_name f) name)
      (rev (List.filter (fun f => str_eqb (category f) cat) carFeatures))
    = List.find (fun f => (fr_car_id f =? id) && str_eqb (category f) cat
                          && str_eqb (feature_name f) name) (rev rows)).
  { unfold carFeatures. rewrite <- !filter_rev, !find_filter.
    apply find_ext. intros f. now rewrite andb_assoc. }
  destruct (existsb (str_eqb cat) (List.map category carFeatures)) eqn:Hcat.
  - unfold collect_features. rewrite collect_features_lookup, lookup_empty, Hfind.
    destruct (List.find _ (rev rows)); reflexivity.
  - rewrite <- Hfind.
    destruct (List.find _ (rev (List.filter _ carFeatures))) as [f|] eqn:Hf;
      [|reflexivity].
    apply find_some in Hf as [Hin _]. apply in_rev, filter_In in Hin as [Hin Hc].
    apply not_true_iff_false in Hcat. exfalso. apply Hcat.
    apply existsb_exists. exists (category f). split; [now apply in_map|].
    apply str_eqb_eq. apply str_eqb_eq in Hc. congruence.
Qed.

Lemma for_each_car_table rows : forall carIds (acc : Features),
  exists m,
    for_each_car (Some rows) carIds acc = Ok m
    /\ forall id,
         m !! id = if existsb (N.eqb id) carIds
                   then Some (group_car_features rows id) else acc !! id.
Proof.
  induction carIds as [|c carIds IH]; intros acc; cbn [for_each_car as_array bind].
  - exists acc. split; [reflexivity | reflexivity].
  - destruct (IH (<[c := group_car_features rows c]> acc)) as (m & Hm & Hlook).
    exists m. split; [exact Hm|]. intros id. rewrite Hlook. cbn [existsb].
    destruct (existsb (N.eqb id) carIds); [now rewrite orb_true_r|].
    rewrite orb_false_r. destruct (N.eqb_spec id c) as [->|Hne].
    + now rewrite lookup_insert_eq.
    + rewrite lookup_insert_ne by congruence. reflexivity.
Qed.

(** When the features query answers, the result has an entry for exactly
    the cars asked for, and each feature of such a car is the rating, or
    when that is falsy the value, of the last row of that car, category
    and feature name; rows of other cars are left out. *)
Theorem features_grouped_by_car (supabase : Supabase) (carIds : list N)
    (rows : list FeatureRow) :
  car_features supabase carIds = Resolved (Some rows) None ->
  exists features,
    getCarFeatures supabase carIds = Ok features
    /\ (forall id, is_Some (features !! id) <-> In id carIds)
    /\ (forall id cat name,
          feature_at features id cat name
          = if existsb (N.eqb id) carIds
            then option_map
                   (fun f => or_else (feature_rating f) (feature_value f))
                   (deciding_row rows id cat name)
            else None).
Proof.
  intros Hq. destruct (for_each_car_table rows carIds ∅) as (m & Hm & Hlook).
  exists m. split; [|split].
  - unfold getCarFeatures. rewrite Hq. cbn [with_data]. rewrite Hm. reflexivity.
  - intros id. rewrite Hlook, lookup_empty.
    destruct (existsb (N.eqb id) carIds) eqn:E.
    + apply existsb_exists in E as (x & Hx & Heq). apply N.eqb_eq in Heq as <-.
      split; [auto | eauto].
    + split; [intros [? ?]; discriminate|].
      intros Hin. apply not_true_iff_false in E. exfalso. apply E.
      apply existsb_exists. exists id. split; [exact Hin | apply N.eqb_refl].
  - intros id cat name. unfold feature_at. rewrite Hlook, lookup_empty.
    destruct (existsb (N.eqb id) carIds); [|reflexivity].
    apply group_car_features_at.
Qed.

End FeatureFetch.

(** ** More on shaping, and the charts *)

Section ShapingMore.
Variable supabase : Supabase.
Variable random : nat -> Q.

Lemma is_negative_sub_asym x y :
  is_negative (sub x y) = true -> is_negative (sub y x) = false.
Proof.
  destruct x as [[a b]| | |], y as [[c d]| | |]; cbn; try congruence.
  intros Hlt. apply Z.ltb_lt in Hlt. apply Z.ltb_ge. lia.
Qed.

(** Sentiment shaping keeps at most seven aspects of those fetched, the
    ones with the highest positive + negative percentage first. *)
Theorem sentiment_top_seven (carData : Car) (i : nat) :
  exists fetched ranked,
    getReviewSentiment supabase (car_id carData) = Ok fetched
    /\ Permutation ranked fetched
    /\ Sorted at_least_as_mentioned ranked
    /\ generateVisualizationData supabase random (Some sentiment) carData i
       = (Ok (SentimentPayload (firstn 7 ranked)), i)
    /\ (List.length (firstn 7 ranked) <= 7)%nat.
Proof.
  destruct (fetchers_never_throw supabase (car_id carData) [])
    as (_ & _ & _ & fetched & Hfetch).
  exists fetched,
    (sort_by (fun a b => is_negative (by_mentions a b)) fetched).
  split; [exact Hfetch|]. split; [apply sort_by_perm|]. split; [|split].
  - apply (@sort_by_sorted _ (fun a b => is_negative (by_mentions a b))).
    intros a b. apply is_negative_sub_asym.
  - cbn [generateVisualizationData]. unfold shape_sentiment, bindM, lift, ret.
    rewrite Hfetch. reflexivity.
  - rewrite length_firstn. lia.
Qed.

(** Trend, sentiment and relationship shaping turn a failed fetch into an
    empty chart: no points, no aspects, the primary node alone. *)
Theorem shaping_degrades_to_empty (carData : Car) (i : nat) :
  (failed (car_timeline supabase (car_id carData)) ->
     generateVisualizationData supabase random (Some trend) carData i
     = (Ok (TrendPayload [] trend_series (0, 5)), i))
  /\ (failed (review_analysis supabase (car_id carData)) ->
     generateVisualizationData supabase random (Some sentiment) carData i
     = (Ok (SentimentPayload []), i))
  /\ (failed (car_relationships supabase (car_id carData)) ->
     generateVisualizationData supabase random (Some relationship) carData i
     = (Ok (RelationshipPayload
              {| primary_id := car_id carData;
                 primary_label := car_name carData |}
              [ {| node_id := car_id carData; node_label := car_name carData;
                   node_type := lit "primary" |} ]
              []), i)).
Proof.
  split; [|split]; intros Hf; cbn [generateVisualizationData].
  - unfold shape_trend, bindM, lift, ret, getCarTimeline.
    rewrite (@with_data_failed _ _ _ (fun events => Ok events)
               (fun _ => Ok (Some [])) (Some []) Hf (fun _ => eq_refl)).
    reflexivity.
  - unfold shape_sentiment, bindM, lift, ret, getReviewSentiment.
    rewrite (@with_data_failed _ _ _ _ (fun _ => Ok []) [] Hf (fun _ => eq_refl)).
    reflexivity.
  - unfold shape_relationship, bindM, lift, ret, getCarRelationships.
    rewrite (@with_data_failed _ _ _ _ (fun _ => Ok []) [] Hf (fun _ => eq_refl)).
    reflexivity.
Qed.

Lemma draw_from_rest nodes : forall rest i,
  skipn (S i) nodes = rest ->
  draw_from nodes i (List.length rest)
  = Ok (List.map (fun n => {| drawn_label := node_label n;
                              drawn_fill := node_fill (node_type n) |}) rest).
Proof.
  induction rest as [|n rest IH]; intros i Hskip; [reflexivity|].
  cbn [List.length draw_from].
  assert (Hn : nth_error nodes (S i) = Some n).
  { rewrite <- (firstn_skipn (S i) nodes) at 1. rewrite Hskip.
    rewrite nth_error_app2; rewrite length_firstn.
    - assert (S i <= List.length nodes)%nat.
      { destruct (Nat.le_gt_cases (S i) (List.length nodes)); [assumption|].
        rewrite skipn_all2 in Hskip by lia. discriminate. }
      replace (S i - Nat.min (S i) (List.length nodes))%nat with 0%nat by lia.
      reflexivity.
    - lia. }
  rewrite Hn. rewrite (IH (S i)).
  - reflexivity.
  - change (S (S i)) with (1 + S i)%nat. rewrite <- skipn_skipn, Hskip. reflexivity.
Qed.

(** The graph of a shaped relationship payload: the primary car at the
    centre and, around it, one node per fetched relationship, in order,
    labelled with the related car and coloured by relationship type. *)
Theorem graph_draws_the_relationships (carData : Car) (i : nat) :
  exists allRelationships data,
    getCarRelationships supabase (car_id carData) = Ok allRelationships
    /\ generateVisualizationData supabase random (Some relationship) carData i
       = (Ok data, i)
    /\ RelationshipGraph data
       = Ok (Some (car_name carData, List.map drawn allRelationships)).
Proof.
  destruct (getCarRelationships_total supabase (car_id carData)) as [rels Hrels].
  exists rels, (relationship_payload carData rels).
  split; [exact Hrels|]. split.
  - cbn [generateVisualizationData]. unfold shape_relationship, bindM, lift, ret.
    now rewrite Hrels.
  - unfold relationship_payload, RelationshipGraph.
    set (related_node := fun rel => {| node_id := related_id rel;
                                       node_label := label rel;
                                       node_type := type rel |}).
    set (primary := {| node_id := car_id carData;
                       node_label := car_name carData;
                       node_type := lit "primary" |}).
    pose proof (@draw_from_rest (primary :: List.map related_node rels)
                  (List.map related_node rels) 0%nat eq_refl) as Hdraw.
    cbn [List.length]. rewrite Nat.sub_succ, Nat.sub_0_r, Hdraw.
    cbn [bind primary_label]. rewrite map_map. reflexivity.
Qed.

End ShapingMore.

Section RadarFacts.

Lemma add_entity_values_spec values index : forall entities k (result : RadarRow),
  (k + List.length entities <= List.length values)%nat ->
  exists r,
    add_entity_values entities values k index result = Ok r
    /\ (forall key,
          (forall e, In e entities -> entity_name e <> key) ->
          r !! key = result !! key)
    /\ (forall j e row,
          nth_error entities j = Some e ->
          nth_error values (k + j) = Some row ->
          last_so_named entities j (entity_name e) ->
          r !! entity_name e = Some (at_index row index)).
Proof.
  induction entities as [|entity rest IH]; intros k result Hlen.
  - exists result. split; [reflexivity|]. split; [reflexivity|].
    intros j e row Hj. destruct j; discriminate.
  - cbn [add_entity_values List.length] in *.
    destruct (nth_error values k) as [row0|] eqn:Hrow0.
    2:{ apply nth_error_None in Hrow0. lia. }
    destruct (IH (S k) (<[entity_name entity := at_index row0 index]> result))
      as (r & Hr & Hkeep & Hval); [lia|].
    exists r. split; [exact Hr|]. split.
    + intros key Hkey. rewrite Hkeep.
      * rewrite lookup_insert_ne; [reflexivity|]. apply Hkey. now left.
      * intros e He. apply Hkey. now right.
    + intros j e row Hj Hrow Hlast. destruct j as [|j].
      * injection Hj as <-. rewrite Nat.add_0_r, Hrow0 in Hrow.
        injection Hrow as <-. rewrite Hkeep.
        -- now rewrite lookup_insert_eq.
        -- intros e' He'. apply In_nth_error in He' as [j' Hj'].
           apply (Hlast (S j') e'); [lia | exact Hj'].
      * cbn [nth_error] in Hj. apply (Hval j e row Hj).
        -- now rewrite Nat.add_succ_comm.
        -- intros j' e' Hlt Hj'. apply (Hlast (S j') e'); [lia | exact Hj'].
Qed.

Lemma add_entity_values_short values index : forall entities k (result : RadarRow),
  (k <= List.length values)%nat ->
  (List.length values < k + List.length entities)%nat ->
  add_entity_values entities values k index result = Throw TypeError.
Proof.
  induction entities as [|entity rest IH]; intros k result Hk Hlen;
    cbn [add_entity_values List.length] in *.
  - lia.
  - destruct (nth_error values k) as [row0|] eqn:Hrow0; [|reflexivity].
    assert (k < List.length values)%nat.
    { apply nth_error_Some. congruence. }
    apply IH; lia.
Qed.

Lemma mapi_throwing_spec {A B} (f : nat -> A -> JS.result B)
    (P : nat -> A -> B -> Prop) xs : forall i,
  (forall k x, nth_error xs k = Some x ->
     exists y, f (i + k)%nat x = Ok y /\ P (i + k)%nat x y) ->
  exists ys,
    mapi_throwing i f xs = Ok ys
    /\ List.length ys = List.length xs
    /\ forall k x, nth_error xs k = Some x ->
         exists y, nth_error ys k = Some y /\ P (i + k)%nat x y.
Proof.
  induction xs as [|x xs IH]; intros i Hf.
  - exists []. split; [reflexivity|]. split; [reflexivity|].
    intros k x Hk. destruct k; discriminate.
  - destruct (Hf 0%nat x eq_refl) as (y & Hy & HP).
    rewrite Nat.add_0_r in Hy, HP.
    destruct (IH (S i)) as (ys & Hys & Hlen & Hall).
    { intros k x' Hk. rewrite Nat.add_succ_comm. apply (Hf (S k) x' Hk). }
    exists (y :: ys). cbn [mapi_throwing]. rewrite Hy. cbn [bind].
    rewrite Hys. cbn [bind]. split; [reflexivity|]. split; [cbn; lia|].
    intros k x' Hk. destruct k as [|k].
    + injection Hk as <-. exists y. rewrite Nat.add_0_r. auto.
    + destruct (Hall k x' Hk) as (y' & Hy' & HP').
      exists y'. rewrite <- Nat.add_succ_comm. auto.
Qed.

(** With a row of values for every entity, the radar data has one row per
    category; the row of category [i] holds the category under the key
    [category], unless an entity bears that name, and under each entity's
    name the [i]-th value of the last entity so named. *)
Theorem radar_rows (categories : list jsstring) (entities : list Entity)
    (values : list (list jsval)) :
  (List.length entities <= List.length values)%nat ->
  exists rows,
    formattedData categories entities values = Ok rows
    /\ List.length rows = List.length categories
    /\ forall i cat, nth_error categories i = Some cat ->
         exists r,
           nth_error rows i = Some r
           /\ ((forall e, In e entities -> entity_name e <> lit "category") ->
               r !! lit "category" = Some (JStr cat))
           /\ forall j e row,
                nth_error entities j = Some e ->
                nth_error values j = Some row ->
                last_so_named entities j (entity_name e) ->
                r !! entity_name e = Some (at_index row i).
Proof.
  intros Hlen. unfold formattedData.
  apply (@mapi_throwing_spec _ _ _
           (fun i cat r =>
              ((forall e, In e entities -> entity_name e <> lit "category") ->
               r !! lit "category" = Some (JStr cat))
              /\ forall j e row,
                   nth_error entities j = Some e ->
                   nth_error values j = Some row ->
                   last_so_named entities j (entity_name e) ->
                   r !! entity_name e = Some (at_index row i))).
  intros k cat _. cbn [Nat.add].
  destruct (@add_entity_values_spec values k entities 0%nat
              {[ lit "category" := JStr cat ]} ltac:(cbn; lia))
    as (r & Hr & Hkeep & Hval).
  exists r. split; [exact Hr|]. split.
  - intros Hnames. rewrite (Hkeep _ Hnames). apply lookup_singleton_eq.
  - exact Hval.
Qed.

(** An entity without its row of values makes the chart throw as soon as
    there is a category to format. *)
Theorem radar_needs_a_row_per_entity (cat : jsstring) (categories : list jsstring)
    (entities : list Entity) (values : list (list jsval)) :
  (List.length values < List.length entities)%nat ->
  formattedData (cat :: categories) entities values = Throw TypeError.
Proof.
  intros Hlen. unfold formattedData. cbn [mapi_throwing].
  rewrite add_entity_values_short by (cbn; lia). reflexivity.
Qed.

Lemma formattedData_total (categories : list jsstring) (entities : list Entity)
    (values : list (list jsval)) :
  (List.length entities <= List.length values)%nat ->
  exists rows,
    formattedData categories entities values = Ok rows
    /\ List.length rows = List.length categories.
Proof.
  intros Hlen. unfold formattedData.
  destruct (@mapi_throwing_spec _ _
              (fun index category =>
                 add_entity_values entities values 0 index
                   {[ lit "category" := JStr category ]})
              (fun _ _ _ => True) categories 0%nat)
    as (rows & Hrows & Hlength & _).
  - intros k cat _.
    destruct (@add_entity_values_spec values (0 + k)%nat entities 0%nat
                {[ lit "category" := JStr cat ]} ltac:(cbn; lia))
      as (r & Hr & _).
    exists r. split; [exact Hr | exact I].
  - exists rows. split; [exact Hrows | exact Hlength].
Qed.

(** The chart accepts what comparison shaping produces: with the features
    query answered, the payload formats into five rows. *)
Theorem chart_accepts_shaped_comparison
    (supabase : Supabase) (random : nat -> Q) (carData : Car) (i : nat)
    (rows : list FeatureRow) :
  (forall carIds, car_features supabase carIds = Resolved (Some rows) None) ->
  exists data j radar,
    generateVisualizationData supabase random (Some comparison) carData i
    = (Ok data, j)
    /\ ComparisonChart data = Ok radar
    /\ List.length radar = 5%nat.
Proof.
  intros Hup.
  destruct (@comparison_shaped_with_features supabase random carData i rows Hup)
    as (features & entities & values & j & _ & Hgen & _ & Hcells).
  destruct (@formattedData_total categories entities values)
    as (radar & Hradar & Hlen).
  { apply Forall2_length in Hcells. lia. }
  exists (ComparisonPayload categories entities values), j, radar.
  split; [exact Hgen|]. split; [exact Hradar | exact Hlen].
Qed.

End RadarFacts.

(** ** More on the chat *)

Section ChatMore.

Lemma trim_start_blank s : blank s -> trim_start s = [].
Proof.
  induction 1 as [|c s Hc Hs IH]; [reflexivity|].
  cbn [trim_start]. now rewrite Hc.
Qed.

Lemma trim_blank s : blank s -> trim s = [].
Proof. intros Hs. unfold trim. now rewrite (trim_start_blank Hs). Qed.

(** Sending nothing but white space changes nothing, whatever the
    backend would have answered. *)
Theorem blank_message_is_ignored (st : State) (messageText : jsstring)
    (reply : ChatOutcome) :
  blank messageText -> handleSend st messageText reply = st.
Proof.
  intros Hb. unfold handleSend. now rewrite (trim_blank Hb).
Qed.

Lemma handleSend_messages st messageText reply :
  trim messageText <> [] ->
  messages (handleSend st messageText reply)
  = messages st
      ++ [ plain_message messageText user;
           match reply with
           | Replied data => ai_response (messages st) data
           | _ => error_message (retryCount (errorState st) + 1) (carData st)
           end ].
Proof.
  intros Htext. unfold handleSend. cbn [truthy].
  destruct (trim messageText) as [|c t]; [congruence|].
  cbn [List.length Nat.eqb negb].
  destruct reply; cbn [messages]; now rewrite <- app_assoc.
Qed.

(** Every send of a non-blank text appends exactly two messages to the
    history and leaves the earlier ones alone: the user's text as typed,
    then one message of the assistant, flagged as an error exactly when
    the request failed. *)
Theorem send_appends_two_messages (st : State) (messageText : jsstring)
    (reply : ChatOutcome) :
  trim messageText <> [] ->
  exists m,
    messages (handleSend st messageText reply)
    = messages st ++ [plain_message messageText user; m]
    /\ sender m = ai
    /\ error m = is_failure reply
    /\ loading (handleSend st messageText reply) = false
    /\ input (handleSend st messageText reply) = [].
Proof.
  intros Htext. rewrite (@handleSend_messages st messageText reply Htext).
  eexists. split; [reflexivity|].
  unfold handleSend. cbn [truthy].
  destruct (trim messageText) as [|c t]; [congruence|].
  cbn [List.length Nat.eqb negb].
  destruct reply; repeat split.
Qed.

(** A successful reply wipes the failure count: the next failure is
    worded as a first one again, with the retry button. *)
Theorem success_resets_the_tiers (st : State) (first next : jsstring)
    (data : ChatResponse) (reply : ChatOutcome) :
  trim first <> [] -> trim next <> [] -> is_failure reply = true ->
  let st1 := handleSend st first (Replied data) in
  errorState st1 = {| hasError := false; retryCount := 0 |}
  /\ exists m,
       messages (handleSend st1 next reply)
       = messages st1 ++ [plain_message next user; m]
       /\ text m = tier_text 1 /\ showRetry m = true
       /\ retryCount (errorState (handleSend st1 next reply)) = 1.
Proof.
  intros Hfirst Hnext Hfail st1.
  assert (Hreset : errorState st1 = {| hasError := false; retryCount := 0 |}).
  { unfold st1, handleSend. cbn [truthy].
    destruct (trim first) as [|c t]; [congruence|]. reflexivity. }
  split; [exact Hreset|].
  rewrite (@handleSend_failure st1 next reply Hnext Hfail).
  rewrite Hreset. cbn [retryCount messages errorState].
  eexists. rewrite <- app_assoc. split; [reflexivity|].
  repeat split.
Qed.

Lemma build_components_ranked data early :
  StronglySorted lt (List.map component_rank (build_components data early)).
Proof.
  unfold build_components, spec_card, scores_card, pros_cons_card,
    sentiment_component, rating_card.
  destruct (analysis data) as [a|];
    destruct (car_data data), early;
    repeat match goal with
           | |- context [if ?b then _ else _] => destruct b
           | |- context [match sentiment_counts ?a with _ => _ end] =>
               destruct (sentiment_counts a)
           end;
    cbn; repeat constructor.
Qed.

(** The cards of a reply come in the order specification, category
    scores, pros and cons, sentiment, rating, each at most once; the
    specification card only while the history has at most two messages. *)
Theorem reply_cards_in_order (st : State) (messageText : jsstring)
    (data : ChatResponse) :
  trim messageText <> [] ->
  exists m cs,
    messages (handleSend st messageText (Replied data))
    = messages st ++ [plain_message messageText user; m]
    /\ components m = Some cs
    /\ StronglySorted lt (List.map component_rank cs)
    /\ (List.length cs <= 5)%nat
    /\ ((2 < List.length (messages st))%nat ->
        ~ In 0%nat (List.map component_rank cs)).
Proof.
  intros Htext. rewrite (@handleSend_messages st messageText (Replied data) Htext).
  exists (ai_response (messages st) data). eexists.
  split; [reflexivity|]. split; [reflexivity|].
  split; [apply build_components_ranked|].
  assert (Hlen : forall early, (List.length (build_components data early) <= 5)%nat).
  { intros early.
    unfold build_components, spec_card, scores_card, pros_cons_card,
      sentiment_component, rating_card.
    destruct (analysis data) as [a|];
      destruct (car_data data), early;
      repeat match goal with
             | |- context [if ?b then _ else _] => destruct b
             | |- context [match sentiment_counts ?a with _ => _ end] =>
                 destruct (sentiment_counts a)
             end;
      cbn; lia. }
  split; [apply Hlen|].
  intros Hlate. apply Nat.leb_gt in Hlate. rewrite Hlate.
  unfold build_components, spec_card, scores_card, pros_cons_card,
    sentiment_component, rating_card.
  destruct (analysis data) as [a|];
    destruct (car_data data);
    repeat match goal with
           | |- context [if ?b then _ else _] => destruct b
           | |- context [match sentiment_counts ?a with _ => _ end] =>
               destruct (sentiment_counts a)
           end;
    cbn; intuition lia.
Qed.

End ChatMore.

Section ChatMore2.

Lemma substring_app_l t s pre : substring t s -> substring t (pre ++ s).
Proof.
  intros (a & b & ->). exists (pre ++ a), b. now rewrite <- app_assoc.
Qed.

Lemma substring_app_r t s post : substring t s -> substring t (s ++ post).
Proof.
  intros (a & b & ->). exists a, (b ++ post). now rewrite <- !app_assoc.
Qed.

Lemma substring_refl t : substring t t.
Proof. exists [], []. now rewrite app_nil_r. Qed.

Lemma car_name_has_make car : substring (manufacturer car) (car_name car).
Proof.
  unfold car_name, display_name.
  apply substring_app_l, substring_app_l, substring_app_r, substring_refl.
Qed.

(** With a car, the generator gives five suggestions during the first
    turns and four afterwards, whatever the intent, and every one of them
    names the car's manufacturer. *)
Theorem suggestions_name_the_make (car : Car) (intent : option jsstring)
    (conversationLength : nat) :
  List.length (generateSuggestions (Some car) intent conversationLength)
  = (if (conversationLength <=? 2)%nat then 5 else 4)%nat
  /\ Forall (substring (manufacturer car))
       (generateSuggestions (Some car) intent conversationLength).
Proof.
  pose proof (car_name_has_make car) as Hname.
  unfold generateSuggestions.
  destruct (conversationLength <=? 2)%nat.
  - split; [reflexivity|].
    repeat constructor;
      auto using substring_app_l, substring_app_r, substring_refl.
  - repeat match goal with
           | |- context [if ?b then _ else _] => destruct b
           end;
      (split; [reflexivity|]);
      repeat constructor;
      auto using substring_app_l, substring_app_r, substring_refl.
Qed.

Lemma user_messages_none ms :
  Forall (fun m => sender m = ai) ms -> user_messages ms = [].
Proof.
  induction 1 as [|m ms Hm _ IH]; [reflexivity|].
  unfold user_messages in *. cbn [List.filter]. rewrite Hm. exact IH.
Qed.

Lemma user_messages_last xs u ys :
  sender u = user ->
  Forall (fun m => sender m = ai) ys ->
  rev (user_messages (xs ++ u :: ys)) = u :: rev (user_messages xs).
Proof.
  intros Hu Hys. change (u :: ys) with ([u] ++ ys).
  rewrite !user_messages_app, (@user_messages_none ys Hys), app_nil_r.
  unfold user_messages at 2. cbn [List.filter]. rewrite Hu. cbn [sender_eqb].
  now rewrite rev_app_distr.
Qed.

(** Retrying sends the text of the latest user message once more, as a
    new message; without a user message it does nothing. *)
Theorem retry_sends_the_latest_user_text (st : State) (reply : ChatOutcome) :
  (forall before u after,
     messages st = before ++ u :: after ->
     sender u = user ->
     Forall (fun m => sender m = ai) after ->
     handleRetry st reply = handleSend st (text u) reply)
  /\ (Forall (fun m => sender m = ai) (messages st) ->
      handleRetry st reply = st).
Proof.
  split.
  - intros before u after Hms Hu Hafter. unfold handleRetry.
    now rewrite Hms, (@user_messages_last before u after Hu Hafter).
  - intros Hnone. unfold handleRetry.
    now rewrite (@user_messages_none (messages st) Hnone).
Qed.

Lemma retryCount_step st messageText reply :
  trim messageText <> [] ->
  retryCount (errorState (run_timers (handleSend st messageText reply)))
  = if is_failure reply then retryCount (errorState st) + 1 else 0.
Proof.
  intros Htext. unfold handleSend. cbn [truthy].
  destruct (trim messageText) as [|c t]; [congruence|].
  cbn [List.length Nat.eqb negb]. destruct reply; reflexivity.
Qed.

(** Over any run of non-blank sends, retryCount is the number of requests
    that failed since the last one that succeeded: it is not capped at 3,
    and one success brings it back to 0. *)
Theorem retryCount_counts_failures (sends : list (jsstring * ChatOutcome))
    (st : State) :
  Forall (fun s => trim (fst s) <> []) sends ->
  retryCount (errorState (send_all sends st))
  = failures_since_success (retryCount (errorState st)) sends.
Proof.
  intros Hsends. revert st.
  induction Hsends as [|[t r] sends Ht _ IH]; intros st; [reflexivity|].
  unfold send_all, failures_since_success in *. cbn [List.fold_left fst snd].
  rewrite IH. f_equal. now apply retryCount_step.
Qed.

Lemma user_texts_step st messageText reply :
  trim messageText <> [] ->
  List.map text (user_messages (messages (handleSend st messageText reply)))
  = List.map text (user_messages (messages st)) ++ [messageText].
Proof.
  intros Htext. rewrite (@handleSend_messages st messageText reply Htext).
  rewrite user_messages_app, map_app. f_equal.
  destruct reply; reflexivity.
Qed.


End ChatMore2.

(** ** The typing effect *)

Section TypingFacts.
Variable step : nat.
Variable speaks : bool.
Hypothesis step_positive : (0 < step)%nat.

Lemma truthy_nonempty (s : jsstring) : s <> [] -> truthy (JStr s) = true.
Proof. destruct s; [congruence | reflexivity]. Qed.

Lemma set_last_text_snoc ms m t :
  set_last_text (ms ++ [m]) t = Ok (ms ++ [with_text m t]).
Proof.
  induction ms as [|x ms IH]; [reflexivity|].
  cbn [app set_last_text]. rewrite IH.
  destruct (ms ++ [m]) eqn:E; [destruct ms; discriminate|]. reflexivity.
Qed.

Lemma typing_runs_out (earlier : list Message) (m : Message) : forall d st,
  typingEffect st = true ->
  fullResponseText st <> [] ->
  messages st = earlier ++ [m] ->
  (List.length (fullResponseText st) - List.length (currentTypingText st)
   <= d)%nat ->
  exists n,
    (n <= S d)%nat
    /\ typing_ticks step speaks n st
       = Ok (typed_out st earlier m,
             if speaks then [fullResponseText st] else []).
Proof.
  induction d as [|d IH]; intros st Hon Hfull Hms Hleft.
  - exists 1%nat. split; [lia|].
    cbn [typing_ticks]. unfold typing_tick. rewrite Hon. cbn [truthy].
    destruct (fullResponseText st) as [|c r] eqn:Er; [congruence|].
    cbn [List.length Nat.eqb negb andb].
    cbn [List.length] in Hleft.
    destruct (Nat.ltb_spec (List.length (currentTypingText st))
                (S (List.length r))) as [Hlt|Hge]; [lia|].
    rewrite Hms, set_last_text_snoc. cbn [bind fst snd].
    unfold typed_out. rewrite Er. destruct speaks; reflexivity.
  - destruct (Nat.ltb_spec (List.length (currentTypingText st))
                (List.length (fullResponseText st))) as [Hlt|Hge].
    + set (st1 :=
             {| messages := messages st; input := input st;
                loading := loading st; showSuggestions := showSuggestions st;
                carData := carData st; typingEffect := true;
                currentTypingText :=
                  firstn (List.length (currentTypingText st) + step)
                    (fullResponseText st);
                fullResponseText := fullResponseText st;
                errorState := errorState st; timers := timers st |}).
      assert (Htick : typing_tick step speaks st = Ok (st1, None)).
      { unfold typing_tick. rewrite Hon, (truthy_nonempty Hfull).
        apply Nat.ltb_lt in Hlt. cbn [andb]. rewrite Hlt. reflexivity. }
      destruct (IH st1) as (n & Hn & Hrun); try assumption; [reflexivity| |].
      { unfold st1. cbn [fullResponseText currentTypingText].
        rewrite length_firstn. lia. }
      exists (S n). split; [lia|].
      cbn [typing_ticks]. rewrite Htick. cbn [bind fst snd]. rewrite Hrun.
      cbn [bind fst snd]. reflexivity.
    + destruct (IH st) as (n & Hn & Hrun); try assumption; [lia|].
      exists n. split; [lia | exact Hrun].
Qed.

(** A reply with text is typed out in full: after finitely many runs of
    the effect, at most one more than the text has characters, the reply's
    message carries the whole text, the effect is off, its buffers are
    empty, and the text has been spoken once if speech is on. *)
Theorem reply_is_typed_out (st : State) (messageText : jsstring)
    (data : ChatResponse) :
  trim messageText <> [] ->
  response data <> [] ->
  let sent := handleSend st messageText (Replied data) in
  exists n,
    (n <= S (List.length (response data)))%nat
    /\ typing_ticks step speaks n sent
       = Ok (typed_out sent (messages st ++ [plain_message messageText user])
               (ai_response (messages st) data),
             if speaks then [response data] else [])
    /\ text (with_text (ai_response (messages st) data) (fullResponseText sent))
       = response data.
Proof.
  intros Htext Hresp sent.
  assert (Hsent : typingEffect sent = true
                  /\ fullResponseText sent = response data
                  /\ currentTypingText sent = []
                  /\ messages sent
                     = (messages st ++ [plain_message messageText user])
                         ++ [ai_response (messages st) data]).
  { unfold sent, handleSend. cbn [truthy].
    destruct (trim messageText) as [|c t]; [congruence|].
    cbn [List.length Nat.eqb negb]. repeat split. }
  destruct Hsent as (Hon & Hfull & Hcur & Hms).
  destruct (@typing_runs_out (messages st ++ [plain_message messageText user])
              (ai_response (messages st) data)
              (List.length (response data)) sent Hon)
    as (n & Hn & Hrun).
  - now rewrite Hfull.
  - exact Hms.
  - rewrite Hfull, Hcur. cbn [List.length]. lia.
  - exists n. split; [exact Hn|]. rewrite Hfull in Hrun.
    split; [exact Hrun|]. now rewrite Hfull.
Qed.

(** A reply with empty text is never typed out: the effect does nothing,
    however often it runs, and stays on with the message empty. *)
Theorem empty_reply_keeps_typing (st : State) (messageText : jsstring)
    (data : ChatResponse) (n : nat) :
  trim messageText <> [] ->
  response data = [] ->
  let sent := handleSend st messageText (Replied data) in
  typing_ticks step speaks n sent = Ok (sent, [])
  /\ typingEffect sent = true
  /\ messages sent
     = messages st ++ [plain_message messageText user;
                       ai_response (messages st) data]
  /\ text (ai_response (messages st) data) = [].
Proof.
  intros Htext Hresp sent.
  assert (Hsent : typingEffect sent = true /\ fullResponseText sent = []
                  /\ messages sent
                     = (messages st ++ [plain_message messageText user])
                         ++ [ai_response (messages st) data]).
  { unfold sent, handleSend. cbn [truthy].
    destruct (trim messageText) as [|c t]; [congruence|].
    cbn [List.length Nat.eqb negb]. rewrite <- Hresp. repeat split. }
  destruct Hsent as (Hon & Hfull & Hms).
  assert (Htick : typing_tick step speaks sent = Ok (sent, None)).
  { unfold typing_tick. rewrite Hon, Hfull. reflexivity. }
  split; [|split; [exact Hon|split; [|reflexivity]]].
  - induction n as [|n IH]; [reflexivity|].
    cbn [typing_ticks]. rewrite Htick. cbn [bind fst snd]. rewrite IH.
    reflexivity.
  - rewrite Hms. now rewrite <- app_assoc.
Qed.

End TypingFacts.

(** ** Sends, answers and the typing effect in any order *)

Section SessionFacts.
Import Session.
Variable carId : jsval.
Variable typing_step : nat.
Variable speaks : bool.

(** A send run to completion is its two halves, one after the other. *)
Lemma handleSend_in_two_halves st messageText reply :
  handleSend st messageText reply
  = match handleSend_begin carId st messageText with
    | (st', Some (_, seen)) => handleSend_resume st' seen reply
    | (st', None) => st'
    end.
Proof.
  unfold handleSend, handleSend_begin.
  destruct (negb (truthy (JStr (trim messageText)))); [reflexivity|].
  destruct reply; reflexivity.
Qed.

Lemma last_from_ai_snoc ms m :
  last_from_ai (ms ++ [m]) = sender_eqb (sender m) ai.
Proof. unfold last_from_ai. now rewrite rev_app_distr. Qed.

Lemma last_from_ai_inv ms :
  last_from_ai ms = true -> exists ms' m, ms = ms' ++ [m] /\ sender m = ai.
Proof.
  unfold last_from_ai. intros H.
  destruct (rev ms) as [|m r] eqn:E; [discriminate|].
  exists (rev r), m. split.
  - rewrite <- (rev_involutive ms), E. reflexivity.
  - destruct (sender m); [discriminate | reflexivity].
Qed.

Lemma last_from_ai_app ms ms' :
  Forall (fun m => sender m = ai) ms' ->
  last_from_ai ms = true -> last_from_ai (ms ++ ms') = true.
Proof.
  intros Hai Hlast. destruct ms' as [|m ms'] using rev_ind.
  - now rewrite app_nil_r.
  - rewrite app_assoc, last_from_ai_snoc.
    apply Forall_app in Hai. destruct Hai as [_ Hm].
    apply Forall_inv in Hm. now rewrite Hm.
Qed.

(** Appending messages of the assistant leaves the user's texts alone. *)
Lemma user_texts_app_ai st st' ms :
  messages st' = messages st ++ ms ->
  Forall (fun m => sender m = ai) ms ->
  user_texts st' = user_texts st.
Proof.
  intros Hms Hai. unfold user_texts.
  now rewrite Hms, user_messages_app, (@user_messages_none ms Hai), app_nil_r.
Qed.

Lemma settled_inv st :
  settled st = true ->
  (being_typed st = true -> last_from_ai (messages st) = true)
  /\ Forall (fun m => sender m = ai) (List.map snd (timers st)).
Proof.
  unfold settled. intros H. apply andb_prop in H. destruct H as [H1 H2].
  split.
  - intros E. rewrite E in H1. exact H1.
  - apply List.Forall_forall. intros m Hm. apply in_map_iff in Hm.
    destruct Hm as (t & <- & Ht).
    rewrite forallb_forall in H2. specialize (H2 t Ht).
    destruct (sender (snd t)); [discriminate | reflexivity].
Qed.

Lemma settled_intro st :
  (being_typed st = true -> last_from_ai (messages st) = true) ->
  Forall (fun m => sender m = ai) (List.map snd (timers st)) ->
  settled st = true.
Proof.
  intros H1 H2. unfold settled. apply andb_true_intro. split.
  - destruct (being_typed st); [now rewrite H1 | reflexivity].
  - apply forallb_forall. intros t Ht.
    rewrite List.Forall_forall in H2.
    now rewrite (H2 (snd t) (in_map snd _ _ Ht)).
Qed.

(** A call of [handleSend] while no reply is being typed. *)
Lemma send_settled (messageText : jsstring) (w : World) :
  settled (state w) = true ->
  being_typed (state w) = false ->
  let sent :=
    if negb (truthy (JStr (trim messageText))) then []
    else [chat_request carId (state w) messageText] in
  settled (state (send carId messageText w)) = true
  /\ posted (send carId messageText w) = posted w ++ sent
  /\ user_texts (state (send carId messageText w))
     = user_texts (state w) ++ List.map message sent.
Proof.
  intros Hset Hquiet. destruct (settled_inv (state w) Hset) as [_ Htimers].
  unfold send, handleSend_begin.
  destruct (negb (truthy (JStr (trim messageText)))); cbn [state posted List.map].
  - rewrite !app_nil_r. auto.
  - split; [|split; [reflexivity|]].
    + apply settled_intro; [|exact Htimers].
      unfold being_typed in *. cbn [typingEffect fullResponseText].
      rewrite Hquiet. discriminate.
    + unfold user_texts. cbn [messages message chat_request].
      rewrite user_messages_app, map_app. reflexivity.
Qed.

Lemma requests_one history ev :
  requests carId history [ev]
  = match text_sent history ev with
    | Some messageText =>
        [ {| message := messageText;
             request_car_id := carId;
             conversation_history := history |} ]
    | None => []
    end.
Proof. cbn [requests]. destruct (text_sent history ev); reflexivity. Qed.

(** One event, in a state where a reply that is being typed goes into a
    message of the assistant: nothing throws, the state stays so, and the
    user's texts grow by the text sent, if any. *)
Lemma step_settled (ev : Event) (w : World) :
  settled (state w) = true ->
  match ev with
  | Send _ | Retry => being_typed (state w) = false
  | _ => True
  end ->
  exists w',
    step carId typing_step speaks ev w = Ok w'
    /\ settled (state w') = true
    /\ posted w'
       = posted w ++ requests carId (user_texts (state w)) [ev]
    /\ user_texts (state w')
       = user_texts (state w)
           ++ List.map message (requests carId (user_texts (state w)) [ev]).
Proof.
  intros Hset Hev. destruct (settled_inv (state w) Hset) as [Hlast Htimers].
  rewrite requests_one.
  destruct ev as [messageText| |k reply| | |car].
  - (* a message is sent *)
    cbn [step]. unfold text_sent.
    destruct (@send_settled messageText w Hset Hev) as (H1 & H2 & H3).
    eexists. split; [reflexivity|]. split; [exact H1|].
    rewrite H2, H3. unfold chat_request.
    destruct (negb (truthy (JStr (trim messageText)))); auto.
  - (* the last message of the user is sent again *)
    cbn [step]. unfold text_sent.
    assert (Hrev : rev (user_texts (state w))
                   = List.map text (rev (user_messages (messages (state w)))))
      by (unfold user_texts; now rewrite map_rev).
    rewrite Hrev.
    destruct (rev (user_messages (messages (state w)))) as [|m r].
    + exists w. cbn [List.map]. rewrite !app_nil_r. auto.
    + cbn [List.map].
      destruct (@send_settled (text m) w Hset Hev) as (H1 & H2 & H3).
      eexists. split; [reflexivity|]. split; [exact H1|].
      rewrite H2, H3. unfold chat_request.
      destruct (negb (truthy (JStr (trim (text m))))); auto.
  - (* a request is answered *)
    cbn [step]. unfold text_sent. cbn [List.map]. rewrite !app_nil_r.
    destruct (nth_error (in_flight w) k) as [seen|];
      [|exists w; auto].
    eexists. split; [reflexivity|]. cbn [state posted].
    split; [|split; [reflexivity|]].
    + apply settled_intro.
      * intros _. destruct reply; cbn [handleSend_resume messages];
          now rewrite last_from_ai_snoc.
      * destruct reply; cbn [handleSend_resume timers]; try exact Htimers;
          rewrite map_app; apply Forall_app; (split; [exact Htimers|]);
          unfold fallback_timers; destruct (seen_carData seen);
          try destruct (3 <=? _); repeat constructor.
    + destruct reply;
        (eapply user_texts_app_ai; [reflexivity|]); repeat constructor.
  - (* the typing effect runs *)
    cbn [step]. unfold text_sent. cbn [List.map]. rewrite !app_nil_r.
    unfold typing_tick. fold (being_typed (state w)).
    destruct (being_typed (state w)) eqn:Etyped.
    2:{ eexists. split; [reflexivity|]. cbn [fst state posted]. auto. }
    specialize (Hlast eq_refl).
    destruct (List.length (currentTypingText (state w))
                <? List.length (fullResponseText (state w)))%nat.
    + eexists. split; [reflexivity|]. cbn [fst state posted].
      split; [|auto].
      apply settled_intro; [intros _; exact Hlast | exact Htimers].
    + destruct (last_from_ai_inv (messages (state w)) Hlast)
        as (ms & m & Ems & Hm).
      rewrite Ems, set_last_text_snoc. cbn [bind].
      eexists. split; [reflexivity|]. cbn [fst state posted].
      split; [|split; [reflexivity|]].
      * apply settled_intro; [discriminate | exact Htimers].
      * unfold user_texts. cbn [messages]. rewrite Ems.
        rewrite !user_messages_app.
        unfold user_messages at 2 4. cbn [List.filter with_text sender].
        rewrite Hm. reflexivity.
  - (* the timers run *)
    cbn [step]. unfold text_sent. cbn [List.map]. rewrite !app_nil_r.
    eexists. split; [reflexivity|]. cbn [state posted].
    split; [|split; [reflexivity|]].
    + apply settled_intro; [|constructor].
      intros Etyped. cbn [run_timers messages].
      apply last_from_ai_app; [exact Htimers|]. apply Hlast. exact Etyped.
    + eapply user_texts_app_ai; [reflexivity | exact Htimers].
  - (* the vehicle's data arrives *)
    cbn [step]. unfold text_sent. cbn [List.map]. rewrite !app_nil_r.
    eexists. split; [reflexivity|]. cbn [state posted].
    split; [|auto]. apply settled_intro; [exact Hlast | exact Htimers].
Qed.

Lemma requests_app history evs evs' :
  requests carId history (evs ++ evs')
  = requests carId history evs
      ++ requests carId
           (history ++ List.map message (requests carId history evs)) evs'.
Proof.
  revert history. induction evs as [|ev evs IH]; intros history.
  - cbn [app requests List.map]. now rewrite app_nil_r.
  - cbn [app requests]. destruct (text_sent history ev); [|apply IH].
    cbn [List.map message app]. rewrite IH, <- app_assoc. reflexivity.
Qed.

(** As long as no message is sent or sent again while a reply is being
    typed, the events of a session (messages sent, retries, requests
    answered in any order with a reply or a failure, runs of the typing
    effect, timers, the arrival of the vehicle's data) never throw, and
    every request is posted with the texts the user sent before it as its
    history, in order, failed and repeated ones included: nothing the
    assistant said is in it. *)
Theorem history_is_the_user_texts (evs : list Event) (w : World) :
  settled (state w) = true ->
  patient carId typing_step speaks evs w = true ->
  exists w',
    run carId typing_step speaks evs w = Ok w'
    /\ posted w' = posted w ++ requests carId (user_texts (state w)) evs.
Proof.
  revert w. induction evs as [|ev evs IH]; intros w Hset Hpat.
  - exists w. split; [reflexivity|]. cbn [requests]. now rewrite app_nil_r.
  - cbn [patient] in Hpat. apply andb_prop in Hpat.
    destruct Hpat as [Hev Hrest].
    destruct (@step_settled ev w Hset) as (w1 & Estep & Hset1 & Hposted & Htexts).
    { destruct ev; try exact I; now apply negb_true_iff. }
    rewrite Estep in Hrest.
    destruct (IH w1 Hset1 Hrest) as (w' & Erun & Hposted').
    exists w'. split.
    + cbn [run]. rewrite Estep. exact Erun.
    + rewrite Hposted', Hposted, Htexts, <- app_assoc.
      change (ev :: evs) with ([ev] ++ evs). now rewrite requests_app.
Qed.

End SessionFacts.

(** ** Percentages within bounds *)

(** Every percentage the sentiment fetcher derives is a whole number from
    0 to 100, and for an aspect with mentions whose total is a finite
    number the three add up to 99, 100 or 101. *)
Theorem percentages_within_bounds (item : SentimentRow) :
  exists a b c : Z,
    has_percentages (format_sentiment item) a b c
    /\ (0 <= a <= 100 /\ 0 <= b <= 100 /\ 0 <= c <= 100)%Z
    /\ (0 < positive_count item + negative_count item + neutral_count item ->
        is_finite (total_count item) = true ->
        (99 <= a + b + c <= 101)%Z).
Proof.
  unfold has_percentages, format_sentiment.
  cbn [positive negative neutral].
  destruct (percentages_of_row item)
    as [(Hdeg & -> & -> & ->)
       |(yp & yn & yu & -> & -> & -> & Hp & Hn & Hu & Hs)].
  - exists 0%Z, 0%Z, 0%Z. split; [repeat split|]. split; [lia|].
    intros Hsome Hfin. destruct Hdeg as [Hzero|Hinf]; [lia|].
    rewrite Hinf in Hfin. discriminate.
  - destruct (nearest_to_shares Hp Hn Hu Hs) as (Bp & Bn & Bu & Hsum).
    do 3 eexists. split; [repeat split|].
    split; [split; [exact Bp | split; [exact Bn | exact Bu]]|].
    intros _ _. exact Hsum.
Qed.

Lemma percentages_within_bounds_witness :
  exists a b c : Z,
    has_percentages (format_sentiment (mentions "Safety" 5 1 0)) a b c
    /\ (99 <= a + b + c <= 101)%Z.
Proof.
  destruct (percentages_within_bounds (mentions "Safety" 5 1 0))
    as (a & b & c & Hp & _ & Hsum).
  exists a, b, c. split; [exact Hp|]. apply Hsum; reflexivity.
Defined.

(** ** The properties at work on sample data *)

Lemma relationships_all_or_none_witness :
  (exists rels, getCarRelationships stocked_store 7 = Ok rels
                /\ List.length rels = 2%nat)
  /\ getCarRelationships stocked_store 8 = Ok [].
Proof.
  split.
  - destruct (@relationships_all_or_none stocked_store 7 _ eq_refl) as [Hall _].
    destruct Hall as (rels & Hrels & Hformats).
    + repeat constructor; discriminate.
    + exists rels. split; [exact Hrels|].
      apply Forall2_length in Hformats. now rewrite <- Hformats.
  - destruct (@relationships_all_or_none stocked_store 8 _ eq_refl) as [_ Hnone].
    apply Hnone. apply Exists_cons_tl, Exists_cons_hd. reflexivity.
Defined.

Lemma features_grouped_by_car_witness :
  exists features,
    getCarFeatures stocked_store [7; 8] = Ok features
    /\ feature_at features 7 (lit "Performance") (lit "overall")
       = Some (JNum (Fin (9 # 2)))
    /\ feature_at features 7 (lit "Comfort") (lit "overall")
       = Some (JStr (lit "n/a"))
    /\ feature_at features 5 (lit "Value") (lit "overall") = None.
Proof.
  destruct (@features_grouped_by_car stocked_store [7; 8] feature_rows eq_refl)
    as (features & Hfetch & _ & Hat).
  exists features. split; [exact Hfetch|].
  rewrite !Hat. split; [|split]; vm_compute; reflexivity.
Defined.

(** Whatever the store does, reject, report an error, or answer with
    rows, with no data at all or with rows whose target car is missing,
    each of the four fetchers returns normally. *)
Theorem fetchers_always_return (supabase : Supabase) (carId : N)
    (carIds : list N) :
  (exists rels, getCarRelationships supabase carId = Ok rels)
  /\ (exists features, getCarFeatures supabase carIds = Ok features)
  /\ (exists events, getCarTimeline supabase carId = Ok events)
  /\ (exists aspects, getReviewSentiment supabase carId = Ok aspects).
Proof. apply fetchers_never_throw. Qed.

(** With the features query answered, comparison shaping returns a
    payload over the five categories with at most three entities and one
    row of five cells per entity; each cell is the car's truthy overall
    rating for the category or a placeholder made from a draw. *)
Theorem comparison_payload_shape
    (supabase : Supabase) (random : nat -> Q) (carData : Car) (i : nat)
    (rows : list FeatureRow) :
  (forall carIds, car_features supabase carIds = Resolved (Some rows) None) ->
  exists features entities values j,
    getCarFeatures supabase (List.map entity_id entities) = Ok features
    /\ generateVisualizationData supabase random (Some comparison) carData i
       = (Ok (ComparisonPayload categories entities values), j)
    /\ (List.length entities <= 3)%nat
    /\ List.length values = List.length entities
    /\ Forall (fun row => List.length row = 5%nat) values
    /\ Forall2 (fun e row =>
                  Forall2 (rated_or_placeholder random features (entity_id e))
                    categories row)
         entities values.
Proof.
  intros Hup.
  destruct (@comparison_shaped_with_features supabase random carData i rows Hup)
    as (features & entities & values & j & Hfetch & Hgen & Hlen & Hcells).
  exists features, entities, values, j.
  split; [exact Hfetch|]. split; [exact Hgen|]. split; [exact Hlen|].
  split; [symmetry; now apply Forall2_length in Hcells|].
  split; [|exact Hcells].
  clear Hgen Hlen Hfetch. induction Hcells as [|e row es rs Hrow _ IH];
    constructor; [|exact IH].
  apply Forall2_length in Hrow. now rewrite <- Hrow.
Qed.

Lemma comparison_payload_shape_witness :
  exists features entities values j,
    getCarFeatures stocked_store (List.map entity_id entities) = Ok features
    /\ generateVisualizationData stocked_store half (Some comparison) civic 0%nat
       = (Ok (ComparisonPayload categories entities values), j)
    /\ (List.length entities <= 3)%nat.
Proof.
  destruct (@comparison_payload_shape stocked_store half civic 0%nat
              feature_rows (fun _ => eq_refl))
    as (features & entities & values & j & Hfetch & Hgen & Hlen & _).
  exists features, entities, values, j. auto.
Defined.

Lemma shaping_degrades_to_empty_witness :
  generateVisualizationData failing_store half (Some trend) civic 0%nat
  = (Ok (TrendPayload [] trend_series (0, 5)), 0%nat)
  /\ generateVisualizationData failing_store half (Some sentiment) civic 0%nat
     = (Ok (SentimentPayload []), 0%nat).
Proof.
  destruct (shaping_degrades_to_empty failing_store half civic 0%nat)
    as (Htrend & Hsentiment & _).
  split; [apply Htrend | apply Hsentiment]; exact I.
Defined.

Lemma radar_rows_witness :
  exists rows r,
    formattedData [lit "Performance"; lit "Comfort"] radar_entities radar_values
    = Ok rows
    /\ nth_error rows 1 = Some r
    /\ r !! lit "category" = Some (JStr (lit "Comfort"))
    /\ r !! lit "2022 Toyota Corolla" = Some (JNum (Fin 2)).
Proof.
  destruct (@radar_rows [lit "Performance"; lit "Comfort"] radar_entities
              radar_values ltac:(cbn; lia))
    as (rows & Hrows & _ & Hrow).
  destruct (Hrow 1%nat (lit "Comfort") eq_refl) as (r & Hr & Hcat & Hval).
  exists rows, r. split; [exact Hrows|]. split; [exact Hr|]. split.
  - apply Hcat. intros e [<-|[<-|[]]]; discriminate.
  - apply (Hval 1%nat _ _ eq_refl eq_refl).
    intros j' e' Hlt Hj'. destruct j' as [|[|j']]; try lia.
    destruct j'; discriminate.
Defined.

Lemma radar_needs_a_row_per_entity_witness :
  formattedData [lit "Performance"] radar_entities [[JNum (Fin 4)]]
  = Throw TypeError.
Proof.
  apply radar_needs_a_row_per_entity. cbn. lia.
Defined.

Lemma chart_accepts_shaped_comparison_witness :
  exists data j radar,
    generateVisualizationData stocked_store half (Some comparison) civic 0%nat
    = (Ok data, j)
    /\ ComparisonChart data = Ok radar
    /\ List.length radar = 5%nat.
Proof.
  apply (@chart_accepts_shaped_comparison stocked_store half civic 0%nat
           feature_rows).
  intros carIds. reflexivity.
Defined.

Lemma blank_message_is_ignored_witness :
  handleSend (session (Some civic) 1) (lit "   ") (Replied helpful_reply)
  = session (Some civic) 1.
Proof.
  apply blank_message_is_ignored. repeat constructor.
Defined.

Lemma send_appends_two_messages_witness :
  exists m,
    messages (handleSend (session (Some civic) 0) (lit "Is it reliable?") BadJson)
    = [plain_message (lit "Is it reliable?") user; m]
    /\ sender m = ai /\ error m = true.
Proof.
  destruct (@send_appends_two_messages (session (Some civic) 0)
              (lit "Is it reliable?") BadJson)
    as (m & Hm & Hs & He & _).
  - vm_compute. discriminate.
  - exists m. split; [exact Hm|]. split; [exact Hs | exact He].
Defined.

Lemma success_resets_the_tiers_witness :
  exists m,
    messages (handleSend
                (handleSend (session (Some civic) 2) (lit "Is it reliable?")
                   (Replied helpful_reply))
                (lit "And the brakes?") FetchRejected)
    = messages (handleSend (session (Some civic) 2) (lit "Is it reliable?")
                  (Replied helpful_reply))
        ++ [plain_message (lit "And the brakes?") user; m]
    /\ text m = tier_text 1 /\ showRetry m = true.
Proof.
  destruct (@success_resets_the_tiers (session (Some civic) 2)
              (lit "Is it reliable?") (lit "And the brakes?") helpful_reply
              FetchRejected)
    as (_ & m & Hm & Ht & Hr & _).
  - vm_compute. discriminate.
  - vm_compute. discriminate.
  - reflexivity.
  - exists m. split; [exact Hm|]. split; [exact Ht | exact Hr].
Defined.

Lemma reply_cards_in_order_witness :
  exists m cs,
    messages (handleSend (session (Some civic) 0) (lit "Is it reliable?")
                (Replied helpful_reply))
    = [plain_message (lit "Is it reliable?") user; m]
    /\ components m = Some cs
    /\ StronglySorted lt (List.map component_rank cs).
Proof.
  destruct (@reply_cards_in_order (session (Some civic) 0)
              (lit "Is it reliable?") helpful_reply)
    as (m & cs & Hm & Hcs & Hsorted & _).
  - vm_compute. discriminate.
  - exists m, cs. split; [exact Hm|]. split; [exact Hcs | exact Hsorted].
Defined.

Lemma retry_sends_the_latest_user_text_witness :
  handleRetry
    (handleSend (session (Some civic) 0) (lit "Is it reliable?") BadJson)
    (Replied helpful_reply)
  = handleSend
      (handleSend (session (Some civic) 0) (lit "Is it reliable?") BadJson)
      (lit "Is it reliable?") (Replied helpful_reply)
  /\ handleRetry (session (Some civic) 0) BadJson = session (Some civic) 0.
Proof.
  split.
  - apply (proj1 (retry_sends_the_latest_user_text _ _)
             [] (plain_message (lit "Is it reliable?") user)
             [error_message 1 (Some civic)]).
    + reflexivity.
    + reflexivity.
    + repeat constructor.
  - apply (proj2 (retry_sends_the_latest_user_text _ _)). constructor.
Defined.

Lemma retryCount_counts_failures_witness :
  retryCount
    (errorState
       (send_all [ (lit "a", BadJson); (lit "b", Replied helpful_reply);
                   (lit "c", NotOk 500); (lit "d", FetchRejected) ]
          (session (Some civic) 3)))
  = 2.
Proof.
  rewrite retryCount_counts_failures; [reflexivity|].
  repeat constructor; vm_compute; discriminate.
Defined.

Lemma history_is_the_user_texts_witness :
  exists w',
    Session.run (JNum (Fin 7)) 3 true
      [ Session.Send (lit "Is it reliable?");
        Session.Answer 0 (Replied helpful_reply);
        Session.TypingEffect; Session.TypingEffect; Session.TypingEffect;
        Session.Send (lit "And safe?");
        Session.Answer 0 BadJson;
        Session.Retry ]
      Session.opened
    = Ok w'
    /\ List.map conversation_history (Session.posted w')
       = [ [];
           [lit "Is it reliable?"];
           [lit "Is it reliable?"; lit "And safe?"] ].
Proof.
  destruct (@history_is_the_user_texts (JNum (Fin 7)) 3%nat true
              [ Session.Send (lit "Is it reliable?");
                Session.Answer 0 (Replied helpful_reply);
                Session.TypingEffect; Session.TypingEffect;
                Session.TypingEffect;
                Session.Send (lit "And safe?");
                Session.Answer 0 BadJson;
                Session.Retry ]
              Session.opened ltac:(vm_compute; reflexivity)
              ltac:(vm_compute; reflexivity))
    as (w' & Hrun & Hposted).
  exists w'. split; [exact Hrun|]. rewrite Hposted. vm_compute. reflexivity.
Defined.

(** A message sent while a reply is being typed is the last message when
    the typing ends: its text is replaced by the reply, and the reply is
    part of the history posted with the next message. *)
Example late_send_posts_the_reply :
  let evs :=
    [ Session.Send (lit "Is it reliable?");
      Session.Answer 0 (Replied helpful_reply);
      Session.Send (lit "And safe?");
      Session.TypingEffect; Session.TypingEffect; Session.TypingEffect;
      Session.Send (lit "Thanks") ] in
  Session.patient (JNum (Fin 7)) 3 true evs Session.opened = false
  /\ exists w',
       Session.run (JNum (Fin 7)) 3 true evs Session.opened = Ok w'
       /\ List.map conversation_history (Session.posted w')
          = [ []; [lit "Is it reliable?"]; [lit "Is it reliable?"; lit "It is."] ]
       /\ List.map text (messages (Session.state w'))
          = [ text Session.welcome; lit "Is it reliable?"; []; lit "It is.";
              lit "Thanks" ].
Proof.
  split; [vm_compute; reflexivity|]. eexists.
  split; [vm_compute; reflexivity|]. split; vm_compute; reflexivity.
Qed.

Lemma reply_is_typed_out_witness :
  exists n st',
    typing_ticks 3 true n
      (handleSend (session (Some civic) 0) (lit "Is it reliable?")
         (Replied helpful_reply))
    = Ok (st', [lit "It is."])
    /\ typingEffect st' = false
    /\ List.map text (messages st') = [lit "Is it reliable?"; lit "It is."].
Proof.
  destruct (@reply_is_typed_out 3 true ltac:(lia) (session (Some civic) 0)
              (lit "Is it reliable?") helpful_reply)
    as (n & _ & Hrun & _).
  - vm_compute. discriminate.
  - vm_compute. discriminate.
  - eexists n, _. split; [exact Hrun|]. split; reflexivity.
Defined.

Lemma empty_reply_keeps_typing_witness :
  typing_ticks 3 true 50
    (handleSend (session None 0) (lit "Hello?") (Replied silent_reply))
  = Ok (handleSend (session None 0) (lit "Hello?") (Replied silent_reply), [])
  /\ typingEffect
       (handleSend (session None 0) (lit "Hello?") (Replied silent_reply))
     = true.
Proof.
  destruct (@empty_reply_keeps_typing 3 true (session None 0) (lit "Hello?")
              silent_reply 50)
    as (Hrun & Hon & _).
  - vm_compute. discriminate.
  - reflexivity.
  - split; [exact Hrun | exact Hon].
Defined.

(** ** Comparison shaping without placeholders *)

Import Rated.

Section NoPlaceholders.
Variable supabase : Supabase.
Variable random : nat -> Q.

Lemma mapM_same_index {A B} (f : A -> M B) (P : A -> B -> Prop) xs i :
  (forall x, In x xs -> exists y, f x i = (Ok y, i) /\ P x y) ->
  exists ys, mapM f xs i = (Ok ys, i) /\ Forall2 P xs ys.
Proof.
  induction xs as [|x xs IH]; intros Hf; cbn [mapM].
  - exists []. split; [reflexivity | constructor].
  - destruct (Hf x (or_introl eq_refl)) as (y & Hy & HP).
    destruct (IH (fun x' Hin => Hf x' (or_intror Hin))) as (ys & Hys & HPs).
    exists (y :: ys). unfold bindM at 1. rewrite Hy.
    unfold bindM at 1. rewrite Hys. split; [reflexivity | now constructor].
Qed.

Lemma category_value_rated features rows id cat v i :
  features !! id = Some (group_car_features rows id) ->
  overall_of rows id cat = Some v ->
  truthy v = true ->
  category_value random features id cat i = (Ok v, i).
Proof.
  intros Hentry Hov Ht. unfold category_value. rewrite Hentry.
  pose proof (group_car_features_at rows id cat (lit "overall")) as Hat.
  unfold overall_of in Hov. rewrite Hov in Hat.
  destruct (group_car_features rows id !! cat) as [table|]; [|discriminate].
  rewrite Hat, Ht. reflexivity.
Qed.

(** With a truthy overall rating on file for every compared car in each of
    the five categories, comparison shaping makes no draw: the payload
    holds exactly those ratings. *)
Theorem comparison_without_placeholders (carData : Car) (i : nat)
    (rows : list FeatureRow) (rels : list Related) :
  getCarRelationships supabase (car_id carData) = Ok rels ->
  (forall carIds, car_features supabase carIds = Resolved (Some rows) None) ->
  (forall id cat,
     In id (compared_ids carData rels) -> In cat categories ->
     exists v, overall_of rows id cat = Some v /\ truthy v = true) ->
  exists entities values,
    generateVisualizationData supabase random (Some comparison) carData i
    = (Ok (ComparisonPayload categories entities values), i)
    /\ List.map entity_id entities = compared_ids carData rels
    /\ Forall2 (fun e row =>
                  Forall2 (fun cat v => overall_of rows (entity_id e) cat = Some v)
                    categories row)
         entities values.
Proof.
  intros Hrels Hup Hrated.
  cbn [generateVisualizationData]. unfold shape_comparison.
  set (competitors := firstn 2 (List.filter
         (fun rel => str_eqb (type rel) (lit "competitor")) rels)) in *.
  assert (Hids : compared_ids carData rels
                 = car_id carData :: List.map related_id competitors)
    by reflexivity.
  destruct (for_each_car_table rows (compared_ids carData rels) ∅)
    as (features & Hfor & Hlook).
  assert (Hfeat : getCarFeatures supabase (compared_ids carData rels)
                  = Ok features).
  { unfold getCarFeatures. rewrite Hup. cbn [with_data]. now rewrite Hfor. }
  assert (Hentry : forall id, In id (compared_ids carData rels) ->
            features !! id = Some (group_car_features rows id)).
  { intros id Hid. rewrite Hlook.
    destruct (existsb (N.eqb id) (compared_ids carData rels)) eqn:E;
      [reflexivity|].
    apply not_true_iff_false in E. exfalso. apply E.
    apply existsb_exists. exists id. split; [exact Hid | apply N.eqb_refl]. }
  assert (Hrow : forall id k, In id (compared_ids carData rels) ->
            exists row,
              mapM (category_value random features id) categories k = (Ok row, k)
              /\ Forall2 (fun cat v => overall_of rows id cat = Some v)
                   categories row).
  { intros id k Hid. apply mapM_same_index. intros cat Hcat.
    destruct (Hrated id cat Hid Hcat) as (v & Hv & Ht).
    exists v. split; [|exact Hv].
    now apply (@category_value_rated features rows id cat v k (Hentry id Hid)). }
  destruct (Hrow (car_id carData) i) as (own & Hown & Pown).
  { rewrite Hids. now left. }
  assert (Hrows : exists others,
            mapM (fun comp => mapM (category_value random features (related_id comp))
                                categories) competitors i = (Ok others, i)
            /\ Forall2 (fun comp row =>
                          Forall2 (fun cat v =>
                                     overall_of rows (related_id comp) cat = Some v)
                            categories row)
                 competitors others).
  { apply mapM_same_index. intros comp Hcomp. apply Hrow.
    rewrite Hids. right. now apply in_map. }
  destruct Hrows as (others & Hothers & Pothers).
  do 2 eexists. split; [|split].
  - unfold bindM at 1. unfold lift at 1. rewrite Hrels.
    fold competitors. rewrite <- Hids.
    unfold bindM at 1. unfold lift at 1. rewrite Hfeat.
    unfold bindM at 1. rewrite Hown.
    unfold bindM at 1. rewrite Hothers. reflexivity.
  - cbn [List.map entity_id]. now rewrite competitor_entity_ids.
  - constructor; [exact Pown|].
    apply (@competitor_rows
             (fun id row => Forall2 (fun cat v => overall_of rows id cat = Some v)
                              categories row)).
    exact Pothers.
Qed.

End NoPlaceholders.

Lemma comparison_without_placeholders_witness :
  exists entities values,
    generateVisualizationData rated_store half (Some comparison) civic 0%nat
    = (Ok (ComparisonPayload categories entities values), 0%nat)
    /\ List.map entity_id entities = [7; 8].
Proof.
  destruct (@comparison_without_placeholders rated_store half civic 0%nat
              (rated_rows [7; 8] 4) _ eq_refl (fun _ => eq_refl))
    as (entities & values & Hgen & Hids & _).
  - intros id cat Hid Hcat. exists (JNum (Fin 4)).
    destruct Hid as [<-|[<-|[]]];
      repeat (destruct Hcat as [<-|Hcat]; [split; vm_compute; reflexivity|]);
      contradiction.
  - exists entities, values. split; [exact Hgen | exact Hids].
Defined.

(** ** ChatInterface *)

Section SecondChat.

Lemma has_text_trim t :
  ChatInterface.has_text t = negb (Nat.eqb (List.length (trim t)) 0).
Proof.
  unfold ChatInterface.has_text. destruct t as [|c t]; reflexivity.
Qed.

(** In ChatInterface a failed request is passed over in silence: the
    user's message stays in the history, no message of the assistant
    follows it, and the error state is left as it was. *)
Theorem second_chat_fails_silently (st : State) (messageText : jsstring)
    (reply : ChatOutcome) :
  trim messageText <> [] -> is_failure reply = true ->
  let st' := ChatInterface.handleSend st messageText reply in
  messages st' = messages st ++ [plain_message messageText user]
  /\ errorState st' = errorState st
  /\ loading st' = false
  /\ typingEffect st' = typingEffect st.
Proof.
  intros Htext Hfail. unfold ChatInterface.handleSend. cbn [truthy].
  destruct (trim messageText) as [|c t]; [congruence|].
  cbn [List.length Nat.eqb negb].
  destruct reply; try discriminate; repeat split.
Qed.

(** In ChatInterface the history posted with a request holds both sides
    of the conversation: after a send it has grown by the user's text
    and, when the request succeeded with a non-blank reply, by that
    reply. *)
Theorem second_chat_history_has_both_sides (carId : jsval) (st : State)
    (messageText next : jsstring) (reply : ChatOutcome) :
  trim messageText <> [] ->
  conversation_history
    (ChatInterface.chat_request carId
       (ChatInterface.handleSend st messageText reply) next)
  = conversation_history (ChatInterface.chat_request carId st messageText)
      ++ messageText
      :: match reply with
         | Replied data =>
             if ChatInterface.has_text (response data)
             then [response data] else []
         | _ => []
         end.
Proof.
  intros Htext.
  assert (Hkeep : ChatInterface.has_text messageText = true).
  { rewrite has_text_trim. destruct (trim messageText); [congruence|reflexivity]. }
  unfold ChatInterface.chat_request, ChatInterface.handleSend.
  cbn [truthy conversation_history].
  destruct (trim messageText) as [|c t] eqn:E; [congruence|].
  cbn [List.length Nat.eqb negb].
  destruct reply; cbn [messages];
    rewrite ?map_app, ?List.filter_app; cbn [List.map List.filter text plain_message
                                              ChatInterface.ai_response];
    rewrite Hkeep; rewrite <- ?app_assoc; reflexivity.
Qed.

End SecondChat.

Lemma second_chat_fails_silently_witness :
  messages (ChatInterface.handleSend (session (Some civic) 0)
              (lit "Is it reliable?") BadJson)
  = [plain_message (lit "Is it reliable?") user]
  /\ errorState (ChatInterface.handleSend (session (Some civic) 0)
                   (lit "Is it reliable?") BadJson)
     = errorState (session (Some civic) 0).
Proof.
  destruct (@second_chat_fails_silently (session (Some civic) 0)
              (lit "Is it reliable?") BadJson)
    as (Hm & He & _).
  - vm_compute. discriminate.
  - reflexivity.
  - split; [exact Hm | exact He].
Defined.

Lemma second_chat_history_has_both_sides_witness :
  conversation_history
    (ChatInterface.chat_request (JNum (Fin 7))
       (ChatInterface.handleSend (session (Some civic) 0)
          (lit "Is it reliable?") (Replied helpful_reply))
       (lit "And the brakes?"))
  = [lit "Is it reliable?"; lit "It is."].
Proof.
  rewrite second_chat_history_has_both_sides; [reflexivity|].
  vm_compute. discriminate.
Defined.
